(** * Parsonic: proxy pool, fetch engines and scrape orchestrator

    A shallow embedding of [src/core/proxy_manager.py], [src/engines/base.py],
    [src/engines/static_engine.py], [src/engines/js_engine.py],
    [src/core/scraper.py] and the link-follow section of
    [src/models/project.py], followed by the properties proved about them.

    Conventions.
    - Python [int] is [Z]; counters that start at 0 and are only ever
      incremented are [nat].
    - Python [float] durations are exact rationals ([Q]); rounding is not
      modelled, but the [OverflowError] of converting an integer beyond
      the range of a float is.
    - A [dict] whose iteration order is observable is an association list in
      insertion order; other dictionaries are [gmap], sets are [gset].
    - Effects (engine state, sleeps, network requests, signals, exceptions)
      are threaded through a small state/exception/trace monad. *)

From Stdlib Require Import ZArith QArith Qminmax Lia Lqa.
From stdpp Require Import base option list strings gmap pretty.

Open Scope Z_scope.

(** ** Python helpers *)

Module Py.

(** [d[k] = v] on an insertion-ordered dict: an existing key keeps its
    position, a new key goes last. *)
Fixpoint dict_set {V} (k : string) (v : V) (d : list (string * V)) : list (string * V) :=
  match d with
  | [] => [(k, v)]
  | (k', v') :: d' =>
      if String.eqb k k' then (k, v) :: d' else (k', v') :: dict_set k v d'
  end.

(** [d.get(k)] *)
Fixpoint dict_get {V} (k : string) (d : list (string * V)) : option V :=
  match d with
  | [] => None
  | (k', v') :: d' => if String.eqb k k' then Some v' else dict_get k d'
  end.

(** [k in d] *)
Definition dict_mem {V} (k : string) (d : list (string * V)) : bool :=
  match dict_get k d with Some _ => true | None => false end.

(** Update in place the object stored under [k] (attribute assignments on
    [d[k]]); nothing happens when the key is absent. *)
Fixpoint dict_update {V} (k : string) (f : V -> V) (d : list (string * V)) : list (string * V) :=
  match d with
  | [] => []
  | (k', v') :: d' =>
      if String.eqb k k' then (k', f v') :: d' else (k', v') :: dict_update k f d'
  end.

(** [range(n)] *)
Definition range (n : Z) : list nat := seq 0 (Z.to_nat n).

(** [s.startswith(p)] *)
Fixpoint startswith (p s : string) : bool :=
  match p, s with
  | EmptyString, _ => true
  | String a p', String b s' => if Ascii.eqb a b then startswith p' s' else false
  | String _ _, EmptyString => false
  end.

(** [p in s] for strings *)
Fixpoint contains (p s : string) : bool :=
  startswith p s ||
  match s with
  | EmptyString => false
  | String _ s' => contains p s'
  end.

(** [s.endswith(p)] *)
Fixpoint endswith (p s : string) : bool :=
  String.eqb p s ||
  match s with
  | EmptyString => false
  | String _ s' => endswith p s'
  end.

(** [s[n:]] *)
Fixpoint drop_chars (n : nat) (s : string) : string :=
  match n, s with
  | O, _ => s
  | S n', String _ s' => drop_chars n' s'
  | S _, EmptyString => EmptyString
  end.

(** ASCII lower-casing; the prefixes tested with it are plain ASCII. *)
Definition lower_ascii (c : Ascii.ascii) : Ascii.ascii :=
  let n := Ascii.nat_of_ascii c in
  if (Nat.leb 65 n && Nat.leb n 90)%bool then Ascii.ascii_of_nat (n + 32) else c.

Fixpoint lower (s : string) : string :=
  match s with
  | EmptyString => EmptyString
  | String c s' => String (lower_ascii c) (lower s')
  end.

(** [str(n)] for an [int] *)
Definition str_of_int (n : Z) : string := pretty n.

(** [x if x else None] for an optional string: [None] and the empty
    string are falsy. *)
Definition nonempty (x : option string) : option string :=
  match x with
  | Some s => if String.eqb s "" then None else Some s
  | None => None
  end.

End Py.

(** ** [src/core/proxy_manager.py] *)

Module ProxyManager.

(** [@dataclass ProxyStatus] *)
Record ProxyStatus := {
  url : string;
  is_healthy : bool;
  last_check : Q;
  response_time_ms : Q;
  fail_count : Z;
  success_count : Z;
  last_error : option string
}.

(** [ProxyStatus(url=proxy)] with the dataclass defaults. *)
Definition new_status (u : string) : ProxyStatus :=
  {| url := u; is_healthy := true; last_check := 0%Q; response_time_ms := 0%Q;
     fail_count := 0; success_count := 0; last_error := None |}.

(** [@dataclass ProxyPool]; [proxies] keeps the dict's insertion order,
    which [healthy_proxies] exposes. *)
Record ProxyPool := {
  proxies : list (string * ProxyStatus);
  current_index : Z;
  health_check_url : string;
  health_check_interval : Q;
  max_fail_count : Z;
  timeout : Q
}.

Definition set_proxies (ps : list (string * ProxyStatus)) (p : ProxyPool) : ProxyPool :=
  {| proxies := ps; current_index := current_index p;
     health_check_url := health_check_url p;
     health_check_interval := health_check_interval p;
     max_fail_count := max_fail_count p; timeout := timeout p |}.

Definition set_current_index (i : Z) (p : ProxyPool) : ProxyPool :=
  {| proxies := proxies p; current_index := i;
     health_check_url := health_check_url p;
     health_check_interval := health_check_interval p;
     max_fail_count := max_fail_count p; timeout := timeout p |}.

(** [ProxyManager.__init__] *)
Definition init (proxy_list : list string) (check_url : string)
    (interval : Q) (max_fail : Z) (tmo : Q) : ProxyPool :=
  {| proxies := fold_left (fun d p => Py.dict_set p (new_status p) d) proxy_list [];
     current_index := 0;
     health_check_url := check_url;
     health_check_interval := interval;
     max_fail_count := max_fail;
     timeout := tmo |}.

(** [ProxyManager(proxies)] with the default keyword arguments. *)
Definition init_default (proxy_list : list string) : ProxyPool :=
  init proxy_list "https://httpbin.org/ip" 300%Q 3 10%Q.

(** [healthy_proxies] *)
Definition healthy_proxies (p : ProxyPool) : list string :=
  map fst (filter (fun kv => is_healthy (snd kv) = true) (proxies p)).

Definition set_healthy (b : bool) (s : ProxyStatus) : ProxyStatus :=
  {| url := url s; is_healthy := b; last_check := last_check s;
     response_time_ms := response_time_ms s; fail_count := fail_count s;
     success_count := success_count s; last_error := last_error s |}.

(** The recovery loop of [get_next_proxy]: a proxy is put back into service
    only while its failure streak is below twice the threshold. *)
Definition recover (max_fail : Z) (s : ProxyStatus) : ProxyStatus :=
  if fail_count s <? max_fail * 2 then set_healthy true s else s.

Definition recover_all (p : ProxyPool) : ProxyPool :=
  set_proxies (map (fun kv => (fst kv, recover (max_fail_count p) (snd kv))) (proxies p)) p.

(** [get_next_proxy]: the returned pair is the result and the pool after
    the call. *)
Definition get_next_proxy (p : ProxyPool) : option string * ProxyPool :=
  let p1 := match healthy_proxies p with
            | [] => recover_all p
            | _ :: _ => p
            end in
  match healthy_proxies p1 with
  | [] => (None, p1)
  | healthy =>
      let i := (current_index p1 + 1) mod Z.of_nat (length healthy) in
      (healthy !! Z.to_nat i, set_current_index i p1)
  end.

(** [mark_success] *)
Definition mark_success (proxy_url : string) (p : ProxyPool) : ProxyPool :=
  if Py.dict_mem proxy_url (proxies p) then
    set_proxies
      (Py.dict_update proxy_url
         (fun s => {| url := url s; is_healthy := true; last_check := last_check s;
                      response_time_ms := response_time_ms s; fail_count := 0;
                      success_count := success_count s + 1; last_error := None |})
         (proxies p)) p
  else p.

(** [mark_failure] *)
Definition mark_failure (proxy_url : string) (error : option string) (p : ProxyPool) : ProxyPool :=
  if Py.dict_mem proxy_url (proxies p) then
    set_proxies
      (Py.dict_update proxy_url
         (fun s =>
            let fc := fail_count s + 1 in
            {| url := url s;
               is_healthy := if max_fail_count p <=? fc then false else is_healthy s;
               last_check := last_check s;
               response_time_ms := response_time_ms s; fail_count := fc;
               success_count := success_count s; last_error := error |})
         (proxies p)) p
  else p.

(** [add_proxy] *)
Definition add_proxy (proxy_url : string) (p : ProxyPool) : ProxyPool :=
  if Py.dict_mem proxy_url (proxies p) then p
  else set_proxies (Py.dict_set proxy_url (new_status proxy_url) (proxies p)) p.

(** [remove_proxy] *)
Definition remove_proxy (proxy_url : string) (p : ProxyPool) : ProxyPool :=
  set_proxies (filter (fun kv => fst kv ≠ proxy_url) (proxies p)) p.

(** [reset_all] *)
Definition reset_all (p : ProxyPool) : ProxyPool :=
  set_proxies
    (map (fun kv => (fst kv,
       let s := snd kv in
       {| url := url s; is_healthy := true; last_check := last_check s;
          response_time_ms := response_time_ms s; fail_count := 0;
          success_count := success_count s; last_error := None |})) (proxies p)) p.

(** [all_proxies] *)
Definition all_proxies (p : ProxyPool) : list ProxyStatus := map snd (proxies p).

(** The dict returned by [get_statistics]. *)
Record Statistics := {
  total : Z;
  healthy : Z;
  unhealthy : Z;
  total_successes : Z;
  total_failures : Z;
  average_response_ms : Q
}.

(** [sum(...)] over ints and over floats *)
Definition sum_int (l : list Z) : Z := fold_left Z.add l 0.
Definition sum_float (l : list Q) : Q := fold_left Qplus l 0%Q.

(** [a / b]; [None] is [ZeroDivisionError]. *)
Definition truediv (a : Q) (b : Z) : option Q :=
  if b =? 0 then None else Some (a / inject_Z b)%Q.

(** [s.response_time_ms > 0] *)
Definition measured (s : ProxyStatus) : bool := negb (Qle_bool (response_time_ms s) 0).

(** [get_statistics], over the built-in [round(x, ndigits)]. *)
Definition get_statistics (round : Q -> Z -> Q) (p : ProxyPool) : option Statistics :=
  let n_total := Z.of_nat (length (proxies p)) in
  let n_healthy := Z.of_nat (length (healthy_proxies p)) in
  let total_success := sum_int (map success_count (all_proxies p)) in
  let total_fail := sum_int (map fail_count (all_proxies p)) in
  match truediv
          (sum_float (map response_time_ms (filter (fun s => measured s = true) (all_proxies p))))
          (Z.max 1 (sum_int (map (fun _ => 1) (filter (fun s => measured s = true) (all_proxies p)))))
  with
  | None => None
  | Some avg_response =>
      Some {| total := n_total;
              healthy := n_healthy;
              unhealthy := n_total - n_healthy;
              total_successes := total_success;
              total_failures := total_fail;
              average_response_ms := round avg_response 2 |}
  end.

End ProxyManager.

(** ** [src/models/project.py]: the configuration records the core reads *)

Module Project.

Inductive SiteType := AUTO | STATIC | JAVASCRIPT | API.

Record SelectorField := {
  name : string;
  selector : string;
  selector_type : string;
  attribute : option string;
  fallback_selectors : list string;
  transform : option string
}.

Record ProxyConfig := {
  enabled : bool;
  proxies : list string;
  rotate : bool;
  health_check : bool
}.

(** [ProxyConfig()] *)
Definition default_proxy : ProxyConfig :=
  {| enabled := false; proxies := []; rotate := true; health_check := true |}.

Record RateLimitConfig := {
  min_delay : Q;
  max_delay : Q;
  max_concurrent : Z;
  adaptive : bool
}.

(** [RateLimitConfig()] *)
Definition default_rate_limit : RateLimitConfig :=
  {| min_delay := 1%Q; max_delay := 3%Q; max_concurrent := 3; adaptive := true |}.

Record LinkFollowConfig := {
  lf_enabled : bool;
  link_selectors : list string;
  max_depth : Z;
  same_domain_only : bool
}.

Record TargetConfig := {
  urls : list string;
  site_type : SiteType;
  headers : list (string * string)
}.

Record ScraperProject := {
  target : TargetConfig;
  fields : list SelectorField;
  link_follow : LinkFollowConfig;
  proxy : ProxyConfig;
  rate_limit : RateLimitConfig;
  respect_robots_txt : bool;
  detect_duplicates : bool;
  retry_count : Z;
  timeout : Q
}.

End Project.

(** ** [src/engines/base.py] and the execution model *)

Module Base.

(** [@dataclass ScrapeResult] *)
Record ScrapeResult := {
  url : string;
  success : bool;
  data : gmap string (option string);
  error : option string;
  status_code : option Z;
  elapsed_ms : Q;
  html : option string
}.

(** [@dataclass RobotsWarning] *)
Record RobotsWarning := {
  rw_url : string;
  disallowed_paths : list string;
  message : string
}.

(** The outcome of a computation: a value, or a raised exception carried
    as its [str(e)]. *)
Inductive Res (A : Type) : Type :=
  | Ok (a : A)
  | Raise (msg : string).
Global Arguments Ok {A} a.
Global Arguments Raise {A} msg.

(** What [urlparse] gives for the parts the core reads. *)
Record ParsedUrl := { scheme : string; netloc : string; path : string }.

(** Reply of the HTTP client to one [get]. *)
Inductive HttpReply :=
  | HttpRequestError (msg : string)        (* httpx.RequestError *)
  | HttpOtherError (msg : string)          (* any other exception *)
  | HttpResponse (status : Z) (reason text : string).

(** Reply of the browser to one page visit: [new_page], [goto], the settle
    wait and [content()]. [after] is an exception raised once the content
    has been read. *)
Inductive BrowserReply :=
  | BrowserFailed (msg : string)
  | BrowserPage (status : option Z) (content : string) (after : option string).

(** Everything outside the core: the standard library, httpx,
    BeautifulSoup, Playwright, the clock and the random generator.
    Replies are indexed by the number of requests made so far. *)
Class World := {
  (* urllib.parse *)
  urlparse : string -> Res ParsedUrl;
  urljoin : string -> string -> Res string;
  (* httpx *)
  http_get : nat -> string -> option string -> HttpReply;
  raise_for_status : Z -> bool;
  (* urllib.robotparser: rules are identified by the robots.txt text *)
  can_fetch : string -> string -> bool;
  (* BeautifulSoup *)
  bs_parse : string -> option string;
  bs_parse_html : string -> option string;
  select_one_value : string -> string -> option string -> option string;
  select_hrefs : string -> string -> Res (list (option string));
  (* Playwright *)
  playwright_start : nat -> option string;
  browser_launch : nat -> option string -> option string;
  enter_none_error : string;
  page_visit : nat -> string -> BrowserReply;
  query_selector_value : string -> string -> option string -> option string;
  (* str, re, hashlib *)
  strip : string -> string;
  collapse_whitespace : string -> string;
  remove_zero_width : string -> string;
  content_hash : gmap string (option string) -> string;
  (* time.time(), random.random() *)
  time_time : nat -> Q;
  random_random : nat -> Q;
  random_random_range : forall n, (0 <= random_random n)%Q /\ (random_random n < 1)%Q
}.

Inductive SleepKind := RateLimitDelay | RetryBackoff.

Inductive Level := Info | Warning | Error.

(** The texts logged by the orchestrator, by the values they interpolate. *)
Inductive LogMsg :=
  | MsgCrawlSettings (crawl_enabled : bool) (link_selectors : list string) (max_pages : Z)
  | MsgStartingCrawl (max_pages : Z) (engine_type : string)
  | MsgFollowing (link_selectors : list string)
  | MsgStartingScrape (n : nat) (engine_type : string)
  | MsgNoLinkSelectors
  | MsgStoppedByUser
  | MsgCrawling (url : string)
  | MsgRobotsWarning (url : string)
  | MsgFoundLinks (found added queued : nat)
  | MsgNoLinksFound
  | MsgNoHtml
  | MsgPageFound (current total : Z) (url : string) (status : option string)
                 (fields_found : gset string)
  | MsgPageNoData (current total : Z) (url : string) (status : option string)
  | MsgPageStatus (current total : Z) (url : string) (status : option string)
  | MsgExtractError (msg : string)
  | MsgCompleted (successful total : nat).

(** The signals of [ScraperOrchestrator]. *)
Inductive Signal :=
  | SigProgress (current total : Z) (result : ScrapeResult)
  | SigCompleted (results : list ScrapeResult)
  | SigError (msg : string)
  | SigLog (level : Level) (msg : LogMsg)
  | SigRobotsWarning (w : RobotsWarning)
  | SigPaused (reason : option string) (context : ScrapeResult).

(** What an engine does to the outside. *)
Inductive IOEvent :=
  | EvSleep (kind : SleepKind) (secs : Q)
  | EvRobotsGet (url : string) (reply : HttpReply)
  | EvHttpGet (url : string) (proxy : option string) (reply : HttpReply)
  | EvPlaywrightStart (reply : option string)
  | EvBrowserLaunch (proxy : option string) (reply : option string)
  | EvVisit (url : string) (reply : BrowserReply)   (* one page block of an attempt *)
  | EvCallback (current total : Z) (result : ScrapeResult).

(** What a run of the orchestrator does, in order: the events of its
    engine and its own signals. *)
Inductive Event :=
  | EvEngine (e : IOEvent)
  | EvSignal (s : Signal).

(** Counters of the calls made to the world so far. *)
Record IO := { requests : nat; clock_reads : nat; random_draws : nat }.

Definition io0 : IO := {| requests := 0; clock_reads := 0; random_draws := 0 |}.

(** A computation over a state [S] emitting events of type [E]: it reads
    the counters and the state and gives an outcome, the new counters and
    state, and the events emitted. State changes made before an exception
    is raised are kept. *)
Definition Comp (E S A : Type) : Type := IO * S -> Res A * (IO * S) * list E.

(** Engine computations. *)
Abbreviation M := (Comp IOEvent).

Definition ret {E S A} (a : A) : Comp E S A := fun s => (Ok a, s, []).

Definition raise {E S A} (msg : string) : Comp E S A := fun s => (Raise msg, s, []).

Definition bind {E S A B} (m : Comp E S A) (k : A -> Comp E S B) : Comp E S B :=
  fun s =>
    match m s with
    | (Ok a, s1, ev1) =>
        match k a s1 with
        | (r, s2, ev2) => (r, s2, ev1 ++ ev2)
        end
    | (Raise msg, s1, ev1) => (Raise msg, s1, ev1)
    end.

(** A task awaited with its exception captured as a value. *)
Definition capture {E S A} (m : Comp E S A) : Comp E S (Res A) :=
  fun s => match m s with (r, s1, ev) => (Ok r, s1, ev) end.

Definition get {E S} : Comp E S S := fun s => (Ok (snd s), s, []).

Definition modify {E S} (f : S -> S) : Comp E S unit :=
  fun s => (Ok tt, (fst s, f (snd s)), []).

Definition emit {E S} (e : E) : Comp E S unit := fun s => (Ok tt, s, [e]).

(** Use a pure fallible value. *)
Definition of_res {E S A} (r : Res A) : Comp E S A := fun s => (r, s, []).

(** Run an engine computation on the engine object held in an attribute
    of the state; [None] from [proj] is the attribute being unset. *)
Definition zoom {S T A} (proj : T -> option S) (inj : S -> T -> T) (m : M S A)
    : Comp Event T A :=
  fun s =>
    match proj (snd s) with
    | Some x =>
        match m (fst s, x) with
        | (r, (io, x'), ev) => (r, (io, inj x' (snd s)), map EvEngine ev)
        end
    | None => (Raise "'NoneType' object has no attribute", s, [])
    end.

Declare Scope m_scope.
Delimit Scope m_scope with M.
Notation "'let*' x ':=' m 'in' k" := (bind m (fun x => k))
  (at level 10, x name, m at level 100, k at level 200) : m_scope.
Notation "m '>>' k" := (bind m (fun _ => k))
  (at level 100, k at level 200, right associativity) : m_scope.

(** [if c: m] *)
Definition when {E S} (c : bool) (m : Comp E S unit) : Comp E S unit :=
  if c then m else ret tt.

Section Primitives.
Context `{W : World} {S : Type}.

Definition bump_requests (io : IO) : IO :=
  {| requests := Datatypes.S (requests io); clock_reads := clock_reads io;
     random_draws := random_draws io |}.

Definition bump_clock (io : IO) : IO :=
  {| requests := requests io; clock_reads := Datatypes.S (clock_reads io);
     random_draws := random_draws io |}.

Definition bump_random (io : IO) : IO :=
  {| requests := requests io; clock_reads := clock_reads io;
     random_draws := Datatypes.S (random_draws io) |}.

(** [time.time()] *)
Definition now : M S Q :=
  fun s => (Ok (time_time (clock_reads (fst s))), (bump_clock (fst s), snd s), []).

(** [random.uniform(a, b)], that is [a + (b - a) * random()] *)
Definition random_uniform (a b : Q) : M S Q :=
  fun s => (Ok (a + (b - a) * random_random (random_draws (fst s)))%Q,
            (bump_random (fst s), snd s), []).

(** [await asyncio.sleep(secs)] *)
Definition sleep (kind : SleepKind) (secs : Q) : M S unit := emit (EvSleep kind secs).

(** [await client.get(url)] for a page *)
Definition get_page (url : string) (proxy : option string) : M S HttpReply :=
  fun s =>
    let reply := http_get (requests (fst s)) url proxy in
    (Ok reply, (bump_requests (fst s), snd s), [EvHttpGet url proxy reply]).

(** [await client.get(robots_url)] *)
Definition get_robots (url : string) : M S HttpReply :=
  fun s =>
    let reply := http_get (requests (fst s)) url None in
    (Ok reply, (bump_requests (fst s), snd s), [EvRobotsGet url reply]).

(** [await async_playwright().start()]; [Some msg] is the exception. *)
Definition start_playwright : M S unit :=
  fun s =>
    let reply := playwright_start (requests (fst s)) in
    (match reply with Some msg => Raise msg | None => Ok tt end,
     (bump_requests (fst s), snd s), [EvPlaywrightStart reply]).

(** Launch the browser, create the context and apply stealth. *)
Definition launch_browser (proxy : option string) : M S unit :=
  fun s =>
    let reply := browser_launch (requests (fst s)) proxy in
    (match reply with Some msg => Raise msg | None => Ok tt end,
     (bump_requests (fst s), snd s), [EvBrowserLaunch proxy reply]).

(** One run of the page block of an attempt: enter the semaphore, open a
    page, navigate, settle and read the content. Without a semaphore
    ([ready] false: the browser was never brought up) the block fails on
    entry and the browser is not reached. *)
Definition visit (ready : bool) (url : string) : M S BrowserReply :=
  fun s =>
    if ready then
      let reply := page_visit (requests (fst s)) url in
      (Ok reply, (bump_requests (fst s), snd s), [EvVisit url reply])
    else
      (Ok (BrowserFailed enter_none_error), s,
       [EvVisit url (BrowserFailed enter_none_error)]).
End Primitives.

Definition signal {S} (sg : Signal) : Comp Event S unit := emit (EvSignal sg).

Definition log {S} (level : Level) (msg : LogMsg) : Comp Event S unit :=
  signal (SigLog level msg).

(** The first exponent [n] for which [float * (2 ** n)] raises: the
    product converts the integer to a float first, and [2 ** 1024] is
    beyond the largest double. *)
Definition float_exponent_limit : nat := 1024.

(** [str(e)] of the [OverflowError] raised by that conversion. *)
Definition overflow_error : string := "int too large to convert to float".

(** The delay of [_wait_rate_limit] while backing off: the source's
    [min(max_delay * (2 ** consecutive_errors), 60.0)], which raises
    [OverflowError] once the power no longer converts to a float. *)
Definition backoff_delay (rl : Project.RateLimitConfig) (errors : nat) : Res Q :=
  if (float_exponent_limit <=? errors)%nat then Raise overflow_error
  else Ok (Qmin (Project.max_delay rl * inject_Z (2 ^ Z.of_nat errors)) 60).

(** [delay > 0] *)
Definition positive (d : Q) : bool := negb (Qle_bool d 0).

(** [_sanitize_value], identical in both engines. *)
Definition _sanitize_value `{W : World} (value : string) : string :=
  if String.eqb value "" then value else
  let value := if Py.startswith "mailto:" (Py.lower value) then Py.drop_chars 7 value else value in
  let value := if Py.startswith "tel:" (Py.lower value) then Py.drop_chars 4 value else value in
  if Py.startswith "javascript:" (Py.lower value) then ""
  else remove_zero_width (strip (collapse_whitespace value)).

(** [ScrapeResult(url, success=False, data={}, error=error)] *)
Definition failed_result (u : string) (err : option string) (elapsed : Q)
    (page : option string) : ScrapeResult :=
  {| url := u; success := false; data := ∅; error := err; status_code := None;
     elapsed_ms := elapsed; html := page |}.

(** [scrape_batch], the same text in both engines, over the [scrape] of
    the engine. *)

(** [progress_callback(current, total, result)]; [Some msg] is an
    exception raised by the callback. *)
Definition Callback := Z -> Z -> ScrapeResult -> option string.

Section Batch.
Context {S : Type}.
Variable scrape : string -> list Project.SelectorField -> M S ScrapeResult.

(** The inner coroutine [scrape_with_progress(url, index)]. *)
Definition scrape_with_progress (urls : list string) (fields : list Project.SelectorField)
    (progress_callback : option Callback) (u : string) (index : nat) : M S ScrapeResult :=
  (let* result := scrape u fields in
   match progress_callback with
   | Some cb =>
       let current := Z.of_nat index + 1 in
       let total := Z.of_nat (length urls) in
       emit (EvCallback current total result) >>
       match cb current total result with
       | Some msg => raise msg
       | None => ret tt
       end
   | None => ret tt
   end >>
   ret result)%M.

(** [asyncio.gather] with [return_exceptions=True]: every task runs and
    its value or exception is collected at its own position. The tasks
    are run one after the other, in list order. *)
Fixpoint gather {A} (tasks : list (M S A)) : M S (list (Res A)) :=
  match tasks with
  | [] => ret []
  | t :: ts =>
      (let* r := capture t in
       let* rs := gather ts in
       ret (r :: rs))%M
  end.

(** The conversion loop over [enumerate(results)]. *)
Fixpoint convert (urls : list string) (i : nat) (results : list (Res ScrapeResult))
    : M S (list ScrapeResult) :=
  match results with
  | [] => ret []
  | Raise msg :: rest =>
      match urls !! i with
      | Some u =>
          (let* final := convert urls (Datatypes.S i) rest in
           ret (failed_result u (Some msg) 0 None :: final))%M
      | None => raise "list index out of range"
      end
  | Ok r :: rest =>
      (let* final := convert urls (Datatypes.S i) rest in
       ret (r :: final))%M
  end.

(** The tasks created by [scrape_batch], in the order of [urls]. *)
Definition batch_tasks (urls : list string) (fields : list Project.SelectorField)
    (progress_callback : option Callback) : list (M S ScrapeResult) :=
  imap (fun i u => scrape_with_progress urls fields progress_callback u i) urls.

(** [scrape_batch] *)
Definition scrape_batch_with (urls : list string) (fields : list Project.SelectorField)
    (progress_callback : option Callback) : M S (list ScrapeResult) :=
  (let* results := gather (batch_tasks urls fields progress_callback) in
   convert urls 0 results)%M.
End Batch.


(** Run a computation, recording its events as [f] names them. *)
Definition relabel {E E' S A} (f : E -> E') (m : Comp E S A) : Comp E' S A :=
  fun s => match m s with (r, s', ev) => (r, s', map f ev) end.

End Base.

(** ** [src/engines/static_engine.py] *)

Module StaticEngine.
Import Base.
Open Scope m_scope.

(** The attributes set by [__init__]: the configuration, then the state. *)
Record StaticEngine := {
  rate_limit : Project.RateLimitConfig;
  proxy : Project.ProxyConfig;
  timeout : Q;
  custom_headers : list (string * string);
  retry_count : Z;
  save_html_on_error : bool;
  respect_robots : bool;
  detect_duplicates : bool;
  _client : bool;
  _robots_cache : gmap string string;
  _seen_hashes : gset string;
  _consecutive_errors : nat;
  _proxy_index : Z;
  _failed_proxies : gset string
}.

(** [StaticEngine(...)] *)
Definition init (rl : Project.RateLimitConfig) (px : Project.ProxyConfig) (tmo : Q)
    (hdrs : list (string * string)) (retries : Z) (save_html respect dedup : bool)
    : StaticEngine :=
  {| rate_limit := rl; proxy := px; timeout := tmo; custom_headers := hdrs;
     retry_count := retries; save_html_on_error := save_html;
     respect_robots := respect; detect_duplicates := dedup;
     _client := false; _robots_cache := ∅; _seen_hashes := ∅;
     _consecutive_errors := 0%nat; _proxy_index := 0; _failed_proxies := ∅ |}.

Definition with_state (e : StaticEngine) (client : bool) (cache : gmap string string)
    (seen : gset string) (errors : nat) (index : Z) (failed : gset string) : StaticEngine :=
  {| rate_limit := rate_limit e; proxy := proxy e; timeout := timeout e;
     custom_headers := custom_headers e; retry_count := retry_count e;
     save_html_on_error := save_html_on_error e; respect_robots := respect_robots e;
     detect_duplicates := detect_duplicates e;
     _client := client; _robots_cache := cache; _seen_hashes := seen;
     _consecutive_errors := errors; _proxy_index := index; _failed_proxies := failed |}.

Definition set_client (b : bool) (e : StaticEngine) :=
  with_state e b (_robots_cache e) (_seen_hashes e) (_consecutive_errors e)
    (_proxy_index e) (_failed_proxies e).
Definition set_robots_cache (c : gmap string string) (e : StaticEngine) :=
  with_state e (_client e) c (_seen_hashes e) (_consecutive_errors e)
    (_proxy_index e) (_failed_proxies e).
Definition set_seen_hashes (h : gset string) (e : StaticEngine) :=
  with_state e (_client e) (_robots_cache e) h (_consecutive_errors e)
    (_proxy_index e) (_failed_proxies e).
Definition set_consecutive_errors (n : nat) (e : StaticEngine) :=
  with_state e (_client e) (_robots_cache e) (_seen_hashes e) n
    (_proxy_index e) (_failed_proxies e).
Definition set_proxy_index (i : Z) (e : StaticEngine) :=
  with_state e (_client e) (_robots_cache e) (_seen_hashes e) (_consecutive_errors e)
    i (_failed_proxies e).
Definition set_failed_proxies (f : gset string) (e : StaticEngine) :=
  with_state e (_client e) (_robots_cache e) (_seen_hashes e) (_consecutive_errors e)
    (_proxy_index e) f.

Section Engine.
Context `{W : World}.

(** [_get_client]: the client and the semaphore are created on first use. *)
Definition _get_client : M StaticEngine unit :=
  modify (set_client true).

(** [_get_proxy] *)
Definition _get_proxy : M StaticEngine (option string) :=
  let* e := get in
  if negb (Project.enabled (proxy e)) || bool_decide (Project.proxies (proxy e) = [])
  then ret None
  else
    let available :=
      filter (fun p => p ∉ _failed_proxies e) (Project.proxies (proxy e)) in
    let* available :=
      match available with
      | [] => modify (set_failed_proxies ∅) >> ret (Project.proxies (proxy e))
      | _ :: _ => ret available
      end in
    if Project.rotate (proxy e) then
      let i := (_proxy_index e + 1) mod Z.of_nat (length available) in
      modify (set_proxy_index i) >> ret (available !! Z.to_nat i)
    else ret (available !! 0%nat).

(** [_wait_rate_limit] *)
Definition _wait_rate_limit : M StaticEngine unit :=
  let* e := get in
  let* delay :=
    if Project.adaptive (rate_limit e) && (0 <? _consecutive_errors e)%nat
    then of_res (backoff_delay (rate_limit e) (_consecutive_errors e))
    else random_uniform (Project.min_delay (rate_limit e))
                        (Project.max_delay (rate_limit e)) in
  when (positive delay) (sleep RateLimitDelay delay).

(** [_extract_field]: the selectors are tried in order; XPath selectors
    are skipped by this engine. *)
Fixpoint extract_first (page : string) (field : Project.SelectorField)
    (selectors : list string) : option string :=
  match selectors with
  | [] => None
  | sel :: rest =>
      if String.eqb (Project.selector_type field) "xpath"
      then extract_first page field rest
      else
        match select_one_value page sel (Project.attribute field) with
        | Some value =>
            if String.eqb value "" then extract_first page field rest
            else Some (_sanitize_value value)
        | None => extract_first page field rest
        end
  end.

Definition _extract_field (page : string) (field : Project.SelectorField) : option string :=
  extract_first page field (Project.selector field :: Project.fallback_selectors field).

(** The field loop of [scrape]: [data[field.name] = value]. *)
Definition extract_data (page : string) (fields : list Project.SelectorField)
    : gmap string (option string) :=
  fold_left (fun d f => <[Project.name f := _extract_field page f]> d) fields ∅.

(** [_compute_hash] *)
Definition _compute_hash (d : gmap string (option string)) : string := content_hash d.

(** [check_robots] *)
Definition check_robots (u : string) : M StaticEngine (option RobotsWarning) :=
  let* e := get in
  if negb (respect_robots e) then ret None else
  let* parsed := of_res (urlparse u) in
  let base_url := (scheme parsed ++ "://" ++ netloc parsed)%string in
  let* robots_url := of_res (urljoin base_url "/robots.txt") in
  let* fetched :=
    match _robots_cache e !! base_url with
    | Some _ => ret true
    | None =>
        _get_client >>
        let* reply := get_robots robots_url in
        match reply with
        | HttpResponse _ _ text =>
            let* e1 := get in
            modify (set_robots_cache (<[base_url := text]> (_robots_cache e1))) >> ret true
        | HttpRequestError _ | HttpOtherError _ => ret false
        end
    end in
  if negb fetched then ret None else
  let* e2 := get in
  match _robots_cache e2 !! base_url with
  | Some rp =>
      if negb (can_fetch rp u) then
        ret (Some {| rw_url := u; disallowed_paths := [path parsed];
                     message := ("URL path '" ++ path parsed ++
                                 "' is disallowed by robots.txt")%string |})
      else ret None
  | None => ret None
  end.

Definition elapsed_since (start_time : Q) : M StaticEngine Q :=
  let* t := now in ret ((t - start_time) * 1000)%Q.

(** The body of the success branch of one attempt, from
    [html = response.text] on. *)
Definition on_page (u : string) (fields : list Project.SelectorField) (start_time : Q)
    (status : Z) (text : string) : M StaticEngine ScrapeResult :=
  let d := extract_data text fields in
  let* e := get in
  let data_hash := _compute_hash d in
  if detect_duplicates e && bool_decide (data_hash ∈ _seen_hashes e) then
    let* el := elapsed_since start_time in
    ret {| url := u; success := true; data := d;
           error := Some "Duplicate detected (skipped)";
           status_code := Some status; elapsed_ms := el; html := Some text |}
  else
    when (detect_duplicates e)
         (modify (fun e => set_seen_hashes ({[data_hash]} ∪ _seen_hashes e) e)) >>
    modify (set_consecutive_errors 0%nat) >>
    let* el := elapsed_since start_time in
    ret {| url := u; success := true; data := d; error := None;
           status_code := Some status; elapsed_ms := el; html := Some text |}.

(** What the [except] clauses do, then the wait before the next attempt. *)
Definition on_failure (attempt : nat) (failed_proxy : option string) : M StaticEngine unit :=
  modify (fun e => set_consecutive_errors (S (_consecutive_errors e)) e) >>
  match failed_proxy with
  | Some p => modify (fun e => set_failed_proxies ({[p]} ∪ _failed_proxies e) e)
  | None => ret tt
  end >>
  let* e := get in
  when (Z.of_nat attempt <? retry_count e)
       (sleep RetryBackoff (inject_Z (2 ^ Z.of_nat attempt))).

(** The retry loop of [scrape], over the remaining values of [attempt]. *)
Fixpoint retry_loop (u : string) (fields : list Project.SelectorField) (start_time : Q)
    (attempts : list nat) (last_error page : option string) : M StaticEngine ScrapeResult :=
  match attempts with
  | [] =>
      let* el := elapsed_since start_time in
      ret (failed_result u last_error el page)
  | attempt :: rest =>
      let* proxy := _get_proxy in
      (* [if proxy:] guards both the proxied transport and the failed mark *)
      let px := Py.nonempty proxy in
      let* reply := get_page u px in
      match reply with
      | HttpRequestError msg =>
          on_failure attempt px >>
          retry_loop u fields start_time rest (Some ("Request failed: " ++ msg)%string) page
      | HttpOtherError msg =>
          on_failure attempt None >>
          retry_loop u fields start_time rest (Some ("Unexpected error: " ++ msg)%string) page
      | HttpResponse status reason text =>
          if raise_for_status status then
            on_failure attempt px >>
            retry_loop u fields start_time rest
              (Some ("HTTP " ++ Py.str_of_int status ++ ": " ++ reason)%string) page
          else
            match bs_parse text with
            | Some msg =>
                on_failure attempt None >>
                retry_loop u fields start_time rest
                  (Some ("Unexpected error: " ++ msg)%string) (Some text)
            | None => on_page u fields start_time status text
            end
      end
  end.

(** [scrape] *)
Definition scrape (u : string) (fields : list Project.SelectorField)
    : M StaticEngine ScrapeResult :=
  _get_client >>
  let* start_time := now in
  let* robots_warning := check_robots u in
  match robots_warning with
  | Some w =>
      let* el := elapsed_since start_time in
      ret (failed_result u (Some ("Blocked by robots.txt: " ++ message w)%string) el None)
  | None =>
      _wait_rate_limit >>
      let* e := get in
      retry_loop u fields start_time (Py.range (retry_count e + 1)) None None
  end.

(** [scrape_batch] *)
Definition scrape_batch (urls : list string) (fields : list Project.SelectorField)
    (progress_callback : option Callback) : M StaticEngine (list ScrapeResult) :=
  scrape_batch_with scrape urls fields progress_callback.

End Engine.
End StaticEngine.

(** ** [src/engines/js_engine.py] *)

Module PlaywrightEngine.
Import Base.
Open Scope m_scope.

(** The attributes set by [__init__]. [_semaphore] stands for the browser,
    the context and the semaphore, which [_init_browser] creates together
    as its last steps. *)
Record PlaywrightEngine := {
  rate_limit : Project.RateLimitConfig;
  proxy : Project.ProxyConfig;
  timeout : Q;
  custom_headers : list (string * string);
  retry_count : Z;
  save_html_on_error : bool;
  respect_robots : bool;
  detect_duplicates : bool;
  stealth_mode : bool;
  headless : bool;
  wait_for : string;
  wait_timeout : Q;
  _playwright : bool;
  _semaphore : bool;
  _robots_cache : gmap string bool;
  _seen_hashes : gset string;
  _consecutive_errors : nat;
  _proxy_index : Z;
  _failed_proxies : gset string
}.

(** [PlaywrightEngine(...)] as the orchestrator builds it. *)
Definition init (rl : Project.RateLimitConfig) (px : Project.ProxyConfig) (tmo : Q)
    (hdrs : list (string * string)) (retries : Z) (save_html respect dedup : bool)
    : PlaywrightEngine :=
  {| rate_limit := rl; proxy := px; timeout := tmo; custom_headers := hdrs;
     retry_count := retries; save_html_on_error := save_html;
     respect_robots := respect; detect_duplicates := dedup;
     stealth_mode := true; headless := true; wait_for := "networkidle";
     wait_timeout := 10%Q;
     _playwright := false; _semaphore := false; _robots_cache := ∅;
     _seen_hashes := ∅; _consecutive_errors := 0%nat; _proxy_index := 0;
     _failed_proxies := ∅ |}.

Definition with_state (e : PlaywrightEngine) (pw sem : bool) (cache : gmap string bool)
    (seen : gset string) (errors : nat) (index : Z) (failed : gset string)
    : PlaywrightEngine :=
  {| rate_limit := rate_limit e; proxy := proxy e; timeout := timeout e;
     custom_headers := custom_headers e; retry_count := retry_count e;
     save_html_on_error := save_html_on_error e; respect_robots := respect_robots e;
     detect_duplicates := detect_duplicates e; stealth_mode := stealth_mode e;
     headless := headless e; wait_for := wait_for e; wait_timeout := wait_timeout e;
     _playwright := pw; _semaphore := sem; _robots_cache := cache;
     _seen_hashes := seen; _consecutive_errors := errors; _proxy_index := index;
     _failed_proxies := failed |}.

Definition set_playwright (b : bool) (e : PlaywrightEngine) :=
  with_state e b (_semaphore e) (_robots_cache e) (_seen_hashes e)
    (_consecutive_errors e) (_proxy_index e) (_failed_proxies e).
Definition set_semaphore (b : bool) (e : PlaywrightEngine) :=
  with_state e (_playwright e) b (_robots_cache e) (_seen_hashes e)
    (_consecutive_errors e) (_proxy_index e) (_failed_proxies e).
Definition set_robots_cache (c : gmap string bool) (e : PlaywrightEngine) :=
  with_state e (_playwright e) (_semaphore e) c (_seen_hashes e)
    (_consecutive_errors e) (_proxy_index e) (_failed_proxies e).
Definition set_seen_hashes (h : gset string) (e : PlaywrightEngine) :=
  with_state e (_playwright e) (_semaphore e) (_robots_cache e) h
    (_consecutive_errors e) (_proxy_index e) (_failed_proxies e).
Definition set_consecutive_errors (n : nat) (e : PlaywrightEngine) :=
  with_state e (_playwright e) (_semaphore e) (_robots_cache e) (_seen_hashes e)
    n (_proxy_index e) (_failed_proxies e).
Definition set_proxy_index (i : Z) (e : PlaywrightEngine) :=
  with_state e (_playwright e) (_semaphore e) (_robots_cache e) (_seen_hashes e)
    (_consecutive_errors e) i (_failed_proxies e).
Definition set_failed_proxies (f : gset string) (e : PlaywrightEngine) :=
  with_state e (_playwright e) (_semaphore e) (_robots_cache e) (_seen_hashes e)
    (_consecutive_errors e) (_proxy_index e) f.

Section Engine.
Context `{W : World}.

(** [_get_proxy] *)
Definition _get_proxy : M PlaywrightEngine (option string) :=
  let* e := get in
  if negb (Project.enabled (proxy e)) || bool_decide (Project.proxies (proxy e) = [])
  then ret None
  else
    let available :=
      filter (fun p => p ∉ _failed_proxies e) (Project.proxies (proxy e)) in
    let* available :=
      match available with
      | [] => modify (set_failed_proxies ∅) >> ret (Project.proxies (proxy e))
      | _ :: _ => ret available
      end in
    if Project.rotate (proxy e) then
      let i := (_proxy_index e + 1) mod Z.of_nat (length available) in
      modify (set_proxy_index i) >> ret (available !! Z.to_nat i)
    else ret (available !! 0%nat).

(** [_init_browser] *)
Definition _init_browser : M PlaywrightEngine unit :=
  let* e := get in
  if _playwright e then ret tt else
  start_playwright >>
  modify (set_playwright true) >>
  let* proxy := _get_proxy in
  launch_browser (Py.nonempty proxy) >>
  modify (set_semaphore true).

(** [_wait_rate_limit] *)
Definition _wait_rate_limit : M PlaywrightEngine unit :=
  let* e := get in
  let* delay :=
    if Project.adaptive (rate_limit e) && (0 <? _consecutive_errors e)%nat
    then of_res (backoff_delay (rate_limit e) (_consecutive_errors e))
    else random_uniform (Project.min_delay (rate_limit e))
                        (Project.max_delay (rate_limit e)) in
  when (positive delay) (sleep RateLimitDelay delay).

(** [_extract_field] *)
Fixpoint extract_first (page : string) (field : Project.SelectorField)
    (selectors : list string) : option string :=
  match selectors with
  | [] => None
  | sel :: rest =>
      let query :=
        if String.eqb (Project.selector_type field) "xpath"
        then ("xpath=" ++ sel)%string else sel in
      match query_selector_value page query (Project.attribute field) with
      | Some value =>
          if String.eqb value "" then extract_first page field rest
          else Some (_sanitize_value (strip value))
      | None => extract_first page field rest
      end
  end.

Definition _extract_field (page : string) (field : Project.SelectorField) : option string :=
  extract_first page field (Project.selector field :: Project.fallback_selectors field).

Definition extract_data (page : string) (fields : list Project.SelectorField)
    : gmap string (option string) :=
  fold_left (fun d f => <[Project.name f := _extract_field page f]> d) fields ∅.

(** [_compute_hash] *)
Definition _compute_hash (d : gmap string (option string)) : string := content_hash d.

(** [check_robots]: nothing is fetched; an origin is recorded as checked
    and a warning is given only for an origin recorded as restricted. *)
Definition check_robots (u : string) : M PlaywrightEngine (option RobotsWarning) :=
  let* e := get in
  if negb (respect_robots e) then ret None else
  let* parsed := of_res (urlparse u) in
  let base_url := (scheme parsed ++ "://" ++ netloc parsed)%string in
  match _robots_cache e !! base_url with
  | Some allowed =>
      if negb allowed then
        ret (Some {| rw_url := u; disallowed_paths := [path parsed];
                     message := "Path may be restricted by robots.txt" |})
      else ret None
  | None =>
      modify (set_robots_cache (<[base_url := true]> (_robots_cache e))) >> ret None
  end.

Definition elapsed_since (start_time : Q) : M PlaywrightEngine Q :=
  let* t := now in ret ((t - start_time) * 1000)%Q.

(** One attempt from the field loop on, once [html = await page.content()]
    has been read. *)
Definition on_page (u : string) (fields : list Project.SelectorField) (start_time : Q)
    (status : option Z) (content : string) : M PlaywrightEngine ScrapeResult :=
  let d := extract_data content fields in
  let* e := get in
  let data_hash := _compute_hash d in
  if detect_duplicates e && bool_decide (data_hash ∈ _seen_hashes e) then
    let* el := elapsed_since start_time in
    ret {| url := u; success := true; data := d;
           error := Some "Duplicate detected (skipped)";
           status_code := status; elapsed_ms := el; html := None |}
  else
    when (detect_duplicates e)
         (modify (fun e => set_seen_hashes ({[data_hash]} ∪ _seen_hashes e) e)) >>
    modify (set_consecutive_errors 0%nat) >>
    let* el := elapsed_since start_time in
    ret {| url := u; success := true; data := d; error := None;
           status_code := status; elapsed_ms := el; html := None |}.

(** The [except] clause, then the wait before the next attempt. *)
Definition on_failure (attempt : nat) : M PlaywrightEngine unit :=
  modify (fun e => set_consecutive_errors (S (_consecutive_errors e)) e) >>
  let* e := get in
  when (Z.of_nat attempt <? retry_count e)
       (sleep RetryBackoff (inject_Z (2 ^ Z.of_nat attempt))).

(** The retry loop of [scrape]. *)
Fixpoint retry_loop (u : string) (fields : list Project.SelectorField) (start_time : Q)
    (attempts : list nat) (last_error page : option string)
    : M PlaywrightEngine ScrapeResult :=
  match attempts with
  | [] =>
      let* el := elapsed_since start_time in
      let* e := get in
      ret (failed_result u last_error el (if save_html_on_error e then page else None))
  | attempt :: rest =>
      let* e := get in
      let* reply := visit (_semaphore e) u in
      match reply with
      | BrowserFailed msg =>
          on_failure attempt >>
          retry_loop u fields start_time rest (Some msg) page
      | BrowserPage status content (Some msg) =>
          on_failure attempt >>
          retry_loop u fields start_time rest (Some msg) (Some content)
      | BrowserPage status content None =>
          on_page u fields start_time status content
      end
  end.

(** [scrape] *)
Definition scrape (u : string) (fields : list Project.SelectorField)
    : M PlaywrightEngine ScrapeResult :=
  _init_browser >>
  let* start_time := now in
  _wait_rate_limit >>
  let* e := get in
  retry_loop u fields start_time (Py.range (retry_count e + 1)) None None.

(** [scrape_batch] *)
Definition scrape_batch (urls : list string) (fields : list Project.SelectorField)
    (progress_callback : option Callback) : M PlaywrightEngine (list ScrapeResult) :=
  scrape_batch_with scrape urls fields progress_callback.

End Engine.
End PlaywrightEngine.


(** ** [src/core/scraper.py] *)

Module Scraper.
Import Base.
Open Scope m_scope.

Record ScraperOrchestrator := {
  project : Project.ScraperProject;
  _static_engine : option StaticEngine.StaticEngine;
  _js_engine : option PlaywrightEngine.PlaywrightEngine;
  _running : bool;
  _paused : bool;
  _stop_requested : bool
}.

(** [ScraperOrchestrator(project)] *)
Definition init (p : Project.ScraperProject) : ScraperOrchestrator :=
  {| project := p; _static_engine := None; _js_engine := None;
     _running := false; _paused := false; _stop_requested := false |}.

Definition set_static_engine (e : option StaticEngine.StaticEngine) (o : ScraperOrchestrator) :=
  {| project := project o; _static_engine := e; _js_engine := _js_engine o;
     _running := _running o; _paused := _paused o; _stop_requested := _stop_requested o |}.
Definition set_js_engine (e : option PlaywrightEngine.PlaywrightEngine) (o : ScraperOrchestrator) :=
  {| project := project o; _static_engine := _static_engine o; _js_engine := e;
     _running := _running o; _paused := _paused o; _stop_requested := _stop_requested o |}.
Definition set_running (b : bool) (o : ScraperOrchestrator) :=
  {| project := project o; _static_engine := _static_engine o; _js_engine := _js_engine o;
     _running := b; _paused := _paused o; _stop_requested := _stop_requested o |}.
Definition set_paused (b : bool) (o : ScraperOrchestrator) :=
  {| project := project o; _static_engine := _static_engine o; _js_engine := _js_engine o;
     _running := _running o; _paused := b; _stop_requested := _stop_requested o |}.
Definition set_stop_requested (b : bool) (o : ScraperOrchestrator) :=
  {| project := project o; _static_engine := _static_engine o; _js_engine := _js_engine o;
     _running := _running o; _paused := _paused o; _stop_requested := b |}.

(** The control surface called from outside the loop. *)
Definition resume (o : ScraperOrchestrator) : ScraperOrchestrator := set_paused false o.

Definition skip_current (o : ScraperOrchestrator) : ScraperOrchestrator := set_paused false o.

Definition stop (o : ScraperOrchestrator) : ScraperOrchestrator :=
  set_paused false (set_stop_requested true o).

Definition is_running (o : ScraperOrchestrator) : bool := _running o.
Definition is_paused (o : ScraperOrchestrator) : bool := _paused o.

(** The test of the wait loop, [while self._paused and not
    self._stop_requested]. *)
Definition still_waiting (o : ScraperOrchestrator) : bool :=
  _paused o && negb (_stop_requested o).

(** What the external caller does with the control surface. *)
Inductive UserAction := CallResume | CallSkipCurrent | CallStop.

Definition apply_action (a : UserAction) : ScraperOrchestrator -> ScraperOrchestrator :=
  match a with
  | CallResume => resume
  | CallSkipCurrent => skip_current
  | CallStop => stop
  end.

(** The external caller: the method it calls in answer to the [paused]
    signal raised for page [n], and whether it has called [stop()] by the
    time the loop tests the flag before page [n]. *)
Class User := {
  on_paused : Z -> ScrapeResult -> UserAction;
  stop_pressed : Z -> bool
}.

(** [_get_engine_type] *)
Definition _get_engine_type (o : ScraperOrchestrator) : string :=
  match Project.site_type (Project.target (project o)) with
  | Project.STATIC => "static"
  | Project.JAVASCRIPT => "js"
  | Project.API => "static"
  | Project.AUTO => "static"
  end.

(** The engine object bound to [engine] in [run]. *)
Inductive EngineRef := TheStaticEngine | TheJsEngine.

(** [_should_pause_on_error] *)
Definition _should_pause_on_error (result : ScrapeResult) : bool :=
  match error result with
  | Some e => negb (String.eqb e "") && Py.contains "HTTP 4" e
  | None => false
  end.

(** [list(dict.fromkeys(l))]: first occurrences, in order. *)
Fixpoint dedup_from (seen : gset string) (l : list string) : list string :=
  match l with
  | [] => []
  | x :: l' =>
      if bool_decide (x ∈ seen) then dedup_from seen l'
      else x :: dedup_from ({[x]} ∪ seen) l'
  end.

Definition dedup (l : list string) : list string := dedup_from ∅ l.

(** The loop adding new links: the queue, the seen set and [added]. *)
Fixpoint enqueue_new (links : list string) (queue : list string) (seen : gset string)
    (added : nat) : list string * gset string * nat :=
  match links with
  | [] => (queue, seen, added)
  | link :: rest =>
      if bool_decide (link ∈ seen) then enqueue_new rest queue seen added
      else enqueue_new rest (queue ++ [link]) ({[link]} ∪ seen) (S added)
  end.

Definition non_page_suffixes : list string :=
  [".pdf"; ".jpg"; ".png"; ".gif"; ".css"; ".js"].

(** The local variables of the [while] loop of [run]. *)
Record LoopState := {
  url_queue : list string;
  seen_urls : gset string;
  pages_scraped : Z;
  results : list ScrapeResult
}.

Section Orchestrator.
Context `{W : World} `{U : User}.

Abbreviation OM := (Comp Event ScraperOrchestrator).

(** [_get_engine] *)
Definition _get_engine : OM EngineRef :=
  let* o := get in
  let p := project o in
  if String.eqb (_get_engine_type o) "js" then
    when (bool_decide (_js_engine o = None))
      (modify (set_js_engine (Some
         (PlaywrightEngine.init (Project.rate_limit p) (Project.proxy p)
            (Project.timeout p) (Project.headers (Project.target p))
            (Project.retry_count p) true (Project.respect_robots_txt p)
            (Project.detect_duplicates p))))) >>
    ret TheJsEngine
  else
    when (bool_decide (_static_engine o = None))
      (modify (set_static_engine (Some
         (StaticEngine.init (Project.rate_limit p) (Project.proxy p)
            (Project.timeout p) (Project.headers (Project.target p))
            (Project.retry_count p) true (Project.respect_robots_txt p)
            (Project.detect_duplicates p))))) >>
    ret TheStaticEngine.

(** [engine.check_robots(url)] *)
Definition engine_check_robots (engine : EngineRef) (u : string) : OM (option RobotsWarning) :=
  match engine with
  | TheStaticEngine =>
      zoom _static_engine (fun e => set_static_engine (Some e)) (StaticEngine.check_robots u)
  | TheJsEngine =>
      zoom _js_engine (fun e => set_js_engine (Some e)) (PlaywrightEngine.check_robots u)
  end.

(** [engine.scrape(url, fields)] *)
Definition engine_scrape (engine : EngineRef) (u : string)
    (fields : list Project.SelectorField) : OM ScrapeResult :=
  match engine with
  | TheStaticEngine =>
      zoom _static_engine (fun e => set_static_engine (Some e)) (StaticEngine.scrape u fields)
  | TheJsEngine =>
      zoom _js_engine (fun e => set_js_engine (Some e)) (PlaywrightEngine.scrape u fields)
  end.

(** The [for el in soup.select(selector)] loop of [_extract_links]: the
    links gathered, and the exception that cut the loop short if any. *)
Fixpoint collect_links (base_url base_domain : string) (same_domain : bool)
    (hrefs : list (option string)) (links : list string) : list string * option string :=
  match hrefs with
  | [] => (links, None)
  | None :: rest => collect_links base_url base_domain same_domain rest links
  | Some href :: rest =>
      if String.eqb href "" then collect_links base_url base_domain same_domain rest links
      else
        match urljoin base_url href with
        | Raise msg => (links, Some msg)
        | Ok full_url =>
            if negb (Py.startswith "http://" full_url || Py.startswith "https://" full_url)
            then collect_links base_url base_domain same_domain rest links
            else
              let other_domain :=
                if same_domain then
                  match urlparse full_url with
                  | Raise msg => Raise msg
                  | Ok parsed => Ok (negb (String.eqb (netloc parsed) base_domain))
                  end
                else Ok false in
              match other_domain with
              | Raise msg => (links, Some msg)
              | Ok true => collect_links base_url base_domain same_domain rest links
              | Ok false =>
                  if Py.contains "#" full_url ||
                     existsb (fun sfx => Py.endswith sfx full_url) non_page_suffixes
                  then collect_links base_url base_domain same_domain rest links
                  else collect_links base_url base_domain same_domain rest (links ++ [full_url])
              end
        end
  end.

(** [_extract_links] *)
Definition _extract_links (page base_url sel : string) (same_domain : bool)
    : OM (list string) :=
  let '(links, exn) :=
    match bs_parse_html page with
    | Some msg => ([], Some msg)
    | None =>
        match urlparse base_url with
        | Raise msg => ([], Some msg)
        | Ok parsed =>
            match select_hrefs page sel with
            | Raise msg => ([], Some msg)
            | Ok hrefs => collect_links base_url (netloc parsed) same_domain hrefs []
            end
        end
    end in
  match exn with
  | Some msg => log Warning (MsgExtractError msg)
  | None => ret tt
  end >>
  ret links.

(** [for selector in link_selectors: all_new_links.extend(...)] *)
Fixpoint extract_all_links (page base_url : string) (selectors : list string)
    (same_domain : bool) (acc : list string) : OM (list string) :=
  match selectors with
  | [] => ret acc
  | sel :: rest =>
      let* links := _extract_links page base_url sel same_domain in
      extract_all_links page base_url rest same_domain (acc ++ links)
  end.

(** [max_pages] as [run] computes it. *)
Definition max_pages_of (p : Project.ScraperProject) : Z :=
  if Project.lf_enabled (Project.link_follow p)
  then Project.max_depth (Project.link_follow p)
  else Z.of_nat (length (Project.urls (Project.target p))).

(** The crawl block of the loop body: the links of the page that are new
    are added to the queue and to the seen set. *)
Definition discover_links (p : Project.ScraperProject) (u : string) (result : ScrapeResult)
    (ls : LoopState) : OM LoopState :=
  let link_selectors := Project.link_selectors (Project.link_follow p) in
  if Project.lf_enabled (Project.link_follow p) && negb (bool_decide (link_selectors = []))
  then
    match html result with
    | Some page =>
        if String.eqb page "" then log Warning MsgNoHtml >> ret ls
        else
          let* all_new_links :=
            extract_all_links page u link_selectors
              (Project.same_domain_only (Project.link_follow p)) [] in
          let all_new_links := dedup all_new_links in
          let '(queue, seen, added) :=
            enqueue_new all_new_links (url_queue ls) (seen_urls ls) 0 in
          match all_new_links with
          | _ :: _ =>
              log Info (MsgFoundLinks (length all_new_links) added (length queue))
          | [] => log Warning MsgNoLinksFound
          end >>
          ret {| url_queue := queue; seen_urls := seen;
                 pages_scraped := pages_scraped ls; results := results ls |}
    | None => log Warning MsgNoHtml >> ret ls
    end
  else ret ls.

(** The progress block of the loop body: the progress signal and the log
    line of the page. *)
Definition report_progress (p : Project.ScraperProject) (u : string) (result : ScrapeResult)
    (ls : LoopState) : OM unit :=
  let max_pages := max_pages_of p in
  let n_urls := Z.of_nat (length (Project.urls (Project.target p))) in
  let status := if success result then Some "OK"%string else error result in
  if Project.lf_enabled (Project.link_follow p) then
    signal (SigProgress (pages_scraped ls) max_pages result) >>
    if success result && negb (bool_decide (data result = ∅)) then
      let fields_found :=
        dom (filter (fun kv => snd kv ≠ None ∧ snd kv ≠ Some ""%string) (data result)) in
      if bool_decide (fields_found = ∅)
      then log Warning (MsgPageNoData (pages_scraped ls) max_pages u status)
      else log Info (MsgPageFound (pages_scraped ls) max_pages u status fields_found)
    else log Info (MsgPageStatus (pages_scraped ls) max_pages u status)
  else
    signal (SigProgress (pages_scraped ls) n_urls result) >>
    if success result
    then log Info (MsgPageStatus (pages_scraped ls) n_urls u (Some "OK"%string))
    else log Error (MsgPageStatus (pages_scraped ls) n_urls u (error result)).

(** The part of the loop body after [results.append(result)]. *)
Definition after_append (p : Project.ScraperProject) (u : string) (result : ScrapeResult)
    (ls : LoopState) : OM LoopState :=
  let* ls := discover_links p u result ls in
  report_progress p u result ls >>
  ret ls.

(** How one pass through the loop body ends: at its end, going back to
    the loop test, or at a [break]. *)
Inductive BodyExit :=
  | NextIteration (ls : LoopState)
  | Break (ls : LoopState).

(** The body of the [while] loop of [run], entered with [u] the head of
    the queue and [queue] its tail. The external caller acts where the
    loop can observe it: [stop()] before the flag is tested, and one of
    [resume()], [skip_current()] and [stop()] while the loop waits. *)
Definition loop_body (engine : EngineRef) (p : Project.ScraperProject)
    (u : string) (queue : list string) (ls : LoopState) : OM BodyExit :=
  when (stop_pressed (pages_scraped ls)) (modify stop) >>
  let* o := get in
  if _stop_requested o then
    log Warning MsgStoppedByUser >> ret (Break ls)
  else
    let n := pages_scraped ls + 1 in
    log Info (MsgCrawling u) >>
    let* warning := engine_check_robots engine u in
    match warning with
    | Some w =>
        signal (SigRobotsWarning w) >> log Warning (MsgRobotsWarning u)
    | None => ret tt
    end >>
    let* result := engine_scrape engine u (Project.fields p) in
    let* stopped :=
      if negb (success result) && _should_pause_on_error result then
        modify (set_paused true) >>
        signal (SigPaused (error result) result) >>
        modify (apply_action (on_paused n result)) >>
        let* o := get in
        ret (_stop_requested o)
      else ret false in
    if stopped then
      ret (Break {| url_queue := queue; seen_urls := seen_urls ls;
                    pages_scraped := n; results := results ls |})
    else
      let* ls' :=
        after_append p u result
          {| url_queue := queue; seen_urls := seen_urls ls;
             pages_scraped := n; results := results ls ++ [result] |} in
      ret (NextIteration ls').

(** The [while url_queue and pages_scraped < max_pages] loop of [run].
    [fuel] bounds the number of iterations; [None] is returned only when
    it runs out while the loop condition still holds. *)
Fixpoint run_loop (fuel : nat) (engine : EngineRef) (p : Project.ScraperProject)
    (ls : LoopState) : OM (option LoopState) :=
  match url_queue ls with
  | [] => ret (Some ls)
  | u :: queue =>
      if negb (pages_scraped ls <? max_pages_of p) then ret (Some ls) else
      match fuel with
      | O => ret None
      | S fuel' =>
          let* exit := loop_body engine p u queue ls in
          match exit with
          | Break ls' => ret (Some ls')
          | NextIteration ls' => run_loop fuel' engine p ls'
          end
      end
  end.

(** [run]; [Some results] is the list returned. *)
Definition run : OM (option (list ScrapeResult)) :=
  let* o := get in
  let p := project o in
  let target_urls := Project.urls (Project.target p) in
  if bool_decide (target_urls = []) then
    signal (SigError "No URLs to scrape") >> ret (Some [])
  else if bool_decide (Project.fields p = []) then
    signal (SigError "No fields defined") >> ret (Some [])
  else
    modify (set_running true) >>
    modify (set_stop_requested false) >>
    let engine_type := _get_engine_type o in
    let crawl_enabled := Project.lf_enabled (Project.link_follow p) in
    let link_selectors := Project.link_selectors (Project.link_follow p) in
    let max_pages := max_pages_of p in
    log Info (MsgCrawlSettings crawl_enabled link_selectors max_pages) >>
    (if crawl_enabled && negb (bool_decide (link_selectors = [])) then
       log Info (MsgStartingCrawl max_pages engine_type) >>
       log Info (MsgFollowing link_selectors)
     else
       log Info (MsgStartingScrape (length target_urls) engine_type) >>
       when (crawl_enabled && bool_decide (link_selectors = []))
         (log Warning MsgNoLinkSelectors)) >>
    let* engine := _get_engine in
    let* final :=
      run_loop (Z.to_nat max_pages) engine p
        {| url_queue := target_urls; seen_urls := list_to_set target_urls;
           pages_scraped := 0; results := [] |} in
    match final with
    | None => ret None
    | Some ls =>
        modify (set_running false) >>
        signal (SigCompleted (results ls)) >>
        log Info (MsgCompleted (length (filter (fun r => success r = true) (results ls)))
                               (length (results ls))) >>
        ret (Some (results ls))
    end.

End Orchestrator.
End Scraper.

(** ** [src/core/proxy_manager.py]: the health checks *)

Module ProxyHealth.
Import Base ProxyManager.
Open Scope m_scope.

(** [progress_callback(current, total, proxy_url, is_healthy)]; [Some msg]
    is an exception raised by the callback. *)
Definition ProgressCallback := Z -> Z -> string -> bool -> option string.

(** What a round of health checks does to the outside. *)
Inductive CheckEvent :=
  | EvCheck (e : IOEvent)
  | EvCheckProgress (current total : Z) (proxy_url : string) (is_healthy : bool).

(** The attribute assignments of a successful check. *)
Definition checked_healthy (elapsed_ms checked : Q) (s : ProxyStatus) : ProxyStatus :=
  {| url := url s; is_healthy := true; last_check := checked;
     response_time_ms := elapsed_ms; fail_count := fail_count s;
     success_count := success_count s; last_error := None |}.

(** The attribute assignments of the [except] clause. *)
Definition checked_unhealthy (checked : Q) (msg : string) (s : ProxyStatus) : ProxyStatus :=
  {| url := url s; is_healthy := false; last_check := checked;
     response_time_ms := response_time_ms s; fail_count := fail_count s;
     success_count := success_count s; last_error := Some msg |}.

Section Checks.
Context `{W : World}.

(** [str(e)] of the [HTTPStatusError] raised by [raise_for_status], from
    the status, the reason phrase and the URL requested. *)
Variable status_error_text : Z -> string -> string -> string.

(** The exception, if any, that the [try] block of [check_proxy] ends
    with on this reply, as its [str(e)]. *)
Definition check_failure (check_url : string) (reply : HttpReply) : option string :=
  match reply with
  | HttpRequestError msg => Some msg
  | HttpOtherError msg => Some msg
  | HttpResponse status reason _ =>
      if raise_for_status status then Some (status_error_text status reason check_url)
      else None
  end.

(** [check_proxy] *)
Definition check_proxy (proxy_url : string) : M ProxyPool bool :=
  let* p := get in
  match Py.dict_get proxy_url (proxies p) with
  | None => ret false
  | Some _ =>
      let* start_time := now in
      let* reply := get_page (health_check_url p) (Some proxy_url) in
      match check_failure (health_check_url p) reply with
      | None =>
          let* t := now in
          let elapsed_ms := ((t - start_time) * 1000)%Q in
          let* checked := now in
          modify (fun p => set_proxies
                    (Py.dict_update proxy_url (checked_healthy elapsed_ms checked) (proxies p)) p) >>
          ret true
      | Some msg =>
          let* checked := now in
          modify (fun p => set_proxies
                    (Py.dict_update proxy_url (checked_unhealthy checked msg) (proxies p)) p) >>
          ret false
      end
  end.

(** The loop of [check_all_proxies] over the keys that remain, [i] being
    the index of the first of them. *)
Fixpoint check_each (keys : list string) (i : nat) (total : Z)
    (progress_callback : option ProgressCallback) (results : list (string * bool))
    : Comp CheckEvent ProxyPool (list (string * bool)) :=
  match keys with
  | [] => ret results
  | proxy_url :: rest =>
      let* is_healthy := relabel EvCheck (check_proxy proxy_url) in
      let results := Py.dict_set proxy_url is_healthy results in
      match progress_callback with
      | Some cb =>
          let current := Z.of_nat i + 1 in
          emit (EvCheckProgress current total proxy_url is_healthy) >>
          match cb current total proxy_url is_healthy with
          | Some msg => raise msg
          | None => ret tt
          end
      | None => ret tt
      end >>
      check_each rest (S i) total progress_callback results
  end.

(** [check_all_proxies] *)
Definition check_all_proxies (progress_callback : option ProgressCallback)
    : Comp CheckEvent ProxyPool (list (string * bool)) :=
  let* p := get in
  check_each (map fst (proxies p)) 0 (Z.of_nat (length (proxies p))) progress_callback [].

(** [current_time - status.last_check > self.pool.health_check_interval] *)
Definition is_stale (current_time : Q) (interval : Q) (s : ProxyStatus) : bool :=
  negb (Qle_bool (current_time - last_check s) interval).

(** The loop of [check_stale_proxies] over the items that remain. Each
    status is the object held by the pool, and is changed only by the
    check made at its own turn, after it has been read. *)
Fixpoint check_stale_each (items : list (string * ProxyStatus)) (current_time : Q)
    (stale : list string) : M ProxyPool (list string) :=
  match items with
  | [] => ret stale
  | (proxy_url, status) :: rest =>
      let* p := get in
      if is_stale current_time (health_check_interval p) status then
        check_proxy proxy_url >>
        check_stale_each rest current_time (stale ++ [proxy_url])
      else check_stale_each rest current_time stale
  end.

(** [check_stale_proxies] *)
Definition check_stale_proxies : M ProxyPool (list string) :=
  let* current_time := now in
  let* p := get in
  check_stale_each (proxies p) current_time [].

End Checks.
End ProxyHealth.

(** ** [src/core/scraper.py]: the single-URL test *)

Module ScraperTest.
Import Base Scraper.
Open Scope m_scope.

(** The texts logged by [test_single_url], by the values they
    interpolate. *)
Inductive TestLog :=
  | MsgTestingUrl (url : string)
  | MsgEngine (engine_type : string)
  | MsgWarningText (message : string)
  | MsgTestSuccessful (n_fields : nat)
  | MsgTestFailed (error : option string).

(** What a test does, in order: what a run would record, and its own log
    lines. *)
Inductive TestEvent :=
  | EvRun (e : Event)
  | EvTestLog (level : Level) (msg : TestLog).

Definition test_log {S} (level : Level) (msg : TestLog) : Comp TestEvent S unit :=
  emit (EvTestLog level msg).

(** [ScrapeResult(url="", success=False, data={}, error="No URL provided")] *)
Definition no_url_result : ScrapeResult :=
  {| url := ""; success := false; data := ∅; error := Some "No URL provided"%string;
     status_code := None; elapsed_ms := 0%Q; html := None |}.

Section Test.
Context `{W : World}.

(** [test_single_url(url)]; [None] is the default argument. *)
Definition test_single_url (url : option string)
    : Comp TestEvent ScraperOrchestrator ScrapeResult :=
  let* o := get in
  let given := match url with
               | Some u => if String.eqb u "" then None else Some u
               | None => None
               end in
  let chosen := match given with
                | Some u => Some u
                | None => head (Project.urls (Project.target (project o)))
                end in
  match chosen with
  | None => ret no_url_result
  | Some u =>
      test_log Info (MsgTestingUrl u) >>
      test_log Info (MsgEngine (_get_engine_type o)) >>
      let* engine := relabel EvRun _get_engine in
      let* warning := relabel EvRun (engine_check_robots engine u) in
      match warning with
      | Some w =>
          relabel EvRun (signal (SigRobotsWarning w)) >>
          test_log Warning (MsgWarningText (message w))
      | None => ret tt
      end >>
      let* result := relabel EvRun (engine_scrape engine u (Project.fields (project o))) in
      (if success result
       then test_log Info (MsgTestSuccessful (size (data result)))
       else test_log Error (MsgTestFailed (error result))) >>
      ret result
  end.

End Test.
End ScraperTest.

(** ** [src/models/project.py]: loading an older link-follow section *)

Module LinkFollowCompat.

(** The values a keyword argument of [LinkFollowConfig] can take when it
    comes from a project file. *)
Unset Elimination Schemes.
Inductive Value :=
  | VNone
  | VBool (b : bool)
  | VInt (n : Z)
  | VStr (s : string)
  | VList (l : list Value).
Set Elimination Schemes.

(** [if v:] *)
Definition truthy (v : Value) : bool :=
  match v with
  | VNone => false
  | VBool b => b
  | VInt n => negb (n =? 0)
  | VStr s => negb (String.eqb s "")
  | VList l => match l with [] => false | _ :: _ => true end
  end.

(** [del d[k]] on an insertion-ordered dict *)
Definition dict_del {V} (k : string) (d : list (string * V)) : list (string * V) :=
  filter (fun kv => fst kv ≠ k) d.

(** [LinkFollowConfig.__init__]: the keyword arguments handed on to the
    model's own initialiser. *)
Definition __init__ (data : list (string * Value)) : list (string * Value) :=
  if Py.dict_mem "link_selector" data && negb (Py.dict_mem "link_selectors" data) then
    match Py.dict_get "link_selector" data with
    | Some old_selector =>
        let data := dict_del "link_selector" data in
        if truthy old_selector
        then Py.dict_set "link_selectors" (VList [old_selector]) data
        else data
    | None => data
    end
  else data.

End LinkFollowCompat.

(** * Properties *)

(** ** The proxy pool *)

Section ProxyPoolFacts.
Import ProxyManager.

Lemma dict_mem_keys {V} (k : string) (d : list (string * V)) :
  Py.dict_mem k d = true <-> k ∈ map fst d.
Proof.
  unfold Py.dict_mem. induction d as [|[k' v'] d IH]; cbn.
  - split; [discriminate | intros H; inversion H].
  - destruct (String.eqb_spec k k') as [->|Hne].
    + split; [intros _; left | reflexivity].
    + rewrite IH. split; [intros H; right; exact H |].
      intros H. inversion H; subst; [congruence | assumption].
Qed.

Lemma set_healthy_same (s : ProxyStatus) : set_healthy (is_healthy s) s = s.
Proof. destruct s; reflexivity. Qed.

(** The index computed by [get_next_proxy] is a valid position. *)
Lemma rotation_in_range (i : Z) (l : list string) :
  l <> [] -> exists u, l !! Z.to_nat ((i + 1) mod Z.of_nat (length l)) = Some u /\ u ∈ l.
Proof.
  intros Hl.
  assert (0 < Z.of_nat (length l)) as Hlen by (destruct l; [congruence | cbn; lia]).
  pose proof (Z.mod_pos_bound (i + 1) _ Hlen) as Hb.
  destruct (lookup_lt_is_Some_2 l (Z.to_nat ((i + 1) mod Z.of_nat (length l)))) as [u Hu];
    [lia |].
  exists u. split; [exact Hu |]. eapply list_elem_of_lookup_2; exact Hu.
Qed.

Lemma healthy_after_recover (p : ProxyPool) :
  healthy_proxies p = [] ->
  healthy_proxies (recover_all p) =
    map fst (filter (fun kv => fail_count (snd kv) < max_fail_count p * 2) (proxies p)).
Proof.
  unfold healthy_proxies, recover_all. cbn.
  generalize (max_fail_count p) as mf. intros mf.
  induction (proxies p) as [|[k s] l IH]; [reflexivity|].
  rewrite filter_cons. cbn [snd].
  destruct (decide (is_healthy s = true)) as [Hh|Hh]; [discriminate|].
  intros Hnil. specialize (IH Hnil). cbn [map].
  rewrite !filter_cons. cbn [snd fst].
  assert (is_healthy (recover mf s) = true <-> fail_count s < mf * 2) as Hr.
  { unfold recover. destruct (Z.ltb_spec (fail_count s) (mf * 2)) as [Hlt|Hge].
    - split; [intros _; exact Hlt | reflexivity].
    - split; [intros H; contradiction | lia]. }
  destruct (decide (fail_count s < mf * 2)) as [Hlt|Hge].
  - rewrite decide_True by (apply Hr; exact Hlt).
    cbn [map fst]. f_equal. exact IH.
  - rewrite decide_False by (rewrite Hr; exact Hge). exact IH.
Qed.

Lemma filter_nil_Forall {A} (P : A -> Prop) `{!forall x, Decision (P x)} (l : list A) :
  filter P l = [] <-> Forall (fun x => ~ P x) l.
Proof.
  induction l as [|x l IH]; [split; [constructor | reflexivity]|].
  rewrite filter_cons. destruct (decide (P x)) as [HP|HP].
  - split; [discriminate | intros Hall; inversion Hall; subst; contradiction].
  - rewrite IH. split; [intros Hall; constructor; assumption
                       | intros Hall; inversion Hall; assumption].
Qed.

Lemma recover_unhealthy (mf : Z) (l : list (string * ProxyStatus)) :
  Forall (fun kv => is_healthy (snd kv) <> true) l ->
  map (fun kv => (fst kv, recover mf (snd kv))) l =
  map (fun kv => (fst kv, set_healthy (fail_count (snd kv) <? mf * 2) (snd kv))) l.
Proof.
  induction 1 as [|[k s] l Hs Hl IH]; [reflexivity|].
  cbn [map fst snd]. f_equal; [|exact IH]. f_equal.
  unfold recover. cbn [snd] in Hs.
  destruct (fail_count s <? mf * 2); [reflexivity|].
  destruct (is_healthy s) eqn:Hh; [congruence|].
  rewrite <- Hh. symmetry. apply set_healthy_same.
Qed.

Lemma map_fst_nil {A B} (l : list (A * B)) : map fst l = [] <-> l = [].
Proof. destruct l; cbn; split; congruence. Qed.
End ProxyPoolFacts.

(** A pool locked out for good: one proxy, six failures in a row reported
    with [mark_failure] against the default threshold of 3. *)
Definition lockout_pool : ProxyManager.ProxyPool :=
  Nat.iter 6 (ProxyManager.mark_failure "http://10.0.0.1:8080" (Some "timeout"%string))
    (ProxyManager.init_default ["http://10.0.0.1:8080"%string]).

(** C1, as stated, fails: the pool above has one entry, every entry is
    unhealthy, and yet [get_next_proxy] returns none and leaves the entry
    unhealthy. *)
Lemma get_next_proxy_lockout :
  ProxyManager.proxies lockout_pool <> [] /\
  ProxyManager.healthy_proxies lockout_pool = [] /\
  fst (ProxyManager.get_next_proxy lockout_pool) = None /\
  ProxyManager.healthy_proxies (snd (ProxyManager.get_next_proxy lockout_pool)) = [].
Proof. vm_compute. repeat split; congruence. Qed.

(** C1 (amended). When no entry of the pool is healthy, [get_next_proxy]
    marks healthy exactly the entries whose failure count is below twice
    [max_fail_count], leaving every other field and every other entry as it
    was; it then returns one of the entries it has reset, and it returns
    none exactly when there is no such entry, which includes the empty
    pool. *)
Theorem get_next_proxy_recovery (p : ProxyManager.ProxyPool) :
  ProxyManager.healthy_proxies p = [] ->
  ProxyManager.proxies (snd (ProxyManager.get_next_proxy p)) =
    map (fun kv => (fst kv,
           ProxyManager.set_healthy
             (ProxyManager.fail_count (snd kv) <? ProxyManager.max_fail_count p * 2)
             (snd kv)))
        (ProxyManager.proxies p) /\
  (fst (ProxyManager.get_next_proxy p) = None <->
     Forall (fun kv => ProxyManager.max_fail_count p * 2 <= ProxyManager.fail_count (snd kv))
            (ProxyManager.proxies p)) /\
  (forall u, fst (ProxyManager.get_next_proxy p) = Some u ->
     exists s, (u, s) ∈ ProxyManager.proxies p /\
               ProxyManager.fail_count s < ProxyManager.max_fail_count p * 2 /\
               u ∈ ProxyManager.healthy_proxies (snd (ProxyManager.get_next_proxy p))).
Proof.
  intros Hnone.
  pose proof (healthy_after_recover p Hnone) as Hrec.
  assert (Hprox : ProxyManager.proxies (ProxyManager.recover_all p) =
    map (fun kv => (fst kv,
           ProxyManager.set_healthy
             (ProxyManager.fail_count (snd kv) <? ProxyManager.max_fail_count p * 2)
             (snd kv))) (ProxyManager.proxies p)).
  { unfold ProxyManager.recover_all. cbn.
    unfold ProxyManager.healthy_proxies in Hnone.
    apply map_fst_nil in Hnone. rewrite filter_nil_Forall in Hnone.
    apply recover_unhealthy. exact Hnone. }
  unfold ProxyManager.get_next_proxy. rewrite Hnone.
  destruct (ProxyManager.healthy_proxies (ProxyManager.recover_all p)) as [|h hs] eqn:Hh.
  - cbn [fst snd]. split; [exact Hprox|]. split.
    + split; [intros _ | reflexivity].
      symmetry in Hrec. apply map_fst_nil in Hrec.
      rewrite filter_nil_Forall in Hrec.
      eapply Forall_impl; [exact Hrec|]. cbn. intros; lia.
    + discriminate.
  - cbn [fst snd].
    destruct (rotation_in_range (ProxyManager.current_index (ProxyManager.recover_all p))
                (h :: hs)) as (u & Hu & Hin); [discriminate|].
    split; [exact Hprox|]. split.
    + split; [rewrite Hu; discriminate|].
      intros Hall. exfalso.
      assert (h ∈ h :: hs) as Hmem by left.
      rewrite Hrec in Hmem. apply list_elem_of_fmap in Hmem as ([k s] & -> & Hks).
      apply list_elem_of_filter in Hks as [Hlt Hks]. cbn in Hlt.
      rewrite Forall_forall in Hall. specialize (Hall _ Hks). cbn in Hall. lia.
    + intros u' Hu'. rewrite Hu in Hu'. injection Hu' as <-.
      pose proof Hin as Hin'.
      rewrite Hrec in Hin. apply list_elem_of_fmap in Hin as ([k s] & -> & Hks).
      apply list_elem_of_filter in Hks as [Hlt Hks]. cbn in Hlt.
      exists s. split; [exact Hks|]. split; [exact Hlt|].
      unfold ProxyManager.healthy_proxies at 1.
      cbn [ProxyManager.proxies ProxyManager.set_current_index].
      fold (ProxyManager.healthy_proxies (ProxyManager.recover_all p)).
      rewrite Hh. exact Hin'.
Qed.

(** A pool with three proxies, two of them within reach of recovery. *)
Definition recovering_pool : ProxyManager.ProxyPool :=
  Nat.iter 6 (ProxyManager.mark_failure "c" None)
    (Nat.iter 3 (ProxyManager.mark_failure "b" None)
       (Nat.iter 4 (ProxyManager.mark_failure "a" None)
          (ProxyManager.init_default ["a"; "b"; "c"]%string))).

Lemma get_next_proxy_recovery_witness :
  fst (ProxyManager.get_next_proxy recovering_pool) = Some "b"%string /\
  exists s, ("b"%string, s) ∈ ProxyManager.proxies recovering_pool /\
            ProxyManager.fail_count s < ProxyManager.max_fail_count recovering_pool * 2 /\
            "b"%string ∈ ProxyManager.healthy_proxies
                  (snd (ProxyManager.get_next_proxy recovering_pool)).
Proof.
  split; [vm_compute; reflexivity|].
  apply (get_next_proxy_recovery recovering_pool); vm_compute; reflexivity.
Defined.

(** C10. For an address that is not a key of the pool, [mark_success] and
    [mark_failure] return the pool as it was: every record and the rotation
    index are unchanged. *)
Theorem mark_absent_noop (p : ProxyManager.ProxyPool) (address : string)
    (err : option string) :
  address ∉ map fst (ProxyManager.proxies p) ->
  ProxyManager.mark_success address p = p /\
  ProxyManager.mark_failure address err p = p.
Proof.
  intros Habsent.
  assert (Py.dict_mem address (ProxyManager.proxies p) = false) as Hmem.
  { destruct (Py.dict_mem address (ProxyManager.proxies p)) eqn:E; [|reflexivity].
    apply dict_mem_keys in E. contradiction. }
  unfold ProxyManager.mark_success, ProxyManager.mark_failure.
  rewrite Hmem. split; reflexivity.
Qed.

Lemma mark_absent_noop_witness :
  ProxyManager.mark_success "z" recovering_pool = recovering_pool /\
  ProxyManager.mark_failure "z" (Some "refused"%string) recovering_pool = recovering_pool.
Proof.
  apply (mark_absent_noop recovering_pool "z" (Some "refused"%string)).
  vm_compute. intros H. repeat (inversion H as [|? ? ? H']; subst; clear H; rename H' into H).
Defined.

(** ** Worlds to run the engines in *)

Lemma half_in_range (n : nat) : (0 <= 1 # 2)%Q /\ (1 # 2 < 1)%Q.
Proof. split; [discriminate | reflexivity]. Qed.

(** A world given by its HTTP and browser replies: every URL parses (the
    text ["http://[bad"] apart) into the origin [https://example.com],
    robots rules forbid a URL when they are the text ["Disallow: /"],
    pages parse unless their text is ["<garbled>"], every selector matches
    an element with the text ["value"], and the clock advances by one
    second per reading. *)
Definition scripted_world (http : nat -> string -> option string -> Base.HttpReply)
    (browser : nat -> string -> Base.BrowserReply) : Base.World :=
  {| Base.urlparse := fun u =>
       if String.eqb u "http://[bad" then Base.Raise "Invalid IPv6 URL"
       else Base.Ok {| Base.scheme := "https"; Base.netloc := "example.com"; Base.path := u |};
     Base.urljoin := fun base rel => Base.Ok (base ++ rel)%string;
     Base.http_get := http;
     Base.raise_for_status := fun status => negb ((200 <=? status) && (status <? 300));
     Base.can_fetch := fun rules _ => negb (String.eqb rules "Disallow: /");
     Base.bs_parse := fun text =>
       if String.eqb text "<garbled>" then Some "markup rejected"%string else None;
     Base.bs_parse_html := fun _ => None;
     Base.select_one_value := fun _ _ _ => Some "value"%string;
     Base.select_hrefs := fun _ _ => Base.Ok [];
     Base.playwright_start := fun _ => None;
     Base.browser_launch := fun _ _ => None;
     Base.enter_none_error := "__aenter__";
     Base.page_visit := browser;
     Base.query_selector_value := fun _ _ _ => Some "value"%string;
     Base.strip := fun x => x;
     Base.collapse_whitespace := fun x => x;
     Base.remove_zero_width := fun x => x;
     Base.content_hash := fun d => "hash"%string;
     Base.time_time := fun n => inject_Z (Z.of_nat n);
     Base.random_random := fun _ => 1 # 2;
     Base.random_random_range := half_in_range |}.

(** Every request fails at the network level. *)
Definition offline_world : Base.World :=
  scripted_world (fun _ _ _ => Base.HttpRequestError "connection refused")
                 (fun _ _ => Base.BrowserFailed "net::ERR_CONNECTION_REFUSED").

(** Every request is answered with the same small page. *)
Definition online_world : Base.World :=
  scripted_world (fun _ _ _ => Base.HttpResponse 200 "OK" "<html></html>")
                 (fun _ _ => Base.BrowserPage (Some 200) "<html></html>" None).

Definition title_field : Project.SelectorField :=
  {| Project.name := "title"; Project.selector := "h1"; Project.selector_type := "css";
     Project.attribute := None; Project.fallback_selectors := [];
     Project.transform := None |}.

(** [StaticEngine(retry_count=n, respect_robots=False)] *)
Definition static_engine (retries : Z) : StaticEngine.StaticEngine :=
  StaticEngine.init Project.default_rate_limit Project.default_proxy 30%Q [] retries
    true false true.

(** [PlaywrightEngine(retry_count=n, save_html_on_error=save)] *)
Definition js_engine (retries : Z) (save : bool) : PlaywrightEngine.PlaywrightEngine :=
  PlaywrightEngine.init Project.default_rate_limit Project.default_proxy 30%Q [] retries
    save true true.

(** ** The rate limiter *)

Section RateLimit.
Import Base.
Context `{W : World}.

Lemma uniform_between (a b r : Q) :
  (0 <= r)%Q -> (r < 1)%Q ->
  (Qmin a b <= a + (b - a) * r)%Q /\ (a + (b - a) * r <= Qmax a b)%Q.
Proof.
  intros H0 H1.
  destruct (Qlt_le_dec b a) as [Hlt|Hle].
  - rewrite (Q.min_r a b) by lra. rewrite (Q.max_l a b) by lra. split; nra.
  - rewrite (Q.min_l a b) by lra. rewrite (Q.max_r a b) by lra. split; nra.
Qed.

Lemma uniform_within (a b r : Q) :
  (0 <= r)%Q -> (r < 1)%Q -> (a <= b)%Q ->
  (a <= a + (b - a) * r)%Q /\ (a + (b - a) * r <= b)%Q.
Proof. intros. split; nra. Qed.

(** What the two copies of [_wait_rate_limit] promise about the delay
    they compute from the configuration and the error counter. *)
Definition delay_as_specified (rl : Project.RateLimitConfig) (errors : nat) (delay : Q)
    : Prop :=
  ((Project.adaptive rl = false \/ errors = 0%nat) ->
     (Qmin (Project.min_delay rl) (Project.max_delay rl) <= delay)%Q /\
     (delay <= Qmax (Project.min_delay rl) (Project.max_delay rl))%Q /\
     ((Project.min_delay rl <= Project.max_delay rl)%Q ->
        (Project.min_delay rl <= delay)%Q /\ (delay <= Project.max_delay rl)%Q)) /\
  ((Project.adaptive rl = true /\ (0 < errors)%nat) ->
     delay = Qmin (Project.max_delay rl * inject_Z (2 ^ Z.of_nat errors)) 60).

Lemma delay_cases (rl : Project.RateLimitConfig) (errors : nat) (r : Q) :
  (0 <= r)%Q -> (r < 1)%Q ->
  delay_as_specified rl errors
    (if Project.adaptive rl && (0 <? errors)%nat
     then Qmin (Project.max_delay rl * inject_Z (2 ^ Z.of_nat errors)) 60
     else (Project.min_delay rl + (Project.max_delay rl - Project.min_delay rl) * r)%Q).
Proof.
  intros H0 H1. unfold delay_as_specified.
  destruct (Project.adaptive rl) eqn:Ha; cbn [andb].
  - destruct (Nat.ltb_spec 0 errors) as [Hpos|Hzero].
    + split; [intros [Hf|Hz]; [discriminate | lia] | intros _; reflexivity].
    + split; [| intros [_ Hp]; lia].
      intros _. pose proof (uniform_between (Project.min_delay rl) (Project.max_delay rl) r H0 H1).
      repeat split; try tauto; apply uniform_within; assumption.
  - split; [| intros [Hp _]; discriminate].
    intros _. pose proof (uniform_between (Project.min_delay rl) (Project.max_delay rl) r H0 H1).
    repeat split; try tauto; apply uniform_within; assumption.
Qed.

(** Whether the backoff of [_wait_rate_limit] overflows in this state. *)
Definition backoff_overflows (rl : Project.RateLimitConfig) (errors : nat) : bool :=
  Project.adaptive rl && (float_exponent_limit <=? errors)%nat.

(** What a [_wait_rate_limit] computed from [rl] and [errors], started
    at [s], comes to. *)
Definition wait_outcome {S} (rl : Project.RateLimitConfig) (errors : nat)
    (s : IO * S) (out : Res unit * (IO * S) * list IOEvent) : Prop :=
  if backoff_overflows rl errors then out = (Raise overflow_error, s, [])
  else
    exists delay io',
      out = (Ok tt, (io', snd s),
             if positive delay then [EvSleep RateLimitDelay delay] else []) /\
      requests io' = requests (fst s) /\
      delay_as_specified rl errors delay.

Lemma bind_get {E S A} (k : S -> Comp E S A) (s : IO * S) :
  bind get k s = k (snd s) s.
Proof. unfold bind, get. destruct (k (snd s) s) as [[r s2] ev]. reflexivity. Qed.

Lemma when_sleep_run {S} (kind : SleepKind) (d : Q) (s : IO * S) :
  when (positive d) (sleep kind d) s = (Ok tt, s, if positive d then [EvSleep kind d] else []).
Proof. unfold when, sleep, emit, ret. destruct (positive d); reflexivity. Qed.

Lemma wait_outcome_of {S} (rl : Project.RateLimitConfig) (errors : nat) (s : IO * S) :
  wait_outcome rl errors s
    (bind (if Project.adaptive rl && (0 <? errors)%nat
           then of_res (backoff_delay rl errors)
           else random_uniform (Project.min_delay rl) (Project.max_delay rl))
          (fun delay => when (positive delay) (sleep RateLimitDelay delay)) s).
Proof.
  destruct s as [io x].
  destruct (random_random_range (random_draws io)) as [H0 H1].
  pose proof (delay_cases rl errors _ H0 H1) as Hspec.
  unfold wait_outcome, backoff_overflows, backoff_delay, float_exponent_limit.
  assert (Hdraw :
    exists delay io',
      bind (random_uniform (Project.min_delay rl) (Project.max_delay rl))
           (fun delay => when (positive delay) (sleep RateLimitDelay delay)) (io, x) =
        (Ok tt, (io', x), if positive delay then [EvSleep RateLimitDelay delay] else []) /\
      requests io' = requests io /\
      delay = (Project.min_delay rl +
               (Project.max_delay rl - Project.min_delay rl) *
               random_random (random_draws io))%Q).
  { eexists _, (bump_random io). split; [|split; reflexivity].
    unfold bind, random_uniform. cbn [fst snd]. rewrite when_sleep_run. reflexivity. }
  destruct Hdraw as (delay & io' & Hrun & Hreq & Hdelay). cbn [fst snd].
  destruct (Project.adaptive rl); cbn [andb] in *.
  - destruct (Nat.leb_spec 1024 errors) as [Hbig|Hsmall].
    + destruct (Nat.ltb_spec 0 errors) as [_|Hz]; [reflexivity | lia].
    + destruct (0 <? errors)%nat.
      * exists (Qmin (Project.max_delay rl * inject_Z (2 ^ Z.of_nat errors)) 60), io.
        split; [|split; [reflexivity | exact Hspec]].
        unfold bind, of_res. rewrite when_sleep_run. reflexivity.
      * exists delay, io'. rewrite Hrun. subst delay. auto.
  - exists delay, io'. rewrite Hrun. subst delay. auto.
Qed.
End RateLimit.

(** C6 (what the code does). In both engines, [_wait_rate_limit] computes
    a delay and sleeps for it when it is positive. The delay lies
    between [min_delay] and [max_delay] (in [[min_delay, max_delay]]
    when that interval is well formed) when the consecutive-error
    counter is 0 or adaptive mode is off, and is
    [min(max_delay * 2^errors, 60)] when adaptive mode is on and the
    counter is positive and below 1024. From 1024 consecutive errors on,
    adaptive mode does not wait the 60 seconds of the cap: the power is
    computed before the cap is applied, and [_wait_rate_limit] raises
    [OverflowError] without sleeping. *)
Theorem wait_rate_limit_delay `{W : Base.World} :
  (forall (io : Base.IO) (e : StaticEngine.StaticEngine),
     wait_outcome (StaticEngine.rate_limit e) (StaticEngine._consecutive_errors e)
       (io, e) (StaticEngine._wait_rate_limit (io, e))) /\
  (forall (io : Base.IO) (e : PlaywrightEngine.PlaywrightEngine),
     wait_outcome (PlaywrightEngine.rate_limit e) (PlaywrightEngine._consecutive_errors e)
       (io, e) (PlaywrightEngine._wait_rate_limit (io, e))).
Proof.
  split; intros io e.
  - unfold StaticEngine._wait_rate_limit. rewrite bind_get. apply wait_outcome_of.
  - unfold PlaywrightEngine._wait_rate_limit. rewrite bind_get. apply wait_outcome_of.
Qed.

(** ** Running computations *)

Section MonadFacts.
Import Base.

Lemma bind_ex {E S A B} (m : Comp E S A) (k : A -> Comp E S B) s a s1 ev1
    (P : B -> IO * S -> list E -> Prop) :
  m s = (Ok a, s1, ev1) ->
  (exists res s2 ev2, k a s1 = (Ok res, s2, ev2) /\ P res s2 (ev1 ++ ev2)) ->
  exists res s2 ev, bind m k s = (Ok res, s2, ev) /\ P res s2 ev.
Proof.
  intros Hm (res & s2 & ev2 & Hk & HP). exists res, s2, (ev1 ++ ev2).
  split; [|exact HP]. unfold bind. rewrite Hm, Hk. reflexivity.
Qed.

Lemma bind_any {E S A B} (m : Comp E S A) (k : A -> Comp E S B) s a s1 ev1
    (P : Res B -> IO * S -> list E -> Prop) :
  m s = (Ok a, s1, ev1) ->
  (exists r s2 ev2, k a s1 = (r, s2, ev2) /\ P r s2 (ev1 ++ ev2)) ->
  exists r s2 ev, bind m k s = (r, s2, ev) /\ P r s2 ev.
Proof.
  intros Hm (r & s2 & ev2 & Hk & HP). exists r, s2, (ev1 ++ ev2).
  split; [|exact HP]. unfold bind. rewrite Hm, Hk. reflexivity.
Qed.

Lemma bind_raised {E S A B} (m : Comp E S A) (k : A -> Comp E S B) s msg s1 ev1
    (P : Res B -> IO * S -> list E -> Prop) :
  m s = (Raise msg, s1, ev1) ->
  P (Raise msg) s1 ev1 ->
  exists r s2 ev, bind m k s = (r, s2, ev) /\ P r s2 ev.
Proof.
  intros Hm HP. exists (Raise msg), s1, ev1.
  split; [|exact HP]. unfold bind. rewrite Hm. reflexivity.
Qed.
End MonadFacts.

(** ** Reading a trace *)

Section Traces.
Import Base.
Context `{W : World}.

(** The [last_error] an attempt of the plain-HTTP engine assigns on this
    reply; [None] when the attempt succeeds. *)
Definition http_error (reply : HttpReply) : option string :=
  match reply with
  | HttpRequestError msg => Some ("Request failed: " ++ msg)%string
  | HttpOtherError msg => Some ("Unexpected error: " ++ msg)%string
  | HttpResponse status reason text =>
      if raise_for_status status
      then Some ("HTTP " ++ Py.str_of_int status ++ ": " ++ reason)%string
      else match bs_parse text with
           | Some msg => Some ("Unexpected error: " ++ msg)%string
           | None => None
           end
  end.

(** The page content such an attempt reads, if any. *)
Definition http_page (reply : HttpReply) : option string :=
  match reply with
  | HttpResponse status _ text => if raise_for_status status then None else Some text
  | HttpRequestError _ | HttpOtherError _ => None
  end.

(** The same for an attempt of the browser engine. *)
Definition browser_error (reply : BrowserReply) : option string :=
  match reply with
  | BrowserFailed msg => Some msg
  | BrowserPage _ _ after => after
  end.

Definition browser_page (reply : BrowserReply) : option string :=
  match reply with
  | BrowserFailed _ => None
  | BrowserPage _ content _ => Some content
  end.

(** An attempt recorded in a trace: its error, if it failed, and the page
    content it read, if any. *)
Definition attempt_of (e : IOEvent) : option (option string * option string) :=
  match e with
  | EvHttpGet _ _ reply => Some (http_error reply, http_page reply)
  | EvVisit _ reply => Some (browser_error reply, browser_page reply)
  | _ => None
  end.

(** A trace seen as attempts ([inl ok]) and backoff sleeps ([inr secs]). *)
Definition retry_view (e : IOEvent) : option (bool + Q) :=
  match e with
  | EvSleep RetryBackoff secs => Some (inr secs)
  | _ => match attempt_of e with
         | Some (None, _) => Some (inl true)
         | Some (Some _, _) => Some (inl false)
         | None => None
         end
  end.

Fixpoint retry_trace (ev : list IOEvent) : list (bool + Q) :=
  match ev with
  | [] => []
  | e :: ev' =>
      match retry_view e with
      | Some v => v :: retry_trace ev'
      | None => retry_trace ev'
      end
  end.

(** The last error and the last page content of the attempts of a trace,
    starting from [init]. *)
Definition last_error (ev : list IOEvent) (init : option string) : option string :=
  fold_left (fun acc e =>
               match attempt_of e with
               | Some (Some m, _) => Some m
               | _ => acc
               end) ev init.

Definition last_page (ev : list IOEvent) (init : option string) : option string :=
  fold_left (fun acc e =>
               match attempt_of e with
               | Some (_, Some t) => Some t
               | _ => acc
               end) ev init.

(** [count] attempts numbered from [first]: each failed attempt but the
    last is followed by the sleep of [2^attempt] seconds, and [ok] tells
    how the last one went. *)
Definition retry_shape (first count : nat) (ok : bool) : list (bool + Q) :=
  match count with
  | O => []
  | S k =>
      flat_map (fun i => [inl false; inr (inject_Z (2 ^ Z.of_nat i))]) (seq first k)
        ++ [inl ok]
  end.

(** Events that are neither an attempt nor a backoff sleep. *)
Definition outside_retry (e : IOEvent) : Prop :=
  match e with
  | EvHttpGet _ _ _ | EvVisit _ _ | EvSleep RetryBackoff _ => False
  | _ => True
  end.

Lemma retry_trace_app (ev1 ev2 : list IOEvent) :
  retry_trace (ev1 ++ ev2) = retry_trace ev1 ++ retry_trace ev2.
Proof.
  induction ev1 as [|x ev1 IH]; [reflexivity|].
  cbn [app retry_trace]. destruct (retry_view x); rewrite IH; reflexivity.
Qed.

Lemma retry_shape_cons (first count : nat) (ok : bool) :
  (1 <= count)%nat ->
  inl false :: inr (inject_Z (2 ^ Z.of_nat first)) :: retry_shape (S first) count ok =
  retry_shape first (S count) ok.
Proof. destruct count as [|k]; [lia|]. intros _. reflexivity. Qed.

Lemma outside_retry_neutral (ev0 ev : list IOEvent) (le pg : option string) :
  Forall outside_retry ev0 ->
  retry_trace (ev0 ++ ev) = retry_trace ev /\
  last_error (ev0 ++ ev) le = last_error ev le /\
  last_page (ev0 ++ ev) pg = last_page ev pg.
Proof.
  induction 1 as [|x ev0 Hx _ IH]; [repeat split|].
  destruct IH as (IH1 & IH2 & IH3).
  unfold last_error, last_page in *. cbn [app retry_trace fold_left].
  destruct x as [[] ?| | | | | |]; cbn in Hx; try contradiction;
    cbn [retry_view attempt_of]; auto.
Qed.

(** How one failed attempt, the sleep that may follow it and the rest of
    the loop combine. [last] tells that the attempt was the last one. *)
Lemma failed_attempt_trace (e : IOEvent) (err : string) (pg0 : option string)
    (first a len : nat) (sleeps : bool) (ev : list IOEvent) (ok : bool)
    (le pg : option string) :
  attempt_of e = Some (Some err, pg0) ->
  (sleeps = true <-> (1 <= len)%nat) ->
  (a <= len)%nat ->
  retry_trace ev = retry_shape (S first) a ok ->
  (ok = true -> (1 <= a)%nat) ->
  (ok = false -> a = len) ->
  let ev' := e :: (if sleeps then [EvSleep RetryBackoff (inject_Z (2 ^ Z.of_nat first))]
                   else []) ++ ev in
  retry_trace ev' = retry_shape first (S a) ok /\
  last_error ev' le = last_error ev (Some err) /\
  last_page ev' pg = last_page ev (match pg0 with Some t => Some t | None => pg end).
Proof.
  intros He Hsl Hle Hshape Hs1 Hs2 ev'. subst ev'.
  assert (Hview : retry_view e = Some (inl false)).
  { destruct e as [[] ?| | | | | |]; cbn in He; try discriminate;
      cbn [retry_view attempt_of]; injection He as -> _; reflexivity. }
  split; [|split].
  - cbn [retry_trace]. rewrite Hview, retry_trace_app, Hshape.
    destruct sleeps.
    + cbn [retry_trace retry_view app]. apply retry_shape_cons.
      destruct ok; [auto | rewrite Hs2 by reflexivity; apply Hsl; reflexivity].
    + assert (len = 0%nat) as ->.
      { destruct len; [reflexivity|]. assert (false = true) by (apply Hsl; lia). discriminate. }
      assert (a = 0%nat) as -> by lia.
      destruct ok; [specialize (Hs1 eq_refl); lia | reflexivity].
  - unfold last_error. cbn [fold_left]. rewrite He, fold_left_app.
    destruct sleeps; reflexivity.
  - unfold last_page. cbn [fold_left]. rewrite He, fold_left_app.
    destruct sleeps, pg0; reflexivity.
Qed.
End Traces.

(** ** The plain-HTTP engine *)

Section StaticFacts.
Import Base StaticEngine.
Context `{W : World}.

(** The configuration of an engine, which no operation changes. *)
Definition st_config (e : StaticEngine) :=
  (rate_limit e, proxy e, retry_count e, save_html_on_error e, respect_robots e,
   detect_duplicates e).

Lemma st_get_proxy_run (io : IO) (e : StaticEngine) :
  exists px e', _get_proxy (io, e) = (Ok px, (io, e'), []) /\ st_config e' = st_config e.
Proof.
  unfold _get_proxy, bind, get, ret, modify. cbn [fst snd].
  destruct (negb (Project.enabled (proxy e)) || bool_decide (Project.proxies (proxy e) = []));
    [eexists _, _; split; reflexivity|].
  destruct (filter _ _) as [|a l]; cbn [fst snd app];
    destruct (Project.rotate (proxy e)); cbn [fst snd app];
    eexists _, _; split; reflexivity.
Qed.

Lemma st_on_failure_run (attempt : nat) (fp : option string) (io : IO) (e : StaticEngine) :
  exists e', on_failure attempt fp (io, e) =
               (Ok tt, (io, e'),
                if Z.of_nat attempt <? retry_count e
                then [EvSleep RetryBackoff (inject_Z (2 ^ Z.of_nat attempt))] else []) /\
             st_config e' = st_config e.
Proof.
  unfold on_failure, bind, get, ret, modify, when, sleep, emit. cbn [fst snd].
  destruct fp; cbn [fst snd app retry_count set_failed_proxies set_consecutive_errors with_state];
    destruct (Z.of_nat attempt <? retry_count e); eexists; split; reflexivity.
Qed.

Lemma st_on_page_run (u : string) (fields : list Project.SelectorField) (st : Q)
    (status : Z) (text : string) (io : IO) (e : StaticEngine) :
  exists res io' e',
    on_page u fields st status text (io, e) = (Ok res, (io', e'), []) /\
    st_config e' = st_config e /\
    url res = u /\ success res = true /\
    data res = extract_data text fields /\ html res = Some text.
Proof.
  unfold on_page, bind, get, ret, modify, when, elapsed_since, now. cbn [fst snd].
  destruct (detect_duplicates e) eqn:Hd; cbn [andb].
  - destruct (bool_decide _); cbn [fst snd app]; eexists _, _, _; repeat split; reflexivity.
  - cbn [fst snd app]. eexists _, _, _; repeat split; reflexivity.
Qed.

(** A wait sleeps at most once and makes no request; it raises only on
    the overflow of the backoff, before sleeping. *)
Lemma wait_outcome_run {S} (rl : Project.RateLimitConfig) (errors : nat) (s : IO * S)
    (out : Res unit * (IO * S) * list IOEvent) :
  wait_outcome rl errors s out ->
  exists r io' ev,
    out = (r, (io', snd s), ev) /\ Forall outside_retry ev /\
    requests io' = requests (fst s) /\
    match r with
    | Ok _ => backoff_overflows rl errors = false
    | Raise msg => msg = overflow_error /\ backoff_overflows rl errors = true /\
                   ev = [] /\ io' = fst s
    end.
Proof.
  unfold wait_outcome. destruct (backoff_overflows rl errors).
  - intros ->. exists (Raise overflow_error), (fst s), []. destruct s.
    repeat split; constructor.
  - intros (delay & io' & -> & Hreq & _). eexists (Ok tt), io', _.
    split; [reflexivity|]. split; [destruct (positive delay); repeat constructor|].
    split; [exact Hreq | reflexivity].
Qed.

Lemma st_wait_rate_limit_run (io : IO) (e : StaticEngine) :
  exists r io' ev,
    _wait_rate_limit (io, e) = (r, (io', e), ev) /\ Forall outside_retry ev /\
    requests io' = requests io /\
    match r with
    | Ok _ => backoff_overflows (rate_limit e) (_consecutive_errors e) = false
    | Raise msg => msg = overflow_error /\
                   backoff_overflows (rate_limit e) (_consecutive_errors e) = true /\
                   ev = [] /\ io' = io
    end.
Proof.
  apply (wait_outcome_run (rate_limit e) (_consecutive_errors e) (io, e)).
  unfold _wait_rate_limit. rewrite bind_get. apply wait_outcome_of.
Qed.

(** What the retry loop guarantees when it is entered with the attempts
    [first .. first+len-1] left, [le] and [pg] being the last error and
    the last page content so far. *)
Definition st_retry_post (u : string) (fields : list Project.SelectorField)
    (first len : nat) (le pg : option string) (e : StaticEngine)
    (res : ScrapeResult) (s' : IO * StaticEngine) (ev : list IOEvent) : Prop :=
  st_config (snd s') = st_config e /\
  url res = u /\
  (exists a, (a <= len)%nat /\
     retry_trace ev = retry_shape first a (success res) /\
     (success res = true -> (1 <= a)%nat) /\
     (success res = false -> a = len)) /\
  (success res = false ->
     data res = ∅ /\ error res = last_error ev le /\ html res = last_page ev pg) /\
  (success res = true ->
     exists text, data res = extract_data text fields /\ html res = Some text) /\
  ((1 <= len)%nat -> exists ev1 px reply ev2, ev = ev1 ++ EvHttpGet u px reply :: ev2).

Lemma st_retry_loop_run (u : string) (fields : list Project.SelectorField) (st : Q) :
  forall (len first : nat) (le pg : option string) (io : IO) (e : StaticEngine),
    Z.to_nat (retry_count e + 1) = (first + len)%nat ->
    exists res s' ev,
      retry_loop u fields st (seq first len) le pg (io, e) = (Ok res, s', ev) /\
      st_retry_post u fields first len le pg e res s' ev.
Proof.
  induction len as [|len IH]; intros first le pg io e Hn.
  - cbn [seq retry_loop]. unfold bind, elapsed_since, now, ret. cbn [fst snd app].
    eexists _, _, _. split; [reflexivity|]. unfold st_retry_post.
    split; [reflexivity|]. split; [reflexivity|]. cbn [success failed_result].
    split; [exists 0%nat; repeat split; [lia | discriminate]|].
    split; [intros _; repeat split|]. split; [discriminate | intros; lia].
  - cbn [seq retry_loop].
    destruct (st_get_proxy_run io e) as (proxy & e1 & Hpx & Hc1).
    apply bind_ex with (1 := Hpx). cbv zeta.
    generalize (Py.nonempty proxy). clear proxy Hpx. intros px.
    assert (Hrc1 : retry_count e1 = retry_count e) by (injection Hc1; auto).
    eapply bind_ex; [reflexivity|]. cbn [fst snd app].
    remember (http_get (requests io) u px) as reply eqn:Hworld. clear Hworld.
    (* what a failed attempt leads to *)
    assert (Hfail : forall fp msg,
              http_error reply = Some msg ->
              exists res s' ev2,
                (on_failure first fp >>
                 retry_loop u fields st (seq (S first) len) (Some msg)
                   (match http_page reply with Some t => Some t | None => pg end))%M
                   (bump_requests io, e1) = (Ok res, s', ev2) /\
                st_retry_post u fields first (S len) le pg e res s'
                  (EvHttpGet u px reply :: ev2)).
    { intros fp msg Herr.
      destruct (st_on_failure_run first fp (bump_requests io) e1) as (e2 & Hof & Hc2).
      apply bind_ex with (1 := Hof).
      assert (Hrc2 : retry_count e2 = retry_count e) by (injection Hc2; intros; congruence).
      destruct (IH (S first) (Some msg)
                  (match http_page reply with Some t => Some t | None => pg end)
                  (bump_requests io) e2)
        as (res & s' & ev & Hloop & Hc & Hurl & (a & Hle & Hshape & Hs1 & Hs2) & Hf & Hs & _);
        [rewrite Hrc2; lia|].
      exists res, s', ev. split; [exact Hloop|].
      destruct (failed_attempt_trace (EvHttpGet u px reply) msg (http_page reply)
                  first a len (Z.of_nat first <? retry_count e1) ev (success res) le pg)
        as (T1 & T2 & T3); auto.
      { cbn [attempt_of]. rewrite Herr. reflexivity. }
      { rewrite Z.ltb_lt. lia. }
      split; [congruence|]. split; [exact Hurl|]. split.
      { exists (S a). split; [lia|]. split; [exact T1|].
        split; [intros; lia | intros Hfl; rewrite (Hs2 Hfl); reflexivity]. }
      split; [|split; [exact Hs | intros _; eexists [], px, reply, _; reflexivity]].
      intros Hfl. destruct (Hf Hfl) as (Hd & He & Hh).
      rewrite T2, T3. auto. }
    destruct reply as [msg|msg|status reason text].
    + apply (Hfail px); reflexivity.
    + apply (Hfail None); reflexivity.
    + destruct (raise_for_status status) eqn:Hst.
      * specialize (Hfail px). cbn [http_error http_page] in Hfail. rewrite Hst in Hfail.
        apply Hfail with (msg := ("HTTP " ++ Py.str_of_int status ++ ": " ++ reason)%string).
        reflexivity.
      * destruct (bs_parse text) as [msg|] eqn:Hparse.
        -- specialize (Hfail None). cbn [http_error http_page] in Hfail.
           rewrite Hst, Hparse in Hfail. apply Hfail. reflexivity.
        -- destruct (st_on_page_run u fields st status text (bump_requests io) e1)
             as (res & io' & e' & Hop & Hc & Hurl & Hsucc & Hdata & Hhtml).
           exists res, (io', e'), []. split; [exact Hop|].
           split; [cbn [snd]; congruence|]. split; [exact Hurl|]. rewrite Hsucc.
           split.
           { exists 1%nat. split; [lia|]. split; [|split; [intros; lia | discriminate]].
             cbn [app retry_trace retry_view attempt_of http_error].
             rewrite Hst, Hparse. reflexivity. }
           split; [discriminate|].
           split; [intros _; exists text; split; assumption|].
           intros _. exists [], px, (HttpResponse status reason text), []. reflexivity.
Qed.

(** The verdict of [check_robots]: the rules the engine holds for the
    origin of the URL, or fetches with its request number [n], forbid it. *)
Definition robots_disallow (n : nat) (e : StaticEngine) (u : string) (parsed : ParsedUrl)
    (robots_url : string) : Prop :=
  let base_url := (scheme parsed ++ "://" ++ netloc parsed)%string in
  exists rules,
    can_fetch rules u = false /\
    (_robots_cache e !! base_url = Some rules \/
     (_robots_cache e !! base_url = None /\
      exists status reason,
        http_get n robots_url None = HttpResponse status reason rules)).

Definition robots_message (parsed : ParsedUrl) : string :=
  ("URL path '" ++ path parsed ++ "' is disallowed by robots.txt")%string.

Lemma st_check_robots_run (u : string) (io : IO) (e : StaticEngine) :
  exists r s' ev,
    check_robots u (io, e) = (r, s', ev) /\
    st_config (snd s') = st_config e /\
    Forall outside_retry ev /\
    (forall w, r = Ok (Some w) -> exists parsed, message w = robots_message parsed).
Proof.
  assert (Hdone : forall (r : Res (option RobotsWarning)) (s' : IO * StaticEngine)
                         (ev : list IOEvent),
            st_config (snd s') = st_config e ->
            Forall outside_retry ev ->
            (forall w, r = Ok (Some w) -> exists parsed, message w = robots_message parsed) ->
            exists r0 s0 ev0, (r, s', ev) = (r0, s0, ev0) /\
              st_config (snd s0) = st_config e /\ Forall outside_retry ev0 /\
              (forall w, r0 = Ok (Some w) ->
                 exists parsed, message w = robots_message parsed)).
  { intros r s' ev H1 H2 H3. exists r, s', ev. auto. }
  unfold check_robots, _get_client, bind, get, ret, of_res, modify, get_robots.
  cbn [fst snd].
  destruct (respect_robots e); cbn [negb];
    [| apply Hdone; [reflexivity | constructor | discriminate]].
  destruct (urlparse u) as [parsed|msg];
    [| apply Hdone; [reflexivity | constructor | discriminate]].
  destruct (urljoin _ _) as [robots_url|msg];
    [| apply Hdone; [reflexivity | constructor | discriminate]].
  destruct (_robots_cache e !! _) as [rules|] eqn:Hcache; cbn [fst snd negb app].
  - rewrite Hcache. destruct (can_fetch rules u); cbn [negb app];
      (apply Hdone; [reflexivity | constructor |]); intros w Hw;
      [discriminate | injection Hw as <-; eexists; reflexivity].
  - destruct (http_get (requests io) robots_url None) as [msg|msg|status reason text];
      cbn [fst snd negb app];
      try (apply Hdone; [reflexivity | repeat constructor | discriminate]).
    cbn [_robots_cache set_robots_cache set_client with_state].
    rewrite lookup_insert_eq. destruct (can_fetch text u); cbn [negb app];
      (apply Hdone; [reflexivity | repeat constructor |]); intros w Hw;
      [discriminate | injection Hw as <-; eexists; reflexivity].
Qed.

Lemma st_check_robots_blocks (u : string) (io : IO) (e : StaticEngine)
    (parsed : ParsedUrl) (robots_url : string) :
  respect_robots e = true ->
  urlparse u = Ok parsed ->
  urljoin (scheme parsed ++ "://" ++ netloc parsed) "/robots.txt" = Ok robots_url ->
  robots_disallow (requests io) e u parsed robots_url ->
  exists s' ev,
    check_robots u (io, e) =
      (Ok (Some {| rw_url := u; disallowed_paths := [path parsed];
                   message := robots_message parsed |}), s', ev) /\
    Forall outside_retry ev.
Proof.
  intros Hresp Hparse Hjoin (rules & Hdis & Hsrc).
  unfold check_robots, _get_client, bind, get, ret, of_res, modify, get_robots.
  cbn [fst snd]. rewrite Hresp, Hparse, Hjoin. cbn [negb].
  destruct Hsrc as [Hhit | (Hmiss & status & reason & Hget)].
  - rewrite Hhit. cbn [fst snd negb app]. rewrite Hhit, Hdis. cbn [negb app].
    eexists _, _. split; [reflexivity | constructor].
  - rewrite Hmiss. cbn [fst snd]. rewrite Hget. cbn [fst snd negb app].
    cbn [_robots_cache set_robots_cache set_client with_state].
    rewrite lookup_insert_eq, Hdis. cbn [negb app].
    eexists _, _. split; [reflexivity | repeat constructor].
Qed.

(** What [scrape] guarantees: it raises only before any page request, or
    it returns the robots refusal without any page request, or it returns
    what the retry loop gives for [retry_count + 1] attempts. *)
Definition st_scrape_post (u : string) (fields : list Project.SelectorField)
    (e : StaticEngine) (r : Res ScrapeResult) (s' : IO * StaticEngine)
    (ev : list IOEvent) : Prop :=
  match r with
  | Raise _ => Forall outside_retry ev
  | Ok res =>
      (Forall outside_retry ev /\
       exists parsed,
         res = failed_result u
                 (Some ("Blocked by robots.txt: " ++ robots_message parsed)%string)
                 (elapsed_ms res) None) \/
      st_retry_post u fields 0 (Z.to_nat (retry_count e + 1)) None None e res s' ev
  end.

Lemma st_retry_post_prefix u fields first len le pg e e0 res s' ev0 ev :
  Forall outside_retry ev0 ->
  st_config e = st_config e0 ->
  st_retry_post u fields first len le pg e res s' ev ->
  st_retry_post u fields first len le pg e0 res s' (ev0 ++ ev).
Proof.
  intros Hq Hc (H1 & H2 & (a & Ha & Hshape & Hs1 & Hs2) & Hf & Hs & Hfirst).
  destruct (outside_retry_neutral ev0 ev le pg Hq) as (N1 & N2 & N3).
  split; [congruence|]. split; [exact H2|]. split; [|split; [|split]].
  - exists a. rewrite N1. auto.
  - rewrite N2, N3. auto.
  - exact Hs.
  - intros Hlen. destruct (Hfirst Hlen) as (ev1 & px & reply & ev2 & ->).
    exists (ev0 ++ ev1), px, reply, ev2. rewrite app_assoc. reflexivity.
Qed.

Lemma st_scrape_run (u : string) (fields : list Project.SelectorField)
    (io : IO) (e : StaticEngine) :
  exists r s' ev, scrape u fields (io, e) = (r, s', ev) /\ st_scrape_post u fields e r s' ev.
Proof.
  unfold scrape.
  eapply bind_any; [reflexivity|].
  eapply bind_any; [reflexivity|]. cbn [fst snd app].
  destruct (st_check_robots_run u (bump_clock io) (set_client true e))
    as (r & s1 & ev1 & Hrob & Hc1 & Hq1 & Hmsg).
  destruct r as [[w|]|msg].
  - apply bind_any with (1 := Hrob). cbn beta iota.
    eapply bind_any; [reflexivity|]. cbn [fst snd app].
    eexists _, _, _. split; [reflexivity|].
    cbn [st_scrape_post]. left. rewrite !app_nil_r. split; [exact Hq1|].
    destruct (Hmsg w eq_refl) as (parsed & ->). exists parsed. reflexivity.
  - apply bind_any with (1 := Hrob). cbn beta iota.
    destruct s1 as [io1 e1]. cbn [snd] in Hc1.
    destruct (st_wait_rate_limit_run io1 e1) as (rw & io2 & ev2 & Hw & Hq2 & _).
    destruct rw as [[]|msg];
      [| apply bind_raised with (1 := Hw); cbn [st_scrape_post];
         apply Forall_app; auto].
    apply bind_any with (1 := Hw).
    eapply bind_any; [reflexivity|]. cbn [fst snd app].
    destruct (st_retry_loop_run u fields (time_time (clock_reads io))
                (Z.to_nat (retry_count e1 + 1)) 0 None None io2 e1)
      as (res & s' & ev & Hloop & Hpost); [lia|].
    exists (Ok res), s', ev. split; [exact Hloop|].
    cbn [st_scrape_post app]. right. rewrite app_assoc.
    assert (retry_count e1 = retry_count e) as Hrc by (injection Hc1; auto).
    rewrite <- Hrc.
    apply st_retry_post_prefix with (e := e1);
      [apply Forall_app; auto | exact Hc1 | exact Hpost].
  - apply bind_raised with (1 := Hrob). cbn [st_scrape_post]. exact Hq1.
Qed.
End StaticFacts.

(** ** The browser engine *)

Section JsFacts.
Import Base PlaywrightEngine.
Context `{W : World}.

Definition js_config (e : PlaywrightEngine) :=
  (rate_limit e, proxy e, retry_count e, save_html_on_error e, respect_robots e,
   detect_duplicates e).

Lemma js_get_proxy_run (io : IO) (e : PlaywrightEngine) :
  exists px e', _get_proxy (io, e) = (Ok px, (io, e'), []) /\
                js_config e' = js_config e /\
                _playwright e' = _playwright e /\ _semaphore e' = _semaphore e /\
                _robots_cache e' = _robots_cache e.
Proof.
  unfold _get_proxy, bind, get, ret, modify. cbn [fst snd].
  destruct (negb (Project.enabled (proxy e)) || bool_decide (Project.proxies (proxy e) = []));
    [eexists _, _; repeat split; reflexivity|].
  destruct (filter _ _) as [|a l]; cbn [fst snd app];
    destruct (Project.rotate (proxy e)); cbn [fst snd app];
    eexists _, _; repeat split; reflexivity.
Qed.

Lemma js_on_failure_run (attempt : nat) (io : IO) (e : PlaywrightEngine) :
  exists e', on_failure attempt (io, e) =
               (Ok tt, (io, e'),
                if Z.of_nat attempt <? retry_count e
                then [EvSleep RetryBackoff (inject_Z (2 ^ Z.of_nat attempt))] else []) /\
             js_config e' = js_config e /\ _robots_cache e' = _robots_cache e.
Proof.
  unfold on_failure, bind, get, ret, modify, when, sleep, emit.
  cbn [fst snd app retry_count set_consecutive_errors with_state].
  destruct (Z.of_nat attempt <? retry_count e); eexists; repeat split; reflexivity.
Qed.

Lemma js_on_page_run (u : string) (fields : list Project.SelectorField) (st : Q)
    (status : option Z) (content : string) (io : IO) (e : PlaywrightEngine) :
  exists res io' e',
    on_page u fields st status content (io, e) = (Ok res, (io', e'), []) /\
    js_config e' = js_config e /\ _robots_cache e' = _robots_cache e /\
    url res = u /\ success res = true /\
    data res = extract_data content fields /\ html res = None.
Proof.
  unfold on_page, bind, get, ret, modify, when, elapsed_since, now. cbn [fst snd].
  destruct (detect_duplicates e) eqn:Hd; cbn [andb].
  - destruct (bool_decide _); cbn [fst snd app]; eexists _, _, _; repeat split; reflexivity.
  - cbn [fst snd app]. eexists _, _, _; repeat split; reflexivity.
Qed.

Lemma js_wait_rate_limit_run (io : IO) (e : PlaywrightEngine) :
  exists r io' ev,
    _wait_rate_limit (io, e) = (r, (io', e), ev) /\ Forall outside_retry ev /\
    requests io' = requests io /\
    match r with
    | Ok _ => backoff_overflows (rate_limit e) (_consecutive_errors e) = false
    | Raise msg => msg = overflow_error /\
                   backoff_overflows (rate_limit e) (_consecutive_errors e) = true /\
                   ev = [] /\ io' = io
    end.
Proof.
  apply (wait_outcome_run (rate_limit e) (_consecutive_errors e) (io, e)).
  unfold _wait_rate_limit. rewrite bind_get. apply wait_outcome_of.
Qed.

Lemma js_visit_run (u : string) (io : IO) (e : PlaywrightEngine) :
  exists reply io',
    visit (_semaphore e) u (io, e) = (Ok reply, (io', e), [EvVisit u reply]).
Proof. unfold visit. destruct (_semaphore e); eexists _, _; reflexivity. Qed.

Lemma js_init_browser_run (io : IO) (e : PlaywrightEngine) :
  exists r s' ev,
    _init_browser (io, e) = (r, s', ev) /\
    js_config (snd s') = js_config e /\ _robots_cache (snd s') = _robots_cache e /\
    Forall outside_retry ev.
Proof.
  unfold _init_browser. unfold bind at 1, get at 1. cbn [fst snd].
  destruct (_playwright e);
    [eexists _, _, _; split; [reflexivity|]; repeat split; constructor|].
  unfold bind at 1, start_playwright at 1. cbn [fst snd].
  destruct (playwright_start (requests io));
    [eexists _, _, _; split; [reflexivity|]; repeat split; repeat constructor|].
  unfold bind at 1, modify at 1. cbn [fst snd].
  destruct (js_get_proxy_run (bump_requests io) (set_playwright true e))
    as (px & e1 & Hpx & Hc1 & _ & _ & Hr1).
  unfold bind at 1. rewrite Hpx.
  unfold bind, launch_browser, modify. cbn [fst snd].
  destruct (browser_launch _ (Py.nonempty px)); cbn [app];
    eexists _, _, _; (split; [reflexivity|]); cbn [snd];
    (split; [exact Hc1 | split; [exact Hr1 | repeat constructor]]).
Qed.

(** What the retry loop of the browser engine guarantees. *)
Definition js_retry_post (u : string) (fields : list Project.SelectorField)
    (first len : nat) (le pg : option string) (e : PlaywrightEngine)
    (res : ScrapeResult) (s' : IO * PlaywrightEngine) (ev : list IOEvent) : Prop :=
  js_config (snd s') = js_config e /\
  _robots_cache (snd s') = _robots_cache e /\
  url res = u /\
  (exists a, (a <= len)%nat /\
     retry_trace ev = retry_shape first a (success res) /\
     (success res = true -> (1 <= a)%nat) /\
     (success res = false -> a = len)) /\
  (success res = false ->
     data res = ∅ /\ error res = last_error ev le /\
     html res = if save_html_on_error e then last_page ev pg else None) /\
  (success res = true ->
     exists content, data res = extract_data content fields /\ html res = None) /\
  ((1 <= len)%nat -> exists ev1 reply ev2, ev = ev1 ++ EvVisit u reply :: ev2).

Lemma js_retry_loop_run (u : string) (fields : list Project.SelectorField) (st : Q) :
  forall (len first : nat) (le pg : option string) (io : IO) (e : PlaywrightEngine),
    Z.to_nat (retry_count e + 1) = (first + len)%nat ->
    exists res s' ev,
      retry_loop u fields st (seq first len) le pg (io, e) = (Ok res, s', ev) /\
      js_retry_post u fields first len le pg e res s' ev.
Proof.
  induction len as [|len IH]; intros first le pg io e Hn.
  - cbn [seq retry_loop]. unfold bind, elapsed_since, now, get, ret. cbn [fst snd app].
    eexists _, _, _. split; [reflexivity|]. unfold js_retry_post.
    split; [reflexivity|]. split; [reflexivity|]. split; [reflexivity|].
    cbn [success failed_result html data error].
    split; [exists 0%nat; repeat split; [lia | discriminate]|].
    split; [intros _; repeat split|]. split; [discriminate | intros; lia].
  - cbn [seq retry_loop].
    eapply bind_ex; [reflexivity|]. cbn [fst snd app].
    destruct (js_visit_run u io e) as (reply & io1 & Hvisit).
    apply bind_ex with (1 := Hvisit). cbn [app].
    assert (Hfail : forall msg,
              browser_error reply = Some msg ->
              exists res s' ev2,
                (on_failure first >>
                 retry_loop u fields st (seq (S first) len) (Some msg)
                   (match browser_page reply with Some t => Some t | None => pg end))%M
                   (io1, e) = (Ok res, s', ev2) /\
                js_retry_post u fields first (S len) le pg e res s'
                  (EvVisit u reply :: ev2)).
    { intros msg Herr.
      destruct (js_on_failure_run first io1 e) as (e2 & Hof & Hc2 & Hr2).
      apply bind_ex with (1 := Hof).
      assert (Hrc2 : retry_count e2 = retry_count e) by (injection Hc2; intros; congruence).
      assert (Hsv2 : save_html_on_error e2 = save_html_on_error e)
        by (injection Hc2; intros; congruence).
      destruct (IH (S first) (Some msg)
                  (match browser_page reply with Some t => Some t | None => pg end) io1 e2)
        as (res & s' & ev & Hloop & Hc & Hr & Hurl & (a & Hle & Hshape & Hs1 & Hs2) & Hf & Hs & _);
        [rewrite Hrc2; lia|].
      exists res, s', ev. split; [exact Hloop|].
      destruct (failed_attempt_trace (EvVisit u reply) msg (browser_page reply)
                  first a len (Z.of_nat first <? retry_count e) ev (success res) le pg)
        as (T1 & T2 & T3); auto.
      { cbn [attempt_of]. rewrite Herr. reflexivity. }
      { rewrite Z.ltb_lt. lia. }
      split; [congruence|]. split; [congruence|]. split; [exact Hurl|]. split.
      { exists (S a). split; [lia|]. split; [exact T1|].
        split; [intros; lia | intros Hfl; rewrite (Hs2 Hfl); reflexivity]. }
      split; [|split; [exact Hs | intros _; eexists [], reply, _; reflexivity]].
      intros Hfl. destruct (Hf Hfl) as (Hd & He & Hh).
      rewrite T2, T3, <- Hsv2. auto. }
    destruct reply as [msg|status content [msg|]].
    + apply Hfail. reflexivity.
    + apply Hfail. reflexivity.
    + destruct (js_on_page_run u fields st status content io1 e)
        as (res & io' & e' & Hop & Hc & Hr & Hurl & Hsucc & Hdata & Hhtml).
      exists res, (io', e'), []. split; [exact Hop|].
      split; [exact Hc|]. split; [exact Hr|]. split; [exact Hurl|]. rewrite Hsucc.
      split.
      { exists 1%nat. split; [lia|]. split; [|split; [intros; lia | discriminate]].
        reflexivity. }
      split; [discriminate|].
      split; [intros _; exists content; split; assumption|].
      intros _. exists [], (BrowserPage status content None), []. reflexivity.
Qed.

Lemma js_retry_post_prefix u fields first len le pg e e0 res s' ev0 ev :
  Forall outside_retry ev0 ->
  js_config e = js_config e0 ->
  _robots_cache e = _robots_cache e0 ->
  js_retry_post u fields first len le pg e res s' ev ->
  js_retry_post u fields first len le pg e0 res s' (ev0 ++ ev).
Proof.
  intros Hq Hc Hr (H1 & H1' & H2 & (a & Ha & Hshape & Hs1 & Hs2) & Hf & Hs & Hfirst).
  destruct (outside_retry_neutral ev0 ev le pg Hq) as (N1 & N2 & N3).
  assert (save_html_on_error e = save_html_on_error e0) as Hsv by (injection Hc; auto).
  split; [congruence|]. split; [congruence|]. split; [exact H2|]. split; [|split; [|split]].
  - exists a. rewrite N1. auto.
  - rewrite N2, N3, <- Hsv. auto.
  - exact Hs.
  - intros Hlen. destruct (Hfirst Hlen) as (ev1 & reply & ev2 & ->).
    exists (ev0 ++ ev1), reply, ev2. rewrite app_assoc. reflexivity.
Qed.

(** What [scrape] guarantees in the browser engine: it raises only while
    bringing the browser up, before any attempt, or it returns what the
    retry loop gives for [retry_count + 1] attempts. *)
Definition js_scrape_post (u : string) (fields : list Project.SelectorField)
    (e : PlaywrightEngine) (r : Res ScrapeResult) (s' : IO * PlaywrightEngine)
    (ev : list IOEvent) : Prop :=
  match r with
  | Raise _ => Forall outside_retry ev
  | Ok res =>
      js_retry_post u fields 0 (Z.to_nat (retry_count e + 1)) None None e res s' ev
  end.

Lemma js_scrape_run (u : string) (fields : list Project.SelectorField)
    (io : IO) (e : PlaywrightEngine) :
  exists r s' ev, scrape u fields (io, e) = (r, s', ev) /\ js_scrape_post u fields e r s' ev.
Proof.
  unfold scrape.
  destruct (js_init_browser_run io e) as (r & [io1 e1] & ev1 & Hinit & Hc1 & Hr1 & Hq1).
  cbn [snd] in Hc1, Hr1.
  destruct r as [[]|msg];
    [| apply bind_raised with (1 := Hinit); exact Hq1].
  apply bind_any with (1 := Hinit).
  eapply bind_any; [reflexivity|]. cbn [fst snd app].
  destruct (js_wait_rate_limit_run (bump_clock io1) e1) as (rw & io2 & ev2 & Hw & Hq2 & _).
  destruct rw as [[]|msg];
    [| apply bind_raised with (1 := Hw); cbn [js_scrape_post];
       apply Forall_app; auto].
  apply bind_any with (1 := Hw).
  eapply bind_any; [reflexivity|]. cbn [fst snd app].
  destruct (js_retry_loop_run u fields (time_time (clock_reads io1))
              (Z.to_nat (retry_count e1 + 1)) 0 None None io2 e1)
    as (res & s' & ev & Hloop & Hpost); [lia|].
  exists (Ok res), s', ev. split; [exact Hloop|].
  cbn [js_scrape_post app]. rewrite app_assoc.
  assert (retry_count e1 = retry_count e) as Hrc by (injection Hc1; auto).
  rewrite <- Hrc.
  apply js_retry_post_prefix with (e := e1);
    [apply Forall_app; auto | exact Hc1 | exact Hr1 | exact Hpost].
Qed.
End JsFacts.

(** ** The extracted-data map *)

Section ExtractedData.
Import Base.

Lemma dom_fold_insert (g : Project.SelectorField -> option string)
    (fields : list Project.SelectorField) (acc : gmap string (option string)) :
  dom (fold_left (fun d f => <[Project.name f := g f]> d) fields acc) =
  dom acc ∪ list_to_set (map Project.name fields).
Proof.
  revert acc. induction fields as [|f fields IH]; intros acc; cbn [fold_left map list_to_set].
  - symmetry. apply (right_id_L ∅ (∪)).
  - rewrite IH, dom_insert_L.
    rewrite (comm_L (∪) {[Project.name f]} (dom acc)). symmetry. apply (assoc_L (∪)).
Qed.

Lemma one_entry_per_name (d : gmap string (option string))
    (fields : list Project.SelectorField) :
  dom d = list_to_set (map Project.name fields) ->
  (forall f, f ∈ fields -> is_Some (d !! Project.name f)) /\
  (forall k, is_Some (d !! k) -> exists f, f ∈ fields /\ Project.name f = k) /\
  (NoDup (map Project.name fields) -> size d = length fields).
Proof.
  intros Hdom. split; [|split].
  - intros f Hf. apply elem_of_dom. rewrite Hdom. apply elem_of_list_to_set.
    apply list_elem_of_fmap. exists f. auto.
  - intros k Hk. apply elem_of_dom in Hk. rewrite Hdom in Hk.
    apply elem_of_list_to_set, list_elem_of_fmap in Hk as (f & -> & Hf). eauto.
  - intros Hnd. rewrite <- size_dom, Hdom, size_list_to_set by exact Hnd.
    apply length_map.
Qed.
End ExtractedData.

(** The page is never reached: every request is refused by the network. *)
Definition failing_scrape :=
  @StaticEngine.scrape offline_world "https://example.com/a" [title_field]
    (Base.io0, static_engine 1).

(** Two rules with the same name, on a page that answers. *)
Definition same_name_scrape :=
  @StaticEngine.scrape online_world "https://example.com/a" [title_field; title_field]
    (Base.io0, static_engine 1).

(** C3, as stated, fails: a result returned on the failure path has no
    entry for the one rule it was given, and a successful result has a
    single entry for two rules of the same name. *)
Lemma scrape_entries_differ_from_rules :
  (exists res s' ev,
     failing_scrape = (Base.Ok res, s', ev) /\ Base.success res = false /\
     size (Base.data res) = 0%nat /\ length [title_field] = 1%nat) /\
  (exists res s' ev,
     same_name_scrape = (Base.Ok res, s', ev) /\ Base.success res = true /\
     size (Base.data res) = 1%nat /\ length [title_field; title_field] = 2%nat).
Proof.
  split; eexists _, _, _; (split; [vm_compute; reflexivity|]);
    repeat split; vm_compute; reflexivity.
Qed.

(** C3 (amended). In both engines a call to [scrape] returns (or raises
    before any page request), and a successful result has exactly one
    entry per rule name, possibly null: every rule has an entry, every
    entry belongs to a rule, and for rules with distinct names the number
    of entries is the number of rules. A failed result has an empty map. *)
Theorem scrape_data_entries `{W : Base.World} (u : string)
    (fields : list Project.SelectorField) :
  (forall (io : Base.IO) (e : StaticEngine.StaticEngine),
     exists r s' ev,
       StaticEngine.scrape u fields (io, e) = (r, s', ev) /\
       forall res, r = Base.Ok res ->
         (Base.success res = true ->
            (forall f, f ∈ fields -> is_Some (Base.data res !! Project.name f)) /\
            (forall k, is_Some (Base.data res !! k) ->
               exists f, f ∈ fields /\ Project.name f = k) /\
            (NoDup (map Project.name fields) -> size (Base.data res) = length fields)) /\
         (Base.success res = false -> Base.data res = ∅)) /\
  (forall (io : Base.IO) (e : PlaywrightEngine.PlaywrightEngine),
     exists r s' ev,
       PlaywrightEngine.scrape u fields (io, e) = (r, s', ev) /\
       forall res, r = Base.Ok res ->
         (Base.success res = true ->
            (forall f, f ∈ fields -> is_Some (Base.data res !! Project.name f)) /\
            (forall k, is_Some (Base.data res !! k) ->
               exists f, f ∈ fields /\ Project.name f = k) /\
            (NoDup (map Project.name fields) -> size (Base.data res) = length fields)) /\
         (Base.success res = false -> Base.data res = ∅)).
Proof.
  split; intros io e.
  - destruct (st_scrape_run u fields io e) as (r & s' & ev & Hrun & Hpost).
    exists r, s', ev. split; [exact Hrun|]. intros res ->. cbn [st_scrape_post] in Hpost.
    destruct Hpost as [(_ & parsed & Hres) | (_ & _ & _ & Hf & Hs & _)].
    + rewrite Hres. cbn [Base.success Base.data Base.failed_result].
      split; [discriminate | reflexivity].
    + split; [|intros Hfl; apply (Hf Hfl)].
      intros Hok. destruct (Hs Hok) as (text & Hdata & _).
      apply one_entry_per_name. rewrite Hdata. unfold StaticEngine.extract_data.
      rewrite dom_fold_insert, dom_empty_L. apply (left_id_L ∅ (∪)).
  - destruct (js_scrape_run u fields io e) as (r & s' & ev & Hrun & Hpost).
    exists r, s', ev. split; [exact Hrun|]. intros res ->. cbn [js_scrape_post] in Hpost.
    destruct Hpost as (_ & _ & _ & _ & Hf & Hs & _).
    split; [|intros Hfl; apply (Hf Hfl)].
    intros Hok. destruct (Hs Hok) as (content & Hdata & _).
    apply one_entry_per_name. rewrite Hdata. unfold PlaywrightEngine.extract_data.
    rewrite dom_fold_insert, dom_empty_L. apply (left_id_L ∅ (∪)).
Qed.

Lemma scrape_data_entries_witness :
  exists res s' ev,
    @StaticEngine.scrape online_world "https://example.com/a" [title_field]
      (Base.io0, static_engine 1) = (Base.Ok res, s', ev) /\
    size (Base.data res) = 1%nat.
Proof.
  destruct (@scrape_data_entries online_world "https://example.com/a" [title_field])
    as [Hstatic _].
  destruct (Hstatic Base.io0 (static_engine 1)) as (r & s' & ev & Hrun & Hres).
  assert (exists res, r = Base.Ok res /\ Base.success res = true) as (res & -> & Hok).
  { vm_compute in Hrun. injection Hrun as <- _ _. eexists. split; reflexivity. }
  exists res, s', ev. split; [exact Hrun|].
  destruct (Hres res eq_refl) as [Hsucc _].
  apply (Hsucc Hok). apply NoDup_singleton.
Defined.

(** ** Retries, backoff and the failed result *)

(** The first two visits of a page fail at the network level, the third
    is answered. *)
Definition flaky_world : Base.World :=
  scripted_world
    (fun n _ _ => if (n <? 2)%nat then Base.HttpRequestError "timed out"
                  else Base.HttpResponse 200 "OK" "<html></html>")
    (fun n _ => if (n <? 4)%nat then Base.BrowserFailed "Timeout 30000ms exceeded"
                else Base.BrowserPage (Some 200) "<html></html>" None).

(** Every page is delivered and then rejected by the parser. *)
Definition garbled_world : Base.World :=
  scripted_world (fun _ _ _ => Base.HttpResponse 200 "OK" "<garbled>")
                 (fun _ _ => Base.BrowserPage (Some 200) "<garbled>" (Some "crashed")).

(** [StaticEngine(retry_count=1, save_html_on_error=False, respect_robots=False)] *)
Definition discreet_engine : StaticEngine.StaticEngine :=
  StaticEngine.init Project.default_rate_limit Project.default_proxy 30%Q [] 1
    false false true.

Section RetryFacts.
Import Base.
Context `{W : World}.

Lemma outside_retry_trace (ev : list IOEvent) :
  Forall outside_retry ev -> retry_trace ev = [].
Proof.
  intros Hq. destruct (outside_retry_neutral ev [] None None Hq) as (H & _ & _).
  rewrite app_nil_r in H. exact H.
Qed.
End RetryFacts.

(** C7. In both engines [scrape] returns (or raises before any attempt)
    after at most [retry_count + 1] attempts. Seen as attempts and backoff
    sleeps, its trace is: failed attempt 0, sleep of 2^0 = 1 second,
    failed attempt 1, sleep of 2^1 = 2 seconds, and so on up to a last
    attempt with no sleep after it. The result is successful exactly when
    that last attempt succeeded, so nothing follows a successful attempt;
    a failed result means that all [retry_count + 1] attempts were made
    (or, in the plain-HTTP engine, none because robots.txt refused). *)
Theorem scrape_retries_with_backoff `{W : Base.World} (u : string)
    (fields : list Project.SelectorField) :
  (forall (io : Base.IO) (e : StaticEngine.StaticEngine),
     exists r s' ev,
       StaticEngine.scrape u fields (io, e) = (r, s', ev) /\
       match r with
       | Base.Raise _ => retry_trace ev = []
       | Base.Ok res =>
           exists attempts,
             (attempts <= Z.to_nat (StaticEngine.retry_count e + 1))%nat /\
             retry_trace ev = retry_shape 0 attempts (Base.success res) /\
             (Base.success res = true -> (1 <= attempts)%nat) /\
             (Base.success res = false ->
                attempts = Z.to_nat (StaticEngine.retry_count e + 1) \/
                (attempts = 0%nat /\
                 exists parsed,
                   Base.error res =
                     Some ("Blocked by robots.txt: " ++ robots_message parsed)%string))
       end) /\
  (forall (io : Base.IO) (e : PlaywrightEngine.PlaywrightEngine),
     exists r s' ev,
       PlaywrightEngine.scrape u fields (io, e) = (r, s', ev) /\
       match r with
       | Base.Raise _ => retry_trace ev = []
       | Base.Ok res =>
           exists attempts,
             (attempts <= Z.to_nat (PlaywrightEngine.retry_count e + 1))%nat /\
             retry_trace ev = retry_shape 0 attempts (Base.success res) /\
             (Base.success res = true -> (1 <= attempts)%nat) /\
             (Base.success res = false ->
                attempts = Z.to_nat (PlaywrightEngine.retry_count e + 1))
       end).
Proof.
  split; intros io e.
  - destruct (st_scrape_run u fields io e) as (r & s' & ev & Hrun & Hpost).
    exists r, s', ev. split; [exact Hrun|]. destruct r as [res|msg]; cbn [st_scrape_post] in Hpost.
    + destruct Hpost as [(Hq & parsed & Hres) | (_ & _ & (a & Ha & Hshape & Hs1 & Hs2) & _)].
      * exists 0%nat. split; [lia|]. split; [apply outside_retry_trace; exact Hq|].
        rewrite Hres. cbn [Base.success Base.error Base.failed_result].
        split; [discriminate|]. intros _. right. split; [reflexivity|].
        exists parsed. reflexivity.
      * exists a. split; [exact Ha|]. split; [exact Hshape|]. split; [exact Hs1|].
        intros Hfl. left. exact (Hs2 Hfl).
    + apply outside_retry_trace. exact Hpost.
  - destruct (js_scrape_run u fields io e) as (r & s' & ev & Hrun & Hpost).
    exists r, s', ev. split; [exact Hrun|]. destruct r as [res|msg]; cbn [js_scrape_post] in Hpost.
    + destruct Hpost as (_ & _ & _ & (a & Ha & Hshape & Hs1 & Hs2) & _).
      exists a. auto.
    + apply outside_retry_trace. exact Hpost.
Qed.

(** The scenario of the specification: [retry_count = 2], two network
    errors, then a page. *)
Lemma scrape_retries_with_backoff_witness :
  exists res s' ev,
    @StaticEngine.scrape flaky_world "https://example.com/a" [title_field]
      (Base.io0, static_engine 2) = (Base.Ok res, s', ev) /\
    Base.success res = true /\
    @retry_trace flaky_world ev =
      [inl false; inr 1%Q; inl false; inr 2%Q; inl true].
Proof.
  destruct (@scrape_retries_with_backoff flaky_world "https://example.com/a" [title_field])
    as [Hstatic _].
  destruct (Hstatic Base.io0 (static_engine 2)) as (r & s' & ev & Hrun & Hshape).
  assert (exists res, r = Base.Ok res /\ Base.success res = true /\
                      length (@retry_trace flaky_world ev) = 5%nat)
    as (res & -> & Hok & Hlen).
  { vm_compute in Hrun. injection Hrun as <- _ <-. eexists. repeat split. }
  exists res, s', ev. split; [exact Hrun|]. split; [exact Hok|].
  destruct Hshape as (attempts & Hle & Htrace & _ & _).
  rewrite Htrace in Hlen |- *. rewrite Hok in Hlen |- *.
  destruct attempts as [|[|[|[|]]]]; cbn in Hlen; try discriminate; try lia.
  reflexivity.
Defined.

(** C5, as stated, fails for the plain-HTTP engine: with
    [save_html_on_error] off, the failed result of a call whose pages were
    delivered and then rejected by the parser still carries the page. *)
Lemma static_failure_keeps_page :
  exists res s' ev,
    @StaticEngine.scrape garbled_world "https://example.com/a" [title_field]
      (Base.io0, discreet_engine) = (Base.Ok res, s', ev) /\
    StaticEngine.save_html_on_error discreet_engine = false /\
    Base.success res = false /\
    Base.error res = Some "Unexpected error: markup rejected"%string /\
    Base.html res = Some "<garbled>"%string.
Proof. eexists _, _, _. split; [vm_compute; reflexivity|]. repeat split. Qed.

(** C5 (amended). A result that [scrape] returns after exhausting all
    attempts is failed with the error of the last attempt. In the browser
    engine it carries the page content last read only if
    [save_html_on_error] is set, and none otherwise; in the plain-HTTP
    engine it carries the page content last read, if any was, whatever
    that setting. (The plain-HTTP engine also fails, with no page content,
    when robots.txt refuses the URL.) *)
Theorem failed_result_contents `{W : Base.World} (u : string)
    (fields : list Project.SelectorField) :
  (forall (io : Base.IO) (e : StaticEngine.StaticEngine),
     exists r s' ev,
       StaticEngine.scrape u fields (io, e) = (r, s', ev) /\
       forall res, r = Base.Ok res -> Base.success res = false ->
         (Base.error res = last_error ev None /\ Base.html res = last_page ev None) \/
         (retry_trace ev = [] /\ Base.html res = None /\
          exists parsed,
            Base.error res =
              Some ("Blocked by robots.txt: " ++ robots_message parsed)%string)) /\
  (forall (io : Base.IO) (e : PlaywrightEngine.PlaywrightEngine),
     exists r s' ev,
       PlaywrightEngine.scrape u fields (io, e) = (r, s', ev) /\
       forall res, r = Base.Ok res -> Base.success res = false ->
         Base.error res = last_error ev None /\
         Base.html res =
           if PlaywrightEngine.save_html_on_error e then last_page ev None else None).
Proof.
  split; intros io e.
  - destruct (st_scrape_run u fields io e) as (r & s' & ev & Hrun & Hpost).
    exists r, s', ev. split; [exact Hrun|]. intros res -> Hfl. cbn [st_scrape_post] in Hpost.
    destruct Hpost as [(Hq & parsed & Hres) | (_ & _ & _ & Hf & _)].
    + right. split; [apply outside_retry_trace; exact Hq|]. rewrite Hres.
      split; [reflexivity|]. exists parsed. reflexivity.
    + left. destruct (Hf Hfl) as (_ & He & Hh). auto.
  - destruct (js_scrape_run u fields io e) as (r & s' & ev & Hrun & Hpost).
    exists r, s', ev. split; [exact Hrun|]. intros res -> Hfl. cbn [js_scrape_post] in Hpost.
    destruct Hpost as (_ & _ & _ & _ & Hf & _).
    destruct (Hf Hfl) as (_ & He & Hh). auto.
Qed.

Lemma failed_result_contents_witness :
  exists res s' ev,
    @PlaywrightEngine.scrape garbled_world "https://example.com/a" [title_field]
      (Base.io0, js_engine 1 false) = (Base.Ok res, s', ev) /\
    Base.error res = Some "crashed"%string /\ Base.html res = None.
Proof.
  destruct (@failed_result_contents garbled_world "https://example.com/a" [title_field])
    as [_ Hjs].
  destruct (Hjs Base.io0 (js_engine 1 false)) as (r & s' & ev & Hrun & Hres).
  assert (exists res, r = Base.Ok res /\ Base.success res = false /\
                      @last_error garbled_world ev None = Some "crashed"%string)
    as (res & -> & Hfl & Hlast).
  { vm_compute in Hrun. injection Hrun as <- _ <-. eexists. repeat split. }
  exists res, s', ev. split; [exact Hrun|].
  destruct (Hres res eq_refl Hfl) as [He Hh]. rewrite He, Hh, Hlast. split; reflexivity.
Defined.

(** ** robots.txt *)

(** The robots.txt of every origin forbids everything; pages are served. *)
Definition forbidding_world : Base.World :=
  scripted_world (fun _ _ _ => Base.HttpResponse 200 "OK" "Disallow: /")
                 (fun _ _ => Base.BrowserPage (Some 200) "<html></html>" None).

(** [StaticEngine(retry_count=1)], which respects robots.txt by default. *)
Definition polite_engine : StaticEngine.StaticEngine :=
  StaticEngine.init Project.default_rate_limit Project.default_proxy 30%Q [] 1
    true true true.

Section BrowserFetch.
Import Base PlaywrightEngine.
Context `{W : World}.

Lemma js_on_page_requests (u : string) (fields : list Project.SelectorField) (st : Q)
    (status : option Z) (content : string) (io : IO) (e : PlaywrightEngine) r io' e' ev :
  on_page u fields st status content (io, e) = (r, (io', e'), ev) ->
  requests io' = requests io.
Proof.
  unfold on_page, bind, get, ret, modify, when, elapsed_since, now. cbn [fst snd].
  destruct (detect_duplicates e); cbn [andb];
    [destruct (bool_decide _)|]; cbn [fst snd app]; intros [= _ <- _ _]; reflexivity.
Qed.

Lemma js_retry_loop_requests (u : string) (fields : list Project.SelectorField) (st : Q) :
  forall (attempts : list nat) (le pg : option string) (io : IO) (e : PlaywrightEngine)
         r io' e' ev,
    retry_loop u fields st attempts le pg (io, e) = (r, (io', e'), ev) ->
    (requests io <= requests io')%nat.
Proof.
  induction attempts as [|attempt rest IH]; intros le pg io e r io' e' ev; cbn [retry_loop].
  - unfold bind, elapsed_since, now, get, ret. cbn [fst snd app].
    intros [= _ <- _ _]. reflexivity.
  - unfold bind at 1, get at 1. cbn [fst snd].
    destruct (js_visit_run u io e) as (reply & io1 & Hvisit).
    assert (Hreq1 : (requests io <= requests io1)%nat).
    { revert Hvisit. unfold visit. destruct (_semaphore e); intros [= _ <-];
        cbn [requests bump_requests]; lia. }
    unfold bind at 1. rewrite Hvisit.
    destruct (js_on_failure_run attempt io1 e) as (e2 & Hof & _).
    assert (Hfail : forall le' pg',
              (on_failure attempt >> retry_loop u fields st rest le' pg')%M (io1, e) =
                (let '(r0, s0, ev0) := retry_loop u fields st rest le' pg' (io1, e2) in
                 (r0, s0,
                  (if Z.of_nat attempt <? retry_count e
                   then [EvSleep RetryBackoff (inject_Z (2 ^ Z.of_nat attempt))]
                   else []) ++ ev0))).
    { intros le' pg'. unfold bind at 1. rewrite Hof. reflexivity. }
    destruct reply as [msg|status content [msg|]].
    + rewrite Hfail.
      destruct (retry_loop u fields st rest (Some msg) pg (io1, e2)) as [[r0 [io0 e0]] ev0] eqn:Hrest.
      intros [= _ <- _ _]. pose proof (IH _ _ _ _ _ _ _ _ Hrest). lia.
    + rewrite Hfail.
      destruct (retry_loop u fields st rest (Some msg) (Some content) (io1, e2))
        as [[r0 [io0 e0]] ev0] eqn:Hrest.
      intros [= _ <- _ _]. pose proof (IH _ _ _ _ _ _ _ _ Hrest). lia.
    + destruct (on_page u fields st status content (io1, e)) as [[r0 [io0 e0]] ev0] eqn:Hpage.
      intros [= _ <- _ _]. rewrite (js_on_page_requests _ _ _ _ _ _ _ _ _ _ _ Hpage). exact Hreq1.
Qed.

(** With the browser up, the first attempt of the retry loop asks the
    browser for the page, and a page read without error is the result. *)
Lemma js_first_visit (u : string) (fields : list Project.SelectorField) (st : Q)
    (attempt : nat) (rest : list nat) (le pg : option string) (io : IO)
    (e : PlaywrightEngine) :
  _semaphore e = true ->
  exists r s' ev2,
    retry_loop u fields st (attempt :: rest) le pg (io, e) =
      (r, s', EvVisit u (page_visit (requests io) u) :: ev2) /\
    (requests io < requests (fst s'))%nat /\
    forall status content,
      page_visit (requests io) u = BrowserPage status content None ->
      ev2 = [] /\
      exists res, r = Ok res /\ success res = true /\
                  data res = extract_data content fields.
Proof.
  intros Hsem. cbn [retry_loop]. unfold bind at 1, get at 1. cbn [fst snd]. rewrite Hsem.
  unfold bind at 1, visit at 1. cbn [fst snd].
  destruct (page_visit (requests io) u) as [msg|status content [msg|]] eqn:Hreply.
  - destruct ((on_failure attempt >> retry_loop u fields st rest (Some msg) pg)%M
                (bump_requests io, e)) as [[r [io' e']] ev2] eqn:Hrest.
    exists r, (io', e'), ev2. split; [reflexivity|]. split; [|discriminate].
    revert Hrest. unfold bind at 1.
    destruct (js_on_failure_run attempt (bump_requests io) e) as (e2 & Hof & _).
    rewrite Hof.
    destruct (retry_loop u fields st rest (Some msg) pg (bump_requests io, e2))
      as [[r0 [io0 e0]] ev0] eqn:Hloop.
    intros [= _ <- _ _]. pose proof (js_retry_loop_requests _ _ _ _ _ _ _ _ _ _ _ _ Hloop) as H.
    cbn [fst requests bump_requests] in *. lia.
  - destruct ((on_failure attempt >> retry_loop u fields st rest (Some msg) (Some content))%M
                (bump_requests io, e)) as [[r [io' e']] ev2] eqn:Hrest.
    exists r, (io', e'), ev2. split; [reflexivity|]. split; [|discriminate].
    revert Hrest. unfold bind at 1.
    destruct (js_on_failure_run attempt (bump_requests io) e) as (e2 & Hof & _).
    rewrite Hof.
    destruct (retry_loop u fields st rest (Some msg) (Some content) (bump_requests io, e2))
      as [[r0 [io0 e0]] ev0] eqn:Hloop.
    intros [= _ <- _ _]. pose proof (js_retry_loop_requests _ _ _ _ _ _ _ _ _ _ _ _ Hloop) as H.
    cbn [fst requests bump_requests] in *. lia.
  - destruct (js_on_page_run u fields st status content (bump_requests io) e)
      as (res & io' & e' & Hpage & _ & _ & _ & Hok & Hdata & _).
    rewrite Hpage. exists (Ok res), (io', e'), []. split; [reflexivity|]. split.
    + cbn [fst]. rewrite (js_on_page_requests _ _ _ _ _ _ _ _ _ _ _ Hpage).
      cbn [requests bump_requests]. lia.
    + intros status' content' [= <- <-]. split; [reflexivity|]. eauto.
Qed.

(** Once [_init_browser] has returned on an engine whose browser was up
    or had never been tried, the browser is up. *)
Lemma js_init_browser_ready (io : IO) (e : PlaywrightEngine) io1 e1 ev1 :
  _semaphore e = true \/ _playwright e = false ->
  _init_browser (io, e) = (Ok tt, (io1, e1), ev1) ->
  _semaphore e1 = true /\ (requests io <= requests io1)%nat.
Proof.
  intros Hup. unfold _init_browser. unfold bind at 1, get at 1. cbn [fst snd].
  destruct (_playwright e) eqn:Hpw.
  - unfold ret. intros [= <- <- _]. destruct Hup as [Hs|Hp]; [auto | discriminate].
  - unfold bind at 1, start_playwright at 1. cbn [fst snd].
    destruct (playwright_start (requests io)); [discriminate|].
    unfold bind at 1, modify at 1. cbn [fst snd].
    destruct (js_get_proxy_run (bump_requests io) (set_playwright true e))
      as (px & e0 & Hpx & _).
    unfold bind at 1. rewrite Hpx.
    unfold bind at 1, launch_browser at 1. cbn [fst snd].
    destruct (browser_launch _ (Py.nonempty px)); [discriminate|].
    unfold modify. cbn [fst snd]. intros [= <- <- _].
    cbn [_semaphore set_semaphore with_state requests bump_requests]. split; [reflexivity | lia].
Qed.

(** [scrape] on a browser that is up, or comes up, visits the page. *)
Lemma js_scrape_fetches (u : string) (fields : list Project.SelectorField)
    (io : IO) (e : PlaywrightEngine) res s' ev :
  scrape u fields (io, e) = (Ok res, s', ev) ->
  0 <= retry_count e ->
  _semaphore e = true \/ _playwright e = false ->
  exists ev1 ev2 n,
    ev = ev1 ++ EvVisit u (page_visit n u) :: ev2 /\
    Forall outside_retry ev1 /\
    (requests io <= n < requests (fst s'))%nat /\
    forall status content,
      page_visit n u = BrowserPage status content None ->
      ev2 = [] /\ success res = true /\ data res = extract_data content fields.
Proof.
  intros Hrun Hrc Hup. revert Hrun. unfold scrape.
  destruct (js_init_browser_run io e) as (r & [io1 e1] & ev1 & Hinit & Hc1 & _ & Hq1).
  unfold bind at 1. rewrite Hinit. destruct r as [[]|msg]; [|discriminate].
  destruct (js_init_browser_ready io e io1 e1 ev1 Hup Hinit) as [Hsem1 Hreq1].
  unfold bind at 1, now at 1. cbn [fst snd].
  destruct (js_wait_rate_limit_run (bump_clock io1) e1)
    as (rw & io2 & ev2 & Hw & Hq2 & Hreq2 & _).
  unfold bind at 1. rewrite Hw. destruct rw as [[]|msg]; [|discriminate].
  unfold bind at 1, get at 1. cbn [fst snd].
  assert (Hrc1 : retry_count e1 = retry_count e) by (cbn [snd] in Hc1; injection Hc1; auto).
  unfold Py.range. destruct (Z.to_nat (retry_count e1 + 1)) as [|k] eqn:Hk; [lia|].
  cbn [seq].
  destruct (js_first_visit u fields (time_time (clock_reads io1)) 0 (seq 1 k) None None
              io2 e1 Hsem1) as (r & s2 & ev3 & Hloop & Hreq3 & Hpage).
  rewrite Hloop. intros [= -> <- <-].
  exists (ev1 ++ ev2), ev3, (requests io2). split.
  { cbn [app]. rewrite <- !app_assoc. reflexivity. }
  split; [apply Forall_app; auto|]. split.
  { cbn [requests bump_clock] in Hreq2. lia. }
  intros status content Hclean. destruct (Hpage status content Hclean) as (-> & res' & Hres & Hok & Hdata).
  injection Hres as <-. auto.
Qed.

End BrowserFetch.

(** C4. With [respect_robots] on and robots rules that forbid the URL, the
    plain-HTTP [scrape] returns a failed result whose error is the robots
    refusal, without requesting the page. In the browser engine
    [check_robots] requests nothing and gives at most the warning "Path
    may be restricted by robots.txt", and [scrape] does not consult robots
    at all, whatever is on record for the origin: whenever it returns a
    result with [retry_count >= 0] on a browser that is up or comes up,
    it has asked the browser for the page, as one more request, and a
    page read without error at that first visit is the result. *)
Theorem robots_denial_by_engine `{W : Base.World} (u : string)
    (fields : list Project.SelectorField) :
  (forall (io : Base.IO) (e : StaticEngine.StaticEngine)
          (parsed : Base.ParsedUrl) (robots_url : string),
     StaticEngine.respect_robots e = true ->
     Base.urlparse u = Base.Ok parsed ->
     Base.urljoin (Base.scheme parsed ++ "://" ++ Base.netloc parsed) "/robots.txt" =
       Base.Ok robots_url ->
     robots_disallow (Base.requests io) e u parsed robots_url ->
     exists s' ev elapsed,
       StaticEngine.scrape u fields (io, e) =
         (Base.Ok (Base.failed_result u
                     (Some ("Blocked by robots.txt: " ++ robots_message parsed)%string)
                     elapsed None), s', ev) /\
       Forall (fun x => forall u' px reply, x <> Base.EvHttpGet u' px reply) ev) /\
  (forall (io : Base.IO) (e : PlaywrightEngine.PlaywrightEngine),
     (exists r e',
        PlaywrightEngine.check_robots u (io, e) = (r, (io, e'), []) /\
        forall w, r = Base.Ok (Some w) ->
          PlaywrightEngine.respect_robots e = true /\
          Base.message w = "Path may be restricted by robots.txt"%string) /\
     (exists r s' ev,
        PlaywrightEngine.scrape u fields (io, e) = (r, s', ev) /\
        forall res, r = Base.Ok res ->
          PlaywrightEngine._robots_cache (snd s') = PlaywrightEngine._robots_cache e /\
          (0 <= PlaywrightEngine.retry_count e ->
           exists ev1 reply ev2, ev = ev1 ++ Base.EvVisit u reply :: ev2) /\
          (0 <= PlaywrightEngine.retry_count e ->
           PlaywrightEngine._semaphore e = true \/ PlaywrightEngine._playwright e = false ->
           exists ev1 ev2 n,
             ev = ev1 ++ Base.EvVisit u (Base.page_visit n u) :: ev2 /\
             Forall outside_retry ev1 /\
             (Base.requests io <= n < Base.requests (fst s'))%nat /\
             forall status content,
               Base.page_visit n u = Base.BrowserPage status content None ->
               ev2 = [] /\ Base.success res = true /\
               Base.data res = PlaywrightEngine.extract_data content fields))).
Proof.
  split.
  - intros io e parsed robots_url Hresp Hparse Hjoin Hdis.
    unfold StaticEngine.scrape.
    destruct (st_check_robots_blocks u (Base.bump_clock io) (StaticEngine.set_client true e)
                parsed robots_url Hresp Hparse Hjoin Hdis) as (s1 & ev1 & Hrob & Hq).
    unfold Base.bind at 1. cbn [StaticEngine._get_client Base.modify fst snd].
    unfold Base.bind at 1. cbn [Base.now fst snd].
    unfold Base.bind at 1. rewrite Hrob.
    unfold Base.bind, StaticEngine.elapsed_since, Base.now, Base.ret. cbn [fst snd app].
    eexists _, _, _. split; [reflexivity|].
    rewrite app_nil_r. eapply Forall_impl; [exact Hq|].
    intros x Hx u' px reply ->. exact Hx.
  - intros io e. split.
    + unfold PlaywrightEngine.check_robots, Base.bind, Base.get, Base.ret, Base.of_res,
        Base.modify. cbn [fst snd].
      destruct (PlaywrightEngine.respect_robots e) eqn:Hresp; cbn [negb];
        [| eexists _, _; split; [reflexivity | discriminate]].
      destruct (Base.urlparse u) as [parsed|msg];
        [| eexists _, _; split; [reflexivity | discriminate]].
      destruct (PlaywrightEngine._robots_cache e !! _) as [[]|]; cbn [negb fst snd app];
        eexists _, _; (split; [reflexivity|]); intros w Hw;
        try discriminate. injection Hw as <-. split; reflexivity.
    + destruct (js_scrape_run u fields io e) as (r & s' & ev & Hrun & Hpost).
      exists r, s', ev. split; [exact Hrun|]. intros res ->. cbn [js_scrape_post] in Hpost.
      destruct Hpost as (_ & Hcache & _ & _ & _ & _ & Hfirst).
      split; [exact Hcache|]. split.
      * intros Hrc. apply Hfirst. lia.
      * intros Hrc Hup. exact (js_scrape_fetches u fields io e res s' ev Hrun Hrc Hup).
Qed.

(** The browser engine with the origin of the page on record as
    restricted. *)
Definition warned_engine : PlaywrightEngine.PlaywrightEngine :=
  PlaywrightEngine.set_robots_cache {[ "https://example.com"%string := false ]}
    (js_engine 1 true).

Lemma robots_denial_by_engine_witness :
  (exists s' ev elapsed,
     @StaticEngine.scrape forbidding_world "https://example.com/private" [title_field]
       (Base.io0, polite_engine) =
       (Base.Ok (Base.failed_result "https://example.com/private"
          (Some "Blocked by robots.txt: URL path 'https://example.com/private' is disallowed by robots.txt"%string)
          elapsed None), s', ev) /\
     Forall (fun x => forall u' px reply, x <> Base.EvHttpGet u' px reply) ev) /\
  (exists w,
     @PlaywrightEngine.check_robots forbidding_world "https://example.com/private"
       (Base.io0, warned_engine) = (Base.Ok (Some w), (Base.io0, warned_engine), []) /\
     Base.message w = "Path may be restricted by robots.txt"%string) /\
  (exists res s' ev1,
     @PlaywrightEngine.scrape forbidding_world "https://example.com/private" [title_field]
       (Base.io0, warned_engine) =
       (Base.Ok res, s',
        ev1 ++ [Base.EvVisit "https://example.com/private"
                  (Base.BrowserPage (Some 200) "<html></html>" None)]) /\
     Forall outside_retry ev1 /\
     Base.requests (fst s') = 3%nat /\
     Base.success res = true /\ Base.data res = {[ "title"%string := Some "value"%string ]}).
Proof.
  destruct (@robots_denial_by_engine forbidding_world "https://example.com/private"
              [title_field]) as [Hstatic Hjs].
  split; [|split].
  - apply (Hstatic Base.io0 polite_engine
             {| Base.scheme := "https"; Base.netloc := "example.com";
                Base.path := "https://example.com/private" |}
             "https://example.com/robots.txt"); try reflexivity.
    exists "Disallow: /"%string. split; [reflexivity|]. right.
    split; [reflexivity|]. exists 200, "OK"%string. reflexivity.
  - eexists. split; reflexivity.
  - destruct (Hjs Base.io0 warned_engine) as [_ (r & s' & ev & Hrun & Hres)].
    assert (exists res, r = Base.Ok res /\ Base.requests (fst s') = 3%nat) as (res & -> & Hreq).
    { vm_compute in Hrun. injection Hrun as <- <- _. eexists. split; reflexivity. }
    destruct (Hres res eq_refl) as (_ & _ & Hfetch).
    destruct Hfetch as (ev1 & ev2 & n & -> & Hq & Hn & Hpage);
      [vm_compute; discriminate | right; reflexivity |].
    destruct (Hpage (Some 200) "<html></html>"%string eq_refl) as (-> & Hok & Hdata).
    exists res, s', ev1. split; [exact Hrun|]. split; [exact Hq|]. split; [exact Hreq|].
    split; [exact Hok|]. rewrite Hdata. vm_compute. reflexivity.
Defined.

(** ** Batches *)

Section BatchFacts.
Import Base.
Context {S : Type}.
Variable scrape : string -> list Project.SelectorField -> M S ScrapeResult.
Variable fields : list Project.SelectorField.
Hypothesis scrape_url :
  forall u s res s1 ev, scrape u fields s = (Ok res, s1, ev) -> url res = u.





End BatchFacts.




(** ** The orchestrator *)

Section RunFacts.
Import Base Scraper.
Context `{W : World} `{U : User}.

(** A URL is visited when it is popped from the queue, which the loop
    logs at once. *)
Definition is_visit (e : Event) : bool :=
  match e with
  | EvSignal (SigLog Info (MsgCrawling _)) => true
  | _ => false
  end.

(** The number of pages visited in a trace. *)
Fixpoint pages_visited (ev : list Event) : nat :=
  match ev with
  | [] => 0
  | e :: ev' => (if is_visit e then 1 else 0) + pages_visited ev'
  end.

(** Every progress signal reports a page number within the budget. *)
Definition progress_within (max_pages : Z) (e : Event) : Prop :=
  match e with
  | EvSignal (SigProgress current total _) => 1 <= current <= max_pages /\ total = max_pages
  | _ => True
  end.

(** No more than [k] pages are visited in the trace, and its progress
    signals stay within [mp]. *)
Definition bounded (k : Z) (mp : Z) (ev : list Event) : Prop :=
  Z.of_nat (pages_visited ev) <= k /\ Forall (progress_within mp) ev.

Lemma pages_visited_app (ev1 ev2 : list Event) :
  pages_visited (ev1 ++ ev2) = (pages_visited ev1 + pages_visited ev2)%nat.
Proof. induction ev1 as [|e ev1 IH]; cbn [app pages_visited]; lia. Qed.

Lemma bounded_app (k1 k2 mp : Z) (ev1 ev2 : list Event) :
  bounded k1 mp ev1 -> bounded k2 mp ev2 -> bounded (k1 + k2) mp (ev1 ++ ev2).
Proof.
  intros [H1 F1] [H2 F2]. split; [rewrite pages_visited_app; lia | apply Forall_app; auto].
Qed.

Lemma bounded_nil (mp : Z) : bounded 0 mp [].
Proof. split; [cbn; lia | constructor]. Qed.

Lemma bounded_weaken (k k' mp : Z) (ev : list Event) :
  k <= k' -> bounded k mp ev -> bounded k' mp ev.
Proof. intros Hk [H F]. split; [lia | exact F]. Qed.

Lemma bounded_engine (mp : Z) (ev : list IOEvent) : bounded 0 mp (map EvEngine ev).
Proof.
  induction ev as [|e ev [IH1 IH2]]; [apply bounded_nil|].
  split; [exact IH1 | constructor; [exact I | exact IH2]].
Qed.

(** Engine calls only add engine events. *)
Lemma zoom_run {S A} (proj : ScraperOrchestrator -> option S)
    (inj : S -> ScraperOrchestrator -> ScraperOrchestrator) (m : M S A)
    (s : IO * ScraperOrchestrator) :
  exists r s' ev0, zoom proj inj m s = (r, s', map EvEngine ev0).
Proof.
  unfold zoom. destruct (proj (snd s)) as [x|]; [|exists (Raise "'NoneType' object has no attribute"), s, []; reflexivity].
  destruct (m (fst s, x)) as [[r [io x']] ev]. eexists _, _, _. reflexivity.
Qed.

Lemma engine_check_robots_run (engine : EngineRef) (u : string) (s : IO * ScraperOrchestrator) :
  exists r s' ev0, engine_check_robots engine u s = (r, s', map EvEngine ev0).
Proof. destruct engine; apply zoom_run. Qed.

Lemma engine_scrape_run (engine : EngineRef) (u : string) (fields : list Project.SelectorField)
    (s : IO * ScraperOrchestrator) :
  exists r s' ev0, engine_scrape engine u fields s = (r, s', map EvEngine ev0).
Proof. destruct engine; apply zoom_run. Qed.

Lemma extract_links_run (page base_url sel : string) (same_domain : bool) (mp : Z)
    (s : IO * ScraperOrchestrator) :
  exists links ev, _extract_links page base_url sel same_domain s = (Ok links, s, ev) /\
                   bounded 0 mp ev.
Proof.
  unfold _extract_links.
  destruct (match bs_parse_html page with Some _ => _ | None => _ end) as [links [msg|]];
    unfold bind, log, signal, emit, ret; cbn [app];
    eexists _, _; (split; [reflexivity|]);
    [split; [cbn; lia | repeat constructor] | apply bounded_nil].
Qed.

Lemma extract_all_links_run (page base_url : string) (same_domain : bool) (mp : Z)
    (selectors : list string) :
  forall (acc : list string) (s : IO * ScraperOrchestrator),
    exists links ev,
      extract_all_links page base_url selectors same_domain acc s = (Ok links, s, ev) /\
      bounded 0 mp ev.
Proof.
  induction selectors as [|sel rest IH]; intros acc s; cbn [extract_all_links].
  - exists acc, []. split; [reflexivity | apply bounded_nil].
  - destruct (extract_links_run page base_url sel same_domain mp s) as (links & ev1 & H1 & B1).
    destruct (IH (acc ++ links) s) as (all & ev2 & H2 & B2).
    exists all, (ev1 ++ ev2). split; [unfold bind; rewrite H1, H2; reflexivity|].
    apply (bounded_app 0 0); assumption.
Qed.

Lemma discover_links_run (p : Project.ScraperProject) (u : string) (result : ScrapeResult)
    (ls : LoopState) (s : IO * ScraperOrchestrator) :
  exists ls' ev,
    discover_links p u result ls s = (Ok ls', s, ev) /\
    pages_scraped ls' = pages_scraped ls /\ results ls' = results ls /\
    bounded 0 (max_pages_of p) ev.
Proof.
  unfold discover_links. cbn zeta.
  destruct (_ && _); [|exists ls, []; repeat split; [cbn; lia | constructor]].
  assert (Hnohtml : exists ls1 ev1,
            (log Warning MsgNoHtml >> ret ls)%M s = (Ok ls1, s, ev1) /\
            pages_scraped ls1 = pages_scraped ls /\ results ls1 = results ls /\
            bounded 0 (max_pages_of p) ev1).
  { eexists _, _. split; [reflexivity|]. repeat split; [cbn; lia | repeat constructor]. }
  destruct (html result) as [page|]; [|exact Hnohtml].
  destruct (String.eqb page ""); [exact Hnohtml|].
  destruct (extract_all_links_run page u
              (Project.same_domain_only (Project.link_follow p)) (max_pages_of p)
              (Project.link_selectors (Project.link_follow p)) [] s)
    as (links & ev1 & H1 & B1).
  unfold bind at 1. rewrite H1.
  destruct (enqueue_new (dedup links) (url_queue ls) (seen_urls ls) 0)
    as [[queue seen] added].
  destruct (dedup links); unfold bind, log, signal, emit, ret; cbn [app];
    eexists _, _; (split; [reflexivity|]); (split; [reflexivity|]);
    (split; [reflexivity|]); apply (bounded_app 0 0); try exact B1;
    split; try (cbn; lia); repeat constructor.
Qed.

Lemma report_progress_run (p : Project.ScraperProject) (u : string) (result : ScrapeResult)
    (ls : LoopState) (s : IO * ScraperOrchestrator) :
  1 <= pages_scraped ls <= max_pages_of p ->
  exists ev,
    report_progress p u result ls s = (Ok tt, s, ev) /\ bounded 0 (max_pages_of p) ev.
Proof.
  intros Hps. unfold report_progress. cbn zeta.
  assert (Htotal : Project.lf_enabled (Project.link_follow p) = false ->
                   Z.of_nat (length (Project.urls (Project.target p))) = max_pages_of p).
  { intros Hcrawl. unfold max_pages_of. rewrite Hcrawl. reflexivity. }
  destruct (Project.lf_enabled (Project.link_follow p)) eqn:Hcrawl.
  - repeat match goal with
           | |- context [if ?c then _ else _] => destruct c
           end;
      unfold bind, log, signal, emit, ret; cbn [app];
      eexists; (split; [reflexivity|]);
      (split; [cbn; lia|]); repeat constructor; lia.
  - rewrite (Htotal eq_refl).
    destruct (success result);
      unfold bind, log, signal, emit, ret; cbn [app];
      eexists; (split; [reflexivity|]);
      (split; [cbn; lia|]); repeat constructor; lia.
Qed.

(** The rest of the body after [results.append(result)] visits no page,
    keeps the page count and the results, and reports the page count
    against the budget. *)
Lemma after_append_run (p : Project.ScraperProject) (u : string) (result : ScrapeResult)
    (ls : LoopState) (s : IO * ScraperOrchestrator) :
  1 <= pages_scraped ls <= max_pages_of p ->
  exists ls' ev,
    after_append p u result ls s = (Ok ls', s, ev) /\
    pages_scraped ls' = pages_scraped ls /\ results ls' = results ls /\
    bounded 0 (max_pages_of p) ev.
Proof.
  intros Hps. unfold after_append.
  destruct (discover_links_run p u result ls s) as (ls1 & ev1 & H1 & Hp1 & Hr1 & B1).
  destruct (report_progress_run p u result ls1 s) as (ev2 & H2 & B2); [lia|].
  exists ls1, (ev1 ++ ev2 ++ []). split.
  - unfold bind, ret. rewrite H1, H2. reflexivity.
  - split; [exact Hp1|]. split; [exact Hr1|]. rewrite app_nil_r.
    apply (bounded_app 0 0); assumption.
Qed.


Lemma bounded_one (mp : Z) (e : Event) :
  progress_within mp e -> bounded (if is_visit e then 1 else 0) mp [e].
Proof.
  intros He. split; [|constructor; [exact He | constructor]].
  cbn [pages_visited]. destruct (is_visit e); cbn; lia.
Qed.

Lemma bounded_cons (k mp : Z) (e : Event) (ev : list Event) :
  progress_within mp e -> bounded k mp ev ->
  bounded ((if is_visit e then 1 else 0) + k) mp (e :: ev).
Proof. intros He B. apply (bounded_app _ _ _ [e] ev); [apply bounded_one; exact He | exact B]. Qed.
End RunFacts.

(** Split a trace into the parts whose bounds are known, given the lemmas
    for the empty trace, engine events, one signal, a signal in front and
    an append. *)
Ltac split_trace nil_lemma engine_lemma one_lemma cons_lemma app_lemma :=
  repeat first
    [ apply nil_lemma
    | apply engine_lemma
    | eassumption
    | apply one_lemma; exact I
    | eapply cons_lemma; [exact I|]
    | eapply app_lemma ].

Section RunLoopFacts.
Import Base Scraper.
Context `{W : World} `{U : User}.

Lemma when_modify_run {E S} (c : bool) (f : S -> S) (s : IO * S) :
  @when E S c (modify f) s = (Ok tt, (fst s, if c then f (snd s) else snd s), []).
Proof. destruct c, s; reflexivity. Qed.

Lemma robots_signal_run (warning : option RobotsWarning) (u : string) (mp : Z)
    (s : IO * ScraperOrchestrator) :
  exists ev,
    match warning with
    | Some w => (signal (SigRobotsWarning w) >> log Warning (MsgRobotsWarning u))%M
    | None => ret tt
    end s = (Ok tt, s, ev) /\ bounded 0 mp ev.
Proof.
  destruct warning; eexists; (split; [reflexivity|]);
    eapply bounded_weaken; cycle 1; try (split_trace bounded_nil bounded_engine bounded_one bounded_cons bounded_app; fail); cbn; lia.
Qed.

(** Whatever the caller does in answer to the pause, the wait loop is
    left: the loop body may go on without modelling the polling. *)
Lemma caller_action_ends_wait (a : UserAction) (o : ScraperOrchestrator) :
  still_waiting (apply_action a o) = false.
Proof. destruct a; reflexivity. Qed.

(** The pause: the signal, the caller's action, and whether it was
    [stop()]. *)
Lemma pause_run (result : ScrapeResult) (n mp : Z) (s : IO * ScraperOrchestrator) :
  exists stopped s' ev,
    (if negb (success result) && _should_pause_on_error result then
       (modify (set_paused true) >>
        signal (SigPaused (error result) result) >>
        modify (apply_action (on_paused n result)) >>
        let* o := get in
        ret (_stop_requested o))%M
     else ret false) s = (Ok stopped, s', ev) /\ bounded 0 mp ev.
Proof.
  destruct (negb (success result) && _should_pause_on_error result);
    eexists _, _, _; (split; [reflexivity|]);
    eapply bounded_weaken; cycle 1; try (split_trace bounded_nil bounded_engine bounded_one bounded_cons bounded_app; fail); cbn; lia.
Qed.

(** One pass through the loop body visits at most one page, and counts it
    when it goes on to the next iteration. *)
Lemma loop_body_run (engine : EngineRef) (p : Project.ScraperProject) (u : string)
    (queue : list string) (ls : LoopState) (s : IO * ScraperOrchestrator) :
  0 <= pages_scraped ls < max_pages_of p ->
  exists r s' ev,
    loop_body engine p u queue ls s = (r, s', ev) /\
    (bounded 1 (max_pages_of p) ev /\
     forall ls', r = Ok (NextIteration ls') ->
       pages_scraped ls' = pages_scraped ls + 1).
Proof.
  intros Hps. unfold loop_body.
  eapply bind_any; [apply when_modify_run|].
  eapply bind_any; [reflexivity|]. cbn [fst snd].
  match goal with |- context [_stop_requested ?o] => destruct (_stop_requested o) end.
  { eexists _, _, _. split; [reflexivity|]. split; [|discriminate].
    eapply bounded_weaken; cycle 1; [split_trace bounded_nil bounded_engine bounded_one bounded_cons bounded_app | cbn; lia]. }
  eapply bind_any; [reflexivity|]. cbn beta.
  match goal with
  | |- exists _ _ _, bind _ _ ?s0 = _ /\ _ =>
      destruct (engine_check_robots_run engine u s0) as (rw & s1 & ev1 & Hrob)
  end.
  destruct rw as [warning|msg];
    [| apply bind_raised with (1 := Hrob); split; [|discriminate];
       eapply bounded_weaken; cycle 1; [split_trace bounded_nil bounded_engine bounded_one bounded_cons bounded_app | cbn; lia]].
  apply bind_any with (1 := Hrob).
  destruct (robots_signal_run warning u (max_pages_of p) s1) as (evw & Hw & Bw).
  apply bind_any with (1 := Hw).
  destruct (engine_scrape_run engine u (Project.fields p) s1) as (rs & s2 & ev2 & Hscr).
  destruct rs as [result|msg];
    [| apply bind_raised with (1 := Hscr); split; [|discriminate];
       eapply bounded_weaken; cycle 1; [split_trace bounded_nil bounded_engine bounded_one bounded_cons bounded_app | cbn; lia]].
  apply bind_any with (1 := Hscr).
  destruct (pause_run result (pages_scraped ls + 1) (max_pages_of p) s2)
    as (stopped & s3 & evp & Hpause & Bp).
  apply bind_any with (1 := Hpause).
  destruct stopped.
  { eexists _, _, _. split; [reflexivity|]. split; [|discriminate].
    eapply bounded_weaken; cycle 1; [split_trace bounded_nil bounded_engine bounded_one bounded_cons bounded_app | cbn; lia]. }
  cbn beta.
  match goal with
  | |- exists _ _ _, bind (after_append p u result ?l) _ ?s0 = _ /\ _ =>
      destruct (after_append_run p u result l s0) as (ls3 & ev3 & Haft & Hp3 & _ & B3);
        [cbn [pages_scraped]; lia|]
  end.
  apply bind_any with (1 := Haft).
  eexists _, _, _. split; [reflexivity|]. split.
  - eapply bounded_weaken; cycle 1; [split_trace bounded_nil bounded_engine bounded_one bounded_cons bounded_app | cbn; lia].
  - intros ls' Hls. injection Hls as <-. exact Hp3.
Qed.

(** The loop never runs out of the fuel [run] gives it, and visits no more
    pages than the budget leaves. *)
Lemma run_loop_run (engine : EngineRef) (p : Project.ScraperProject) :
  forall (fuel : nat) (ls : LoopState) (s : IO * ScraperOrchestrator),
    0 <= pages_scraped ls ->
    max_pages_of p - pages_scraped ls <= Z.of_nat fuel ->
    exists r s' ev,
      run_loop fuel engine p ls s = (r, s', ev) /\
      r <> Ok None /\
      bounded (Z.max 0 (max_pages_of p - pages_scraped ls)) (max_pages_of p) ev /\
      (max_pages_of p <= pages_scraped ls -> r = Ok (Some ls) /\ s' = s /\ ev = []).
Proof.
  induction fuel as [|fuel IH]; intros ls s Hps Hfuel.
  - cbn [run_loop]. destruct (url_queue ls) as [|u queue];
      [| destruct (Z.ltb_spec (pages_scraped ls) (max_pages_of p)) as [Hlt|Hge];
         cbn [negb]; [lia|]];
      exists (Ok (Some ls)), s, []; (split; [reflexivity|]); (split; [discriminate|]);
      (split; [eapply bounded_weaken; [|apply bounded_nil]; lia | auto]).
  - cbn [run_loop]. destruct (url_queue ls) as [|u queue];
      [exists (Ok (Some ls)), s, []; (split; [reflexivity|]); (split; [discriminate|]);
       (split; [eapply bounded_weaken; [|apply bounded_nil]; lia | auto])|].
    destruct (Z.ltb_spec (pages_scraped ls) (max_pages_of p)) as [Hlt|Hge]; cbn [negb];
      [| exists (Ok (Some ls)), s, []; (split; [reflexivity|]); (split; [discriminate|]);
         (split; [eapply bounded_weaken; [|apply bounded_nil]; lia | auto])].
    destruct (loop_body_run engine p u queue ls s) as (r & s1 & ev1 & Hbody & B1 & Hnext);
      [lia|].
    destruct r as [[ls'|ls']|msg].
    + specialize (Hnext ls' eq_refl).
      destruct (IH ls' s1) as (r2 & s2 & ev2 & Hloop & Hr2 & B2 & _); [lia | lia |].
      exists r2, s2, (ev1 ++ ev2). split; [unfold bind; rewrite Hbody, Hloop; reflexivity|].
      split; [exact Hr2|]. split; [|intros; lia].
      eapply bounded_weaken; [|apply (bounded_app _ _ _ _ _ B1 B2)]. lia.
    + exists (Ok (Some ls')), s1, (ev1 ++ []).
      split; [unfold bind, ret; rewrite Hbody; reflexivity|].
      split; [discriminate|]. split; [|intros; lia]. rewrite app_nil_r.
      eapply bounded_weaken; [|exact B1]. lia.
    + exists (Raise msg), s1, ev1. split; [unfold bind; rewrite Hbody; reflexivity|].
      split; [discriminate|]. split; [|intros; lia].
      eapply bounded_weaken; [|exact B1]. lia.
Qed.

Definition is_signal (e : Event) : Prop :=
  match e with EvSignal _ => True | EvEngine _ => False end.

Lemma get_engine_run (s : IO * ScraperOrchestrator) :
  exists engine o', _get_engine s = (Ok engine, (fst s, o'), []) /\ project o' = project (snd s).
Proof.
  destruct s as [io o]. unfold _get_engine, bind, get, when, modify, ret. cbn [fst snd].
  destruct (String.eqb _ "js");
    match goal with |- context [bool_decide ?P] => destruct (bool_decide P) end;
    cbn [fst snd app]; eexists _, _; split; reflexivity.
Qed.

Lemma start_logs_run (crawl : bool) (selectors : list string) (mp : Z) (n : nat)
    (engine_type : string) (s : IO * ScraperOrchestrator) :
  exists ev,
    (if crawl && negb (bool_decide (selectors = [])) then
       (log Info (MsgStartingCrawl mp engine_type) >> log Info (MsgFollowing selectors))%M
     else
       (log Info (MsgStartingScrape n engine_type) >>
        when (crawl && bool_decide (selectors = [])) (log Warning MsgNoLinkSelectors))%M) s
      = (Ok tt, s, ev) /\
    bounded 0 mp ev /\ Forall is_signal ev.
Proof.
  destruct crawl; cbn [andb]; destruct (bool_decide (selectors = [])); cbn [negb];
    eexists; (split; [reflexivity|]);
    (split; [split; [cbn; lia|] |]); repeat constructor.
Qed.
End RunLoopFacts.

(** C9. A run always ends (the loop never needs more iterations than the
    page budget), and at every point of it the number of pages visited,
    that is of URLs popped from the queue, is at most [max_pages] (at most
    0 for a negative budget); every progress signal reports a page number
    between 1 and [max_pages]. With [max_pages = 0] the run returns no
    result and its trace has no engine event: nothing is fetched. *)
Theorem pages_visited_within_budget `{W : Base.World} `{U : Scraper.User}
    (s : Base.IO * Scraper.ScraperOrchestrator) :
  exists r s' ev,
    Scraper.run s = (r, s', ev) /\
    r <> Base.Ok None /\
    (forall ev1 ev2, ev = ev1 ++ ev2 ->
       Z.of_nat (pages_visited ev1) <=
         Z.max 0 (Scraper.max_pages_of (Scraper.project (snd s)))) /\
    Forall (progress_within (Scraper.max_pages_of (Scraper.project (snd s)))) ev /\
    (Scraper.max_pages_of (Scraper.project (snd s)) = 0 ->
       r = Base.Ok (Some []) /\ pages_visited ev = 0%nat /\ Forall is_signal ev).
Proof.
  set (mp := Scraper.max_pages_of (Scraper.project (snd s))).
  assert (Hgoal : exists r s' ev,
            Scraper.run s = (r, s', ev) /\ r <> Base.Ok None /\
            bounded (Z.max 0 mp) mp ev /\
            (mp = 0 -> r = Base.Ok (Some []) /\ Forall is_signal ev)).
  { unfold Scraper.run. eapply bind_any; [reflexivity|]. cbn [fst snd app]. cbn zeta.
    destruct (bool_decide (Project.urls (Project.target (Scraper.project (snd s))) = [])).
    { eexists _, _, _. split; [reflexivity|]. split; [discriminate|].
      split; [|intros _; split; [reflexivity | repeat constructor]].
      eapply bounded_weaken; cycle 1; [split_trace bounded_nil bounded_engine bounded_one bounded_cons bounded_app | cbn [is_visit]; lia]. }
    destruct (bool_decide (Project.fields (Scraper.project (snd s)) = [])).
    { eexists _, _, _. split; [reflexivity|]. split; [discriminate|].
      split; [|intros _; split; [reflexivity | repeat constructor]].
      eapply bounded_weaken; cycle 1; [split_trace bounded_nil bounded_engine bounded_one bounded_cons bounded_app | cbn [is_visit]; lia]. }
    eapply bind_any; [reflexivity|].
    eapply bind_any; [reflexivity|].
    eapply bind_any; [reflexivity|]. cbn [fst snd app].
    match goal with
    | |- exists _ _ _, Base.bind (if ?c && negb (bool_decide (?sel = [])) then _ else _) _ ?s0
                       = _ /\ _ =>
        destruct (start_logs_run c sel mp
                    (length (Project.urls (Project.target (Scraper.project (snd s)))))
                    (Scraper._get_engine_type (snd s)) s0) as (ev0 & Hlogs & B0 & S0)
    end.
    apply bind_any with (1 := Hlogs).
    match goal with
    | |- exists _ _ _, Base.bind Scraper._get_engine _ ?s0 = _ /\ _ =>
        destruct (get_engine_run s0) as (engine & o1 & Heng & Hproj)
    end.
    apply bind_any with (1 := Heng). cbn [fst snd] in *.
    match goal with
    | |- exists _ _ _, Base.bind (Scraper.run_loop ?f engine ?p ?l) _ ?s0 = _ /\ _ =>
        destruct (run_loop_run engine p f l s0) as (rl & s2 & ev2 & Hloop & Hrl & B2 & Hzero);
          [cbn [Scraper.pages_scraped]; lia | cbn [Scraper.pages_scraped]; fold mp; lia |]
    end.
    cbn [Scraper.pages_scraped] in B2, Hzero. fold mp in B2, Hzero.
    rewrite Z.sub_0_r in B2.
    destruct rl as [[ls|]|msg]; [| congruence |].
    - apply bind_any with (1 := Hloop). cbn beta iota.
      eexists _, _, _. split; [reflexivity|]. split; [discriminate|]. split.
      + eapply bounded_weaken; cycle 1; [split_trace bounded_nil bounded_engine bounded_one bounded_cons bounded_app | cbn [is_visit]; lia].
      + intros Hmp. destruct Hzero as (Hls & _ & ->); [lia|].
        injection Hls as ->. cbn [Scraper.results]. split; [reflexivity|].
        cbn [app]. constructor; [exact I|].
        apply Forall_app. split; [exact S0 | repeat constructor].
    - apply bind_raised with (1 := Hloop). split; [discriminate|]. split.
      + eapply bounded_weaken; cycle 1; [split_trace bounded_nil bounded_engine bounded_one bounded_cons bounded_app | cbn [is_visit]; lia].
      + intros Hmp. destruct Hzero as (Hls & _); [lia|]. discriminate. }
  destruct Hgoal as (r & s' & ev & Hrun & Hr & [Hvis Hprog] & Hzero).
  exists r, s', ev. split; [exact Hrun|]. split; [exact Hr|]. split; [|split; [exact Hprog|]].
  - intros ev1 ev2 ->. rewrite pages_visited_app in Hvis. lia.
  - intros Hmp. destruct (Hzero Hmp) as [Hres Hsig]. split; [exact Hres|].
    split; [|exact Hsig]. fold mp in Hmp. rewrite Hmp in Hvis. cbn in Hvis. lia.
Qed.


(** A crawl with a budget of no page at all. *)
Definition no_page_project : Project.ScraperProject :=
  {| Project.target :=
       {| Project.urls := ["https://example.com/"]%string;
          Project.site_type := Project.JAVASCRIPT; Project.headers := [] |};
     Project.fields := [title_field];
     Project.link_follow :=
       {| Project.lf_enabled := true; Project.link_selectors := ["a"]%string;
          Project.max_depth := 0; Project.same_domain_only := true |};
     Project.proxy := Project.default_proxy;
     Project.rate_limit := Project.default_rate_limit;
     Project.respect_robots_txt := true;
     Project.detect_duplicates := true;
     Project.retry_count := 3;
     Project.timeout := 30%Q |}.

(** The caller never stops the run and resumes it at every pause. *)
Definition patient_user : Scraper.User :=
  {| Scraper.on_paused := fun _ _ => Scraper.CallResume;
     Scraper.stop_pressed := fun _ => false |}.

Lemma pages_visited_within_budget_witness :
  exists s' ev,
    @Scraper.run online_world patient_user (Base.io0, Scraper.init no_page_project) =
      (Base.Ok (Some []), s', ev) /\
    pages_visited ev = 0%nat /\ Forall is_signal ev.
Proof.
  destruct (@pages_visited_within_budget online_world patient_user
              (Base.io0, Scraper.init no_page_project))
    as (r & s' & ev & Hrun & _ & _ & _ & Hzero).
  destruct (Hzero eq_refl) as (-> & Hvisits & Hsignals).
  exists s', ev. auto.
Defined.

(** A run over two pages, the first of which answers 404: the loop pauses
    on it, and the caller answers with [skip_current()]. *)
Definition missing_page_world : Base.World :=
  scripted_world
    (fun _ u _ => if String.eqb u "https://example.com/missing"
                  then Base.HttpResponse 404 "Not Found" ""
                  else Base.HttpResponse 200 "OK" "<html></html>")
    (fun _ _ => Base.BrowserFailed "unused").

Definition two_page_project : Project.ScraperProject :=
  {| Project.target :=
       {| Project.urls := ["https://example.com/missing"; "https://example.com/next"]%string;
          Project.site_type := Project.STATIC; Project.headers := [] |};
     Project.fields := [title_field];
     Project.link_follow :=
       {| Project.lf_enabled := false; Project.link_selectors := [];
          Project.max_depth := 1; Project.same_domain_only := true |};
     Project.proxy := Project.default_proxy;
     Project.rate_limit := Project.default_rate_limit;
     Project.respect_robots_txt := false;
     Project.detect_duplicates := true;
     Project.retry_count := 0;
     Project.timeout := 30%Q |}.

Definition skipping_user : Scraper.User :=
  {| Scraper.on_paused := fun _ _ => Scraper.CallSkipCurrent;
     Scraper.stop_pressed := fun _ => false |}.

(** C2 (what the code does at the failing input). [skip_current()] is
    [resume()] under another name, and after the pause on the 404 page the
    failed result of that page is still the first result of the run, which
    ends reporting 1 success out of 2 results. *)
Theorem skip_current_keeps_result :
  (forall o, Scraper.skip_current o = Scraper.resume o) /\
  exists missing next s' ev,
    @Scraper.run missing_page_world skipping_user
      (Base.io0, Scraper.init two_page_project) = (Base.Ok (Some [missing; next]), s', ev) /\
    Base.url missing = "https://example.com/missing"%string /\
    Base.success missing = false /\
    Base.error missing = Some "HTTP 404: Not Found"%string /\
    Base.EvSignal (Base.SigPaused (Some "HTTP 404: Not Found"%string) missing) ∈ ev /\
    Scraper._paused (snd s') = false /\
    last ev = Some (Base.EvSignal (Base.SigLog Base.Info (Base.MsgCompleted 1 2))).
Proof.
  split; [reflexivity|].
  eexists _, _, _, _. split; [vm_compute; reflexivity|].
  repeat split. apply list_elem_of_In. cbn. tauto.
Qed.

(** [n] calls of [scrape] in a row on the plain-HTTP engine. *)
Fixpoint scrape_times `{W : Base.World} (n : nat) (u : string)
    (fields : list Project.SelectorField) : Base.M StaticEngine.StaticEngine unit :=
  match n with
  | O => Base.ret tt
  | S n' => Base.bind (StaticEngine.scrape u fields) (fun _ => scrape_times n' u fields)
  end.

(** With the default limits (1 to 3 seconds, adaptive), a fresh engine
    waits between 1 and 3 seconds. After 256 scrapes that failed their 4
    attempts each, the same engine has 1024 consecutive errors on record
    and its next wait raises instead of sleeping for 60 seconds. *)
Lemma wait_rate_limit_delay_witness :
  (exists delay io',
     @StaticEngine._wait_rate_limit offline_world (Base.io0, static_engine 3) =
       (Base.Ok tt, (io', static_engine 3),
        if Base.positive delay then [Base.EvSleep Base.RateLimitDelay delay] else []) /\
     (1 <= delay)%Q /\ (delay <= 3)%Q) /\
  (exists s ev,
     @scrape_times offline_world 256 "https://example.com/a" [title_field]
       (Base.io0, static_engine 3) = (Base.Ok tt, s, ev) /\
     StaticEngine._consecutive_errors (snd s) = 1024%nat /\
     @StaticEngine._wait_rate_limit offline_world s = (Base.Raise Base.overflow_error, s, [])).
Proof.
  destruct (@wait_rate_limit_delay offline_world) as [Hstatic _].
  split.
  - destruct (Hstatic Base.io0 (static_engine 3)) as (delay & io' & Hrun & _ & Hzero & _).
    exists delay, io'. split; [exact Hrun|].
    destruct Hzero as (_ & _ & Hin); [right; reflexivity|].
    apply Hin. vm_compute. discriminate.
  - destruct (@scrape_times offline_world 256 "https://example.com/a" [title_field]
                (Base.io0, static_engine 3)) as [[r [io e]] ev] eqn:Hrun.
    assert (Hstate : r = Base.Ok tt /\ StaticEngine._consecutive_errors e = 1024%nat /\
                     StaticEngine.rate_limit e = Project.default_rate_limit).
    { pose proof (f_equal (fun out : Base.Res unit *
                                      (Base.IO * StaticEngine.StaticEngine) *
                                      list Base.IOEvent =>
                             (fst (fst out),
                              StaticEngine._consecutive_errors (snd (snd (fst out))),
                              StaticEngine.rate_limit (snd (snd (fst out))))) Hrun) as Hsum.
      cbv beta in Hsum. cbn [fst snd] in Hsum.
      assert (Hleft :
                (fst (fst (@scrape_times offline_world 256 "https://example.com/a"
                             [title_field] (Base.io0, static_engine 3))),
                 StaticEngine._consecutive_errors
                   (snd (snd (fst (@scrape_times offline_world 256 "https://example.com/a"
                                     [title_field] (Base.io0, static_engine 3))))),
                 StaticEngine.rate_limit
                   (snd (snd (fst (@scrape_times offline_world 256 "https://example.com/a"
                                     [title_field] (Base.io0, static_engine 3)))))) =
                (Base.Ok tt, 1024%nat, Project.default_rate_limit))
        by (vm_compute; reflexivity).
      rewrite Hleft in Hsum. injection Hsum as Hr He Hl. auto. }
    destruct Hstate as (-> & Herrs & Hrl).
    exists (io, e), ev. split; [reflexivity|]. split; [exact Herrs|].
    pose proof (Hstatic io e) as Hout. unfold wait_outcome in Hout.
    rewrite Herrs, Hrl in Hout. exact Hout.
Defined.

(** ** More on the proxy pool *)

Section PoolFacts.
Import ProxyManager.

Lemma dict_update_keys {V} (k : string) (f : V -> V) (d : list (string * V)) :
  map fst (Py.dict_update k f d) = map fst d.
Proof.
  induction d as [|[k' v'] d IH]; [reflexivity|]. cbn.
  destruct (String.eqb k k'); cbn; [reflexivity | rewrite IH; reflexivity].
Qed.

Lemma dict_get_update {V} (k k' : string) (f : V -> V) (d : list (string * V)) :
  Py.dict_get k' (Py.dict_update k f d) =
    if String.eqb k' k then f <$> Py.dict_get k' d else Py.dict_get k' d.
Proof.
  induction d as [|[k0 v0] d IH]; cbn; [destruct (String.eqb k' k); reflexivity|].
  destruct (String.eqb_spec k k0) as [->|Hk]; cbn.
  - destruct (String.eqb_spec k' k0) as [->|Hk']; [reflexivity|].
    reflexivity.
  - destruct (String.eqb_spec k' k0) as [->|Hk'].
    + destruct (String.eqb_spec k0 k) as [->|_]; [congruence | reflexivity].
    + exact IH.
Qed.

Lemma dict_get_elem {V} (k : string) (v : V) (d : list (string * V)) :
  NoDup (map fst d) -> Py.dict_get k d = Some v <-> (k, v) ∈ d.
Proof.
  induction d as [|[k0 v0] d IH]; cbn; intros Hnd.
  - split; [discriminate | intros H; inversion H].
  - apply NoDup_cons in Hnd as [Hk0 Hnd]. specialize (IH Hnd).
    destruct (String.eqb_spec k k0) as [->|Hk].
    + split.
      * intros [= ->]. left.
      * intros H. apply elem_of_cons in H as [[= ->]|H]; [reflexivity|].
        exfalso. apply Hk0. apply list_elem_of_fmap. exists (k0, v). auto.
    + rewrite IH. split; [intros H; right; exact H |].
      intros H. apply elem_of_cons in H as [[= -> ->]|H]; [congruence | exact H].
Qed.

Lemma dict_get_keys {V} (k : string) (d : list (string * V)) :
  k ∈ map fst d <-> exists v, Py.dict_get k d = Some v.
Proof.
  rewrite <- dict_mem_keys. unfold Py.dict_mem.
  destruct (Py.dict_get k d) as [v|]; split; eauto; try discriminate.
  intros [v Hv]. discriminate.
Qed.

Lemma healthy_iff (p : ProxyPool) (u : string) :
  NoDup (map fst (proxies p)) ->
  u ∈ healthy_proxies p <->
  exists s, Py.dict_get u (proxies p) = Some s /\ is_healthy s = true.
Proof.
  intros Hnd. unfold healthy_proxies. rewrite list_elem_of_fmap. split.
  - intros ([k s] & -> & Hin). apply list_elem_of_filter in Hin as [Hh Hin].
    exists s. split; [apply dict_get_elem; assumption | exact Hh].
  - intros (s & Hget & Hh). exists (u, s). split; [reflexivity|].
    apply list_elem_of_filter. split; [exact Hh | apply dict_get_elem; assumption].
Qed.

Lemma healthy_keys (p : ProxyPool) (u : string) :
  u ∈ healthy_proxies p -> u ∈ map fst (proxies p).
Proof.
  unfold healthy_proxies. rewrite !list_elem_of_fmap.
  intros (kv & -> & Hin). apply list_elem_of_filter in Hin as [_ Hin]. eauto.
Qed.

End PoolFacts.

Section PoolRotation.
Import ProxyManager.

Lemma healthy_set_current_index (i : Z) (p : ProxyPool) :
  healthy_proxies (set_current_index i p) = healthy_proxies p.
Proof. reflexivity. Qed.

Lemma recover_all_keys (p : ProxyPool) :
  map fst (proxies (recover_all p)) = map fst (proxies p).
Proof.
  unfold recover_all. cbn. rewrite map_map. cbn. reflexivity.
Qed.

(** A call made while some proxy is healthy only moves the index. *)
Lemma get_next_proxy_healthy (p : ProxyPool) :
  healthy_proxies p <> [] ->
  get_next_proxy p =
    (healthy_proxies p !!
       Z.to_nat ((current_index p + 1) mod Z.of_nat (length (healthy_proxies p))),
     set_current_index
       ((current_index p + 1) mod Z.of_nat (length (healthy_proxies p))) p).
Proof.
  intros Hh. unfold get_next_proxy.
  destruct (healthy_proxies p) as [|h hs] eqn:E; [congruence|].
  rewrite E. reflexivity.
Qed.

(** The pool after [k] calls of [get_next_proxy]. *)
Definition after_calls (k : nat) (p : ProxyPool) : ProxyPool :=
  Nat.iter k (fun q => snd (get_next_proxy q)) p.

Lemma after_calls_state (p : ProxyPool) (k : nat) :
  healthy_proxies p <> [] ->
  proxies (after_calls k p) = proxies p /\
  (current_index (after_calls k p)) mod Z.of_nat (length (healthy_proxies p)) =
    (current_index p + Z.of_nat k) mod Z.of_nat (length (healthy_proxies p)).
Proof.
  intros Hh. induction k as [|k [IH1 IH2]].
  - cbn. rewrite Z.add_0_r. auto.
  - unfold after_calls in *. rewrite Nat.iter_succ.
    set (q := Nat.iter k (fun q => snd (get_next_proxy q)) p) in *.
    assert (Hq : healthy_proxies q = healthy_proxies p)
      by (unfold healthy_proxies; rewrite IH1; reflexivity).
    rewrite get_next_proxy_healthy by (rewrite Hq; exact Hh).
    cbn [snd proxies set_current_index current_index]. split; [exact IH1|].
    rewrite Hq, Z.mod_mod by (destruct (healthy_proxies p); [congruence | cbn; lia]).
    rewrite <- Z.add_mod_idemp_l, IH2, Z.add_mod_idemp_l
      by (destruct (healthy_proxies p); [congruence | cbn; lia]).
    f_equal. lia.
Qed.

End PoolRotation.

(** What a call of [get_next_proxy] returns. *)
Lemma get_next_proxy_cases (p : ProxyManager.ProxyPool) :
  match ProxyManager.get_next_proxy p with
  | (Some u, p') =>
      u ∈ ProxyManager.healthy_proxies p' /\
      u ∈ map fst (ProxyManager.proxies p) /\
      (ProxyManager.healthy_proxies p <> [] ->
       ProxyManager.proxies p' = ProxyManager.proxies p)
  | (None, p') =>
      ProxyManager.healthy_proxies p = [] /\ ProxyManager.healthy_proxies p' = []
  end.
Proof.
  unfold ProxyManager.get_next_proxy.
  destruct (ProxyManager.healthy_proxies p) as [|h0 hs0] eqn:Hp.
  - destruct (ProxyManager.healthy_proxies (ProxyManager.recover_all p)) as [|h hs] eqn:Hr.
    + split; [reflexivity | exact Hr].
    + destruct (rotation_in_range
                  (ProxyManager.current_index (ProxyManager.recover_all p)) (h :: hs))
        as (u & Hu & Hin); [discriminate|].
      rewrite Hu. split; [|split; [|congruence]].
      * rewrite healthy_set_current_index, Hr. exact Hin.
      * rewrite <- recover_all_keys. apply healthy_keys. rewrite Hr. exact Hin.
  - rewrite Hp.
    destruct (rotation_in_range (ProxyManager.current_index p) (h0 :: hs0))
      as (u & Hu & Hin); [discriminate|].
    rewrite Hu. split; [|split; [|reflexivity]].
    + rewrite healthy_set_current_index, Hp. exact Hin.
    + apply healthy_keys. rewrite Hp. exact Hin.
Qed.

(** X1. [get_next_proxy] hands out only proxies that are in the pool and
    healthy once the call is over; while some proxy is healthy it changes
    nothing but the rotation index, and it returns none only when no proxy
    is healthy before the call nor after it. *)
Theorem get_next_proxy_sound (p : ProxyManager.ProxyPool) :
  match ProxyManager.get_next_proxy p with
  | (Some u, p') =>
      u ∈ ProxyManager.healthy_proxies p' /\
      u ∈ map fst (ProxyManager.proxies p) /\
      (ProxyManager.healthy_proxies p <> [] ->
       ProxyManager.proxies p' = ProxyManager.proxies p)
  | (None, p') =>
      ProxyManager.healthy_proxies p = [] /\ ProxyManager.healthy_proxies p' = []
  end.
Proof. exact (get_next_proxy_cases p). Qed.

(** X2. While the set of healthy proxies does not change, successive calls
    of [get_next_proxy] walk through the healthy list in order, wrapping
    around: call number [k] (from 0) returns the entry at position
    [(current_index + k + 1) mod n]. So the first call on a new pool
    returns the second proxy, and every healthy proxy is returned within
    [n] calls. *)
Theorem get_next_proxy_round_robin (p : ProxyManager.ProxyPool) :
  ProxyManager.healthy_proxies p <> [] ->
  let h := ProxyManager.healthy_proxies p in
  let n := Z.of_nat (length h) in
  (forall k,
     fst (ProxyManager.get_next_proxy (after_calls k p)) =
       h !! Z.to_nat ((ProxyManager.current_index p + Z.of_nat k + 1) mod n)) /\
  (forall u, u ∈ h ->
     exists k, (k < length h)%nat /\
               fst (ProxyManager.get_next_proxy (after_calls k p)) = Some u).
Proof.
  intros Hh h n.
  assert (Hn : 0 < n) by (subst n h; destruct (ProxyManager.healthy_proxies p);
                          [congruence | cbn; lia]).
  assert (Hcall : forall k,
            fst (ProxyManager.get_next_proxy (after_calls k p)) =
              h !! Z.to_nat ((ProxyManager.current_index p + Z.of_nat k + 1) mod n)).
  { intros k. destruct (after_calls_state p k Hh) as [Hprox Hidx].
    assert (Hq : ProxyManager.healthy_proxies (after_calls k p) = h)
      by (unfold ProxyManager.healthy_proxies; rewrite Hprox; reflexivity).
    rewrite get_next_proxy_healthy by (rewrite Hq; exact Hh).
    cbn [fst]. rewrite Hq. fold n. f_equal. f_equal.
    rewrite <- Z.add_mod_idemp_l by lia. fold h n in Hidx. rewrite Hidx.
    rewrite Z.add_mod_idemp_l by lia. reflexivity. }
  split; [exact Hcall|].
  intros u Hu. apply list_elem_of_lookup in Hu as [j Hj].
  pose proof (lookup_lt_Some _ _ _ Hj) as Hlt.
  set (c := ProxyManager.current_index p).
  exists (Z.to_nat ((Z.of_nat j - c - 1) mod n)).
  pose proof (Z.mod_pos_bound (Z.of_nat j - c - 1) n Hn) as Hb.
  split; [subst n; lia|].
  rewrite Hcall. rewrite <- Hj. f_equal.
  rewrite Z2Nat.id by lia. fold c.
  replace (c + (Z.of_nat j - c - 1) mod n + 1) with ((Z.of_nat j - c - 1) mod n + (c + 1)) by lia.
  rewrite Z.add_mod_idemp_l by lia.
  replace (Z.of_nat j - c - 1 + (c + 1)) with (Z.of_nat j) by lia.
  rewrite Z.mod_small by (subst n; lia). lia.
Qed.

(** Three proxies, none of which has failed. *)
Definition fresh_pool : ProxyManager.ProxyPool :=
  ProxyManager.init_default ["a"; "b"; "c"]%string.

Lemma get_next_proxy_round_robin_witness :
  fst (ProxyManager.get_next_proxy fresh_pool) = Some "b"%string /\
  fst (ProxyManager.get_next_proxy (after_calls 1 fresh_pool)) = Some "c"%string /\
  fst (ProxyManager.get_next_proxy (after_calls 2 fresh_pool)) = Some "a"%string.
Proof.
  destruct (get_next_proxy_round_robin fresh_pool) as [Hcall _];
    [vm_compute; discriminate|].
  split; [exact (Hcall 0%nat) | split; [exact (Hcall 1%nat) | exact (Hcall 2%nat)]].
Defined.

Section PoolMarks.
Import ProxyManager.

Lemma mark_failure_keys (u : string) (err : option string) (p : ProxyPool) :
  map fst (proxies (mark_failure u err p)) = map fst (proxies p) /\
  max_fail_count (mark_failure u err p) = max_fail_count p.
Proof.
  unfold mark_failure. destruct (Py.dict_mem u (proxies p)); [|auto].
  cbn. rewrite dict_update_keys. auto.
Qed.

Lemma mark_failure_get (u u' : string) (err : option string) (p : ProxyPool) :
  Py.dict_get u' (proxies (mark_failure u err p)) =
    if String.eqb u' u then
      (fun s =>
         {| url := url s;
            is_healthy := if max_fail_count p <=? fail_count s + 1 then false
                          else is_healthy s;
            last_check := last_check s; response_time_ms := response_time_ms s;
            fail_count := fail_count s + 1; success_count := success_count s;
            last_error := err |}) <$> Py.dict_get u' (proxies p)
    else Py.dict_get u' (proxies p).
Proof.
  unfold mark_failure, Py.dict_mem.
  destruct (Py.dict_get u (proxies p)) as [s|] eqn:Hget.
  - cbn [proxies set_proxies]. apply dict_get_update.
  - destruct (String.eqb_spec u' u) as [->|_]; [rewrite Hget|]; reflexivity.
Qed.

Lemma mark_success_get (u u' : string) (p : ProxyPool) :
  Py.dict_get u' (proxies (mark_success u p)) =
    if String.eqb u' u then
      (fun s =>
         {| url := url s; is_healthy := true; last_check := last_check s;
            response_time_ms := response_time_ms s; fail_count := 0;
            success_count := success_count s + 1; last_error := None |})
        <$> Py.dict_get u' (proxies p)
    else Py.dict_get u' (proxies p).
Proof.
  unfold mark_success, Py.dict_mem.
  destruct (Py.dict_get u (proxies p)) as [s|] eqn:Hget.
  - cbn [proxies set_proxies]. apply dict_get_update.
  - destruct (String.eqb_spec u' u) as [->|_]; [rewrite Hget|]; reflexivity.
Qed.

Lemma mark_success_keys (u : string) (p : ProxyPool) :
  map fst (proxies (mark_success u p)) = map fst (proxies p).
Proof.
  unfold mark_success. destruct (Py.dict_mem u (proxies p)); [|auto].
  cbn. apply dict_update_keys.
Qed.

End PoolMarks.

(** X3. A proxy with no failure on record and in service is taken out of
    service by exactly its [max_fail_count]-th failure in a row: after [n]
    calls of [mark_failure] its failure count is [n], and it is healthy
    if and only if [n = 0] or [n < max_fail_count]. The other proxies are
    not touched. *)
Theorem mark_failure_streak (p : ProxyManager.ProxyPool) (u : string)
    (err : option string) (s : ProxyManager.ProxyStatus) (n : nat) :
  NoDup (map fst (ProxyManager.proxies p)) ->
  Py.dict_get u (ProxyManager.proxies p) = Some s ->
  ProxyManager.fail_count s = 0 ->
  ProxyManager.is_healthy s = true ->
  let p' := Nat.iter n (ProxyManager.mark_failure u err) p in
  (exists s',
     Py.dict_get u (ProxyManager.proxies p') = Some s' /\
     ProxyManager.fail_count s' = Z.of_nat n /\
     ProxyManager.success_count s' = ProxyManager.success_count s) /\
  (u ∈ ProxyManager.healthy_proxies p' <->
     n = 0%nat \/ Z.of_nat n < ProxyManager.max_fail_count p) /\
  (forall u', u' <> u ->
     Py.dict_get u' (ProxyManager.proxies p') = Py.dict_get u' (ProxyManager.proxies p)).
Proof.
  intros Hnd Hget Hfc Hh p'.
  assert (Hinv : map fst (ProxyManager.proxies p') = map fst (ProxyManager.proxies p) /\
                 ProxyManager.max_fail_count p' = ProxyManager.max_fail_count p /\
                 (forall u', u' <> u ->
                    Py.dict_get u' (ProxyManager.proxies p') =
                    Py.dict_get u' (ProxyManager.proxies p)) /\
                 exists s',
                   Py.dict_get u (ProxyManager.proxies p') = Some s' /\
                   ProxyManager.fail_count s' = Z.of_nat n /\
                   ProxyManager.success_count s' = ProxyManager.success_count s /\
                   (ProxyManager.is_healthy s' = true <->
                      n = 0%nat \/ Z.of_nat n < ProxyManager.max_fail_count p)).
  { subst p'. induction n as [|n (IHk & IHm & IHo & s1 & IHg & IHf & IHs & IHh)].
    - cbn. split; [reflexivity|]. split; [reflexivity|]. split; [reflexivity|].
      exists s. repeat split; auto.
    - rewrite Nat.iter_succ.
      set (q := Nat.iter n (ProxyManager.mark_failure u err) p) in *.
      destruct (mark_failure_keys u err q) as [Hk Hm].
      split; [congruence|]. split; [congruence|]. split.
      + intros u' Hne. rewrite mark_failure_get.
        destruct (String.eqb_spec u' u); [contradiction | auto].
      + rewrite mark_failure_get, String.eqb_refl, IHg. cbn [fmap option_fmap option_map].
        eexists. split; [reflexivity|]. cbn. rewrite IHf, IHm.
        split; [lia|]. split; [exact IHs|].
        destruct (Z.leb_spec (ProxyManager.max_fail_count p) (Z.of_nat n + 1)) as [Hle|Hgt].
        * split; [discriminate | lia].
        * rewrite IHh. split; [intros _; right; lia | intros _; right; lia]. }
  destruct Hinv as (Hk & Hm & Ho & s' & Hg & Hf & Hs & Hhl).
  split; [exists s'; auto|]. split; [|exact Ho].
  rewrite healthy_iff by (rewrite Hk; exact Hnd). split.
  - intros (s2 & Hg2 & Hh2). rewrite Hg in Hg2. injection Hg2 as <-. apply Hhl. exact Hh2.
  - intros Hn. exists s'. split; [exact Hg | apply Hhl; exact Hn].
Qed.

Lemma mark_failure_streak_witness :
  "b"%string ∈ ProxyManager.healthy_proxies
                 (Nat.iter 2 (ProxyManager.mark_failure "b" None) fresh_pool) /\
  ~ "b"%string ∈ ProxyManager.healthy_proxies
                   (Nat.iter 3 (ProxyManager.mark_failure "b" None) fresh_pool).
Proof.
  assert (Hnd : NoDup (map fst (ProxyManager.proxies fresh_pool))).
  { vm_compute. repeat constructor; intros H;
      repeat (inversion H as [|? ? ? H']; subst; clear H; rename H' into H). }
  split.
  - apply (mark_failure_streak fresh_pool "b" None (ProxyManager.new_status "b") 2);
      [exact Hnd | reflexivity | reflexivity | reflexivity | right; vm_compute; reflexivity].
  - intros Hin.
    apply (mark_failure_streak fresh_pool "b" None (ProxyManager.new_status "b") 3)
      in Hin; [| exact Hnd | reflexivity | reflexivity | reflexivity].
    destruct Hin as [Hz|Hlt]; [discriminate | vm_compute in Hlt; discriminate].
Defined.

(** X4. Whatever its record, a proxy of the pool reported with [mark_success]
    is healthy again with a failure count of 0 and no error on record;
    the other proxies are not touched, and the next [get_next_proxy]
    returns a proxy. *)
Theorem mark_success_restores (p : ProxyManager.ProxyPool) (u : string) :
  NoDup (map fst (ProxyManager.proxies p)) ->
  u ∈ map fst (ProxyManager.proxies p) ->
  let p' := ProxyManager.mark_success u p in
  u ∈ ProxyManager.healthy_proxies p' /\
  (exists s s',
     Py.dict_get u (ProxyManager.proxies p) = Some s /\
     Py.dict_get u (ProxyManager.proxies p') = Some s' /\
     ProxyManager.fail_count s' = 0 /\ ProxyManager.last_error s' = None /\
     ProxyManager.success_count s' = ProxyManager.success_count s + 1) /\
  (forall u', u' <> u ->
     Py.dict_get u' (ProxyManager.proxies p') = Py.dict_get u' (ProxyManager.proxies p)) /\
  fst (ProxyManager.get_next_proxy p') <> None.
Proof.
  intros Hnd Hin p'. apply dict_get_keys in Hin as [s Hs].
  assert (Hs' : Py.dict_get u (ProxyManager.proxies p') =
                Some {| ProxyManager.url := ProxyManager.url s;
                        ProxyManager.is_healthy := true;
                        ProxyManager.last_check := ProxyManager.last_check s;
                        ProxyManager.response_time_ms := ProxyManager.response_time_ms s;
                        ProxyManager.fail_count := 0;
                        ProxyManager.success_count := ProxyManager.success_count s + 1;
                        ProxyManager.last_error := None |}).
  { subst p'. rewrite mark_success_get, String.eqb_refl, Hs. reflexivity. }
  assert (Hh : u ∈ ProxyManager.healthy_proxies p').
  { apply healthy_iff; [subst p'; rewrite mark_success_keys; exact Hnd|].
    eexists. split; [exact Hs' | reflexivity]. }
  split; [exact Hh|]. split; [eexists _, _; split; [exact Hs|]; split; [exact Hs'|]; auto|].
  split.
  - intros u' Hne. subst p'. rewrite mark_success_get.
    destruct (String.eqb_spec u' u); [contradiction | reflexivity].
  - pose proof (get_next_proxy_healthy p') as Hnext.
    rewrite Hnext by (intros E; rewrite E in Hh; inversion Hh).
    cbn [fst].
    destruct (rotation_in_range (ProxyManager.current_index p')
                (ProxyManager.healthy_proxies p')) as (x & Hx & _);
      [intros E; rewrite E in Hh; inversion Hh|].
    rewrite Hx. discriminate.
Qed.

Lemma mark_success_restores_witness :
  "http://10.0.0.1:8080"%string ∈
    ProxyManager.healthy_proxies (ProxyManager.mark_success "http://10.0.0.1:8080" lockout_pool) /\
  fst (ProxyManager.get_next_proxy
         (ProxyManager.mark_success "http://10.0.0.1:8080" lockout_pool)) <> None.
Proof.
  destruct (mark_success_restores lockout_pool "http://10.0.0.1:8080")
    as (Hh & _ & _ & Hnext).
  - vm_compute. repeat constructor. intros H. inversion H.
  - vm_compute. left.
  - split; [exact Hh | exact Hnext].
Defined.

Section PoolMembership.
Import ProxyManager.

Lemma dict_set_absent {V} (k : string) (v : V) (d : list (string * V)) :
  k ∉ map fst d -> Py.dict_set k v d = d ++ [(k, v)].
Proof.
  induction d as [|[k' v'] d IH]; cbn; intros Hk; [reflexivity|].
  apply not_elem_of_cons in Hk as [Hne Hk].
  destruct (String.eqb_spec k k'); [contradiction|]. rewrite IH by exact Hk. reflexivity.
Qed.

Lemma filter_keys_absent {V} (k : string) (d : list (string * V)) :
  k ∉ map fst d -> filter (fun kv => fst kv ≠ k) d = d.
Proof.
  induction d as [|[k' v'] d IH]; intros Hk; [reflexivity|].
  cbn [map fst] in Hk. apply not_elem_of_cons in Hk as [Hne Hk].
  rewrite filter_cons. cbn [fst]. rewrite decide_True by congruence.
  rewrite IH by exact Hk. reflexivity.
Qed.

Lemma dict_get_filter_ne {V} (k k' : string) (d : list (string * V)) :
  k' <> k -> Py.dict_get k' (filter (fun kv => fst kv ≠ k) d) = Py.dict_get k' d.
Proof.
  intros Hne. induction d as [|[k0 v0] d IH]; [reflexivity|].
  rewrite filter_cons. cbn [fst].
  destruct (decide (k0 ≠ k)) as [Hk|Hk]; cbn.
  - destruct (String.eqb k' k0); [reflexivity | exact IH].
  - destruct (String.eqb_spec k' k0) as [->|_]; [|exact IH].
    exfalso. apply Hk. exact Hne.
Qed.

Lemma set_proxies_same (p : ProxyPool) : set_proxies (proxies p) p = p.
Proof. destruct p; reflexivity. Qed.

Lemma set_proxies_twice (a b : list (string * ProxyStatus)) (p : ProxyPool) :
  set_proxies a (set_proxies b p) = set_proxies a p.
Proof. reflexivity. Qed.

End PoolMembership.

(** X5. [add_proxy] leaves the pool alone when the address is already there,
    so the record of a known proxy is not reset. A new address goes to
    the end of the pool as a healthy proxy, and [remove_proxy] undoes the
    addition. *)
Theorem add_proxy_effect (p : ProxyManager.ProxyPool) (u : string) :
  (u ∈ map fst (ProxyManager.proxies p) -> ProxyManager.add_proxy u p = p) /\
  (u ∉ map fst (ProxyManager.proxies p) ->
     ProxyManager.proxies (ProxyManager.add_proxy u p) =
       ProxyManager.proxies p ++ [(u, ProxyManager.new_status u)] /\
     ProxyManager.healthy_proxies (ProxyManager.add_proxy u p) =
       ProxyManager.healthy_proxies p ++ [u] /\
     ProxyManager.remove_proxy u (ProxyManager.add_proxy u p) = p).
Proof.
  unfold ProxyManager.add_proxy. split; intros Hu.
  - apply dict_mem_keys in Hu. rewrite Hu. reflexivity.
  - assert (Py.dict_mem u (ProxyManager.proxies p) = false) as ->.
    { destruct (Py.dict_mem u (ProxyManager.proxies p)) eqn:E; [|reflexivity].
      apply dict_mem_keys in E. contradiction. }
    cbn [ProxyManager.proxies ProxyManager.set_proxies].
    rewrite dict_set_absent by exact Hu. split; [reflexivity|]. split.
    + unfold ProxyManager.healthy_proxies. cbn [ProxyManager.proxies ProxyManager.set_proxies].
      rewrite filter_app, map_app. f_equal.
    + unfold ProxyManager.remove_proxy.
      cbn [ProxyManager.proxies ProxyManager.set_proxies].
      rewrite set_proxies_twice, filter_app, filter_keys_absent by exact Hu.
      rewrite filter_cons. cbn [fst]. rewrite decide_False by (intros H; apply H; reflexivity).
      rewrite filter_nil, app_nil_r. apply set_proxies_same.
Qed.

(** X6. After [remove_proxy] the address is no longer in the pool, whatever
    its record was, and [get_next_proxy] does not return it; the other
    proxies keep their records and the rotation index is left as it was.
    Removing an address that is not in the pool changes nothing. *)
Theorem remove_proxy_effect (p : ProxyManager.ProxyPool) (u : string) :
  let p' := ProxyManager.remove_proxy u p in
  (u ∉ map fst (ProxyManager.proxies p')) /\
  (forall u', u' <> u ->
     Py.dict_get u' (ProxyManager.proxies p') = Py.dict_get u' (ProxyManager.proxies p)) /\
  ProxyManager.current_index p' = ProxyManager.current_index p /\
  fst (ProxyManager.get_next_proxy p') <> Some u /\
  (u ∉ map fst (ProxyManager.proxies p) -> p' = p).
Proof.
  intros p'.
  assert (Hgone : u ∉ map fst (ProxyManager.proxies p')).
  { subst p'. unfold ProxyManager.remove_proxy. cbn [ProxyManager.proxies ProxyManager.set_proxies].
    rewrite list_elem_of_fmap. intros ([k s] & -> & Hin).
    apply list_elem_of_filter in Hin as [Hne _]. apply Hne. reflexivity. }
  split; [exact Hgone|]. split; [|split; [reflexivity|split]].
  - intros u' Hne. subst p'. unfold ProxyManager.remove_proxy.
    cbn [ProxyManager.proxies ProxyManager.set_proxies]. apply dict_get_filter_ne. exact Hne.
  - pose proof (get_next_proxy_cases p') as Hcases.
    destruct (ProxyManager.get_next_proxy p') as [[x|] q]; cbn [fst]; [|discriminate].
    destruct Hcases as (_ & Hkeys & _). intros [= ->]. contradiction.
  - intros Hu. subst p'. unfold ProxyManager.remove_proxy.
    rewrite filter_keys_absent by exact Hu. apply set_proxies_same.
Qed.

(** X7. [reset_all] puts every proxy back in service with a failure count of
    0 and no error on record, keeping the order of the pool and the
    success counts; on a pool that is not empty the next
    [get_next_proxy] then returns a proxy. *)
Theorem reset_all_effect (p : ProxyManager.ProxyPool) :
  let p' := ProxyManager.reset_all p in
  ProxyManager.healthy_proxies p' = map fst (ProxyManager.proxies p) /\
  Forall (fun kv => ProxyManager.fail_count (snd kv) = 0 /\
                    ProxyManager.last_error (snd kv) = None)
         (ProxyManager.proxies p') /\
  map (fun kv => (fst kv, ProxyManager.success_count (snd kv))) (ProxyManager.proxies p') =
    map (fun kv => (fst kv, ProxyManager.success_count (snd kv))) (ProxyManager.proxies p) /\
  (ProxyManager.proxies p <> [] -> fst (ProxyManager.get_next_proxy p') <> None).
Proof.
  intros p'.
  assert (Hh : ProxyManager.healthy_proxies p' = map fst (ProxyManager.proxies p)).
  { subst p'. unfold ProxyManager.healthy_proxies, ProxyManager.reset_all.
    cbn [ProxyManager.proxies ProxyManager.set_proxies].
    induction (ProxyManager.proxies p) as [|[k s] l IH]; [reflexivity|].
    cbn [map]. rewrite filter_cons, decide_True by reflexivity.
    cbn [map fst]. f_equal. exact IH. }
  split; [exact Hh|]. split; [|split].
  - subst p'. unfold ProxyManager.reset_all. cbn [ProxyManager.proxies ProxyManager.set_proxies].
    apply Forall_fmap. apply Forall_true. intros kv. cbn. auto.
  - subst p'. unfold ProxyManager.reset_all. cbn [ProxyManager.proxies ProxyManager.set_proxies].
    rewrite map_map. reflexivity.
  - intros Hne.
    assert (Hh' : ProxyManager.healthy_proxies p' <> []).
    { rewrite Hh. destruct (ProxyManager.proxies p); [congruence | discriminate]. }
    rewrite get_next_proxy_healthy by exact Hh'. cbn [fst].
    destruct (rotation_in_range (ProxyManager.current_index p')
                (ProxyManager.healthy_proxies p') Hh') as (x & Hx & _).
    rewrite Hx. discriminate.
Qed.

Section PoolStatistics.
Import ProxyManager.

Lemma sum_ones_nonneg {A} (l : list A) (z : Z) :
  0 <= z -> 0 <= fold_left Z.add (map (fun _ => 1) l) z.
Proof.
  revert z. induction l as [|x l IH]; cbn; intros z Hz; [exact Hz|]. apply IH. lia.
Qed.

Lemma healthy_length (p : ProxyPool) :
  (length (healthy_proxies p) <= length (proxies p))%nat.
Proof. unfold healthy_proxies. rewrite length_map. apply length_filter. Qed.

End PoolStatistics.

(** X8. [get_statistics] never divides by zero, with or without measured
    response times. Its counts add up: [healthy + unhealthy = total],
    none of them is negative, and [total] is the number of proxies. On
    an empty pool every count is 0 and the average is [round(0, 2)]. *)
Theorem get_statistics_counts (round : Q -> Z -> Q) (p : ProxyManager.ProxyPool) :
  exists st,
    ProxyManager.get_statistics round p = Some st /\
    ProxyManager.total st = Z.of_nat (length (ProxyManager.proxies p)) /\
    ProxyManager.healthy st + ProxyManager.unhealthy st = ProxyManager.total st /\
    0 <= ProxyManager.healthy st /\ 0 <= ProxyManager.unhealthy st /\
    (ProxyManager.proxies p = [] ->
       st = {| ProxyManager.total := 0; ProxyManager.healthy := 0;
               ProxyManager.unhealthy := 0; ProxyManager.total_successes := 0;
               ProxyManager.total_failures := 0;
               ProxyManager.average_response_ms := round 0%Q 2 |}).
Proof.
  unfold ProxyManager.get_statistics, ProxyManager.truediv.
  set (n := ProxyManager.sum_int _).
  assert (Hn : 0 <= n) by (subst n; unfold ProxyManager.sum_int; apply sum_ones_nonneg; lia).
  destruct (Z.eqb_spec (Z.max 1 n) 0) as [Hz|_]; [lia|].
  eexists. split; [reflexivity|]. cbn.
  pose proof (healthy_length p). repeat split; try lia.
  intros Hnil. subst n. unfold ProxyManager.healthy_proxies, ProxyManager.all_proxies.
  rewrite Hnil. reflexivity.
Qed.

(** ** The health checks *)

Section HealthFacts.
Import Base ProxyManager ProxyHealth.
Context `{W : World}.
Variable status_error_text : Z -> string -> string -> string.

(** The outcome of a check on this reply. *)
Definition check_outcome (check_url : string) (reply : HttpReply) : bool :=
  match check_failure status_error_text check_url reply with
  | None => true
  | Some _ => false
  end.

(** What one [check_proxy] does. *)
Definition check_proxy_post (u : string) (io : IO) (p : ProxyPool)
    (ok : bool) (io' : IO) (p' : ProxyPool) (ev : list IOEvent) : Prop :=
  map fst (proxies p') = map fst (proxies p) /\
  health_check_url p' = health_check_url p /\
  health_check_interval p' = health_check_interval p /\
  (forall u', u' <> u -> Py.dict_get u' (proxies p') = Py.dict_get u' (proxies p)) /\
  match Py.dict_get u (proxies p) with
  | None => ok = false /\ io' = io /\ p' = p /\ ev = []
  | Some s =>
      let reply := http_get (requests io) (health_check_url p) (Some u) in
      ok = check_outcome (health_check_url p) reply /\
      requests io' = S (requests io) /\
      ev = [EvHttpGet (health_check_url p) (Some u) reply] /\
      exists s',
        Py.dict_get u (proxies p') = Some s' /\
        is_healthy s' = ok /\
        fail_count s' = fail_count s /\ success_count s' = success_count s /\
        last_error s' = check_failure status_error_text (health_check_url p) reply /\
        (exists n, last_check s' = time_time n /\ (clock_reads io < n)%nat)
  end.

Lemma check_proxy_run (u : string) (io : IO) (p : ProxyPool) :
  exists ok io' p' ev,
    check_proxy status_error_text u (io, p) = (Ok ok, (io', p'), ev) /\
    check_proxy_post u io p ok io' p' ev.
Proof.
  unfold check_proxy, check_proxy_post, check_outcome.
  unfold bind at 1, get at 1. cbn [fst snd].
  destruct (Py.dict_get u (proxies p)) as [s|] eqn:Hget.
  - unfold bind, now, get_page, modify, ret.
    cbn [fst snd requests bump_clock clock_reads random_draws].
    destruct (check_failure status_error_text (health_check_url p)
                (http_get (requests io) (health_check_url p) (Some u))) as [msg|] eqn:Hf;
      cbn [fst snd app];
      eexists _, _, _, _; (split; [reflexivity|]);
      cbn [proxies set_proxies health_check_url health_check_interval requests bump_clock
           bump_requests clock_reads];
      rewrite dict_update_keys;
      (split; [reflexivity|]); (split; [reflexivity|]); (split; [reflexivity|]);
      (split; [intros u' Hne; rewrite dict_get_update;
               destruct (String.eqb_spec u' u); [contradiction | reflexivity]|]);
      (split; [reflexivity|]); (split; [reflexivity|]); (split; [reflexivity|]);
      rewrite dict_get_update, String.eqb_refl, Hget; cbn [fmap option_fmap option_map];
      eexists; (split; [reflexivity|]); cbn;
      repeat split; eexists; (split; [reflexivity | lia]).
  - eexists _, _, _, _. split; [reflexivity|].
    repeat split; reflexivity.
Qed.

End HealthFacts.

Section HealthRounds.
Import Base ProxyManager ProxyHealth.
Context `{W : World}.
Variable status_error_text : Z -> string -> string -> string.

(** The recorded outcomes agree with the health flags of the pool. *)
Definition outcomes_hold (results : list (string * bool)) (p : ProxyPool) : Prop :=
  forall k b, (k, b) ∈ results ->
    exists s, Py.dict_get k (proxies p) = Some s /\ is_healthy s = b.

Lemma callback_run (cb : option ProgressCallback) (current total : Z) (u : string)
    (ok : bool) (s : IO * ProxyPool) :
  exists r ev,
    match cb with
    | Some f =>
        (emit (EvCheckProgress current total u ok) >>
         match f current total u ok with
         | Some msg => raise msg
         | None => ret tt
         end)%M
    | None => ret tt
    end s = (r, s, ev) /\
    (cb = None -> r = Ok tt).
Proof.
  destruct cb as [f|]; [|eexists _, _; split; reflexivity].
  unfold bind, emit, raise, ret. destruct (f current total u ok);
    eexists _, _; (split; [reflexivity | discriminate]).
Qed.

Lemma check_each_run (total : Z) (cb : option ProgressCallback) :
  forall (keys : list string) (i : nat) (acc : list (string * bool)) (io : IO) (p : ProxyPool),
    NoDup (map fst acc ++ keys) ->
    (forall k, k ∈ keys -> k ∈ map fst (proxies p)) ->
    outcomes_hold acc p ->
    exists r s' ev,
      check_each status_error_text keys i total cb acc (io, p) = (r, s', ev) /\
      map fst (proxies (snd s')) = map fst (proxies p) /\
      (cb = None -> exists results, r = Ok results) /\
      forall results, r = Ok results ->
        map fst results = map fst acc ++ keys /\
        outcomes_hold results (snd s') /\
        requests (fst s') = (requests io + length keys)%nat.
Proof.
  induction keys as [|u rest IH]; intros i acc io p Hnd Hkeys Hacc.
  - cbn [check_each]. exists (Ok acc), (io, p), []. split; [reflexivity|].
    split; [reflexivity|]. split; [eauto|]. intros results [= <-].
    rewrite app_nil_r. cbn. split; [reflexivity|]. split; [exact Hacc | lia].
  - cbn [check_each].
    destruct (check_proxy_run status_error_text u io p)
      as (ok & io1 & p1 & ev1 & Hchk & Hk1 & _ & _ & Hother & Hu).
    assert (Hrel : relabel EvCheck (check_proxy status_error_text u) (io, p) =
                   (Ok ok, (io1, p1), map EvCheck ev1))
      by (unfold relabel; rewrite Hchk; reflexivity).
    apply bind_any with (1 := Hrel).
    assert (Hfresh : u ∉ map fst acc).
    { apply NoDup_app in Hnd as (_ & Hdisj & _). intros Hin.
      apply (Hdisj u Hin). left. }
    assert (Hset : Py.dict_set u ok acc = acc ++ [(u, ok)])
      by (apply dict_set_absent; exact Hfresh).
    rewrite Hset.
    assert (Hin : u ∈ map fst (proxies p)) by (apply Hkeys; left).
    apply dict_get_keys in Hin as [s Hs].
    rewrite Hs in Hu. destruct Hu as (Hok & Hreq & _ & s' & Hs' & Hh' & _).
    destruct (callback_run cb (Z.of_nat i + 1) total u ok (io1, p1)) as (rc & evc & Hcb & Hnone).
    destruct rc as [[]|msg].
    2: { apply bind_raised with (1 := Hcb).
         split; [exact Hk1|]. split; [intros Hc; specialize (Hnone Hc); discriminate|].
         discriminate. }
    apply bind_any with (1 := Hcb).
    destruct (IH (S i) (acc ++ [(u, ok)]) io1 p1) as (r & s2 & ev2 & Hrun & Hk2 & Hn2 & Hres).
    { rewrite map_app. cbn [map fst]. rewrite <- app_assoc. exact Hnd. }
    { intros k Hk. rewrite Hk1. apply Hkeys. right. exact Hk. }
    { intros k b Hkb. apply elem_of_app in Hkb as [Hkb|Hkb].
      - destruct (Hacc k b Hkb) as (s0 & Hs0 & Hh0). exists s0. split; [|exact Hh0].
        rewrite Hother; [exact Hs0|]. intros ->. apply Hfresh.
        apply list_elem_of_fmap. exists (u, b). auto.
      - apply list_elem_of_singleton in Hkb as [= -> ->]. exists s'. auto. }
    exists r, s2, ev2. split; [exact Hrun|]. split; [congruence|]. split; [exact Hn2|].
    intros results Hr. destruct (Hres results Hr) as (Hm & Ho & Hq).
    split; [rewrite Hm, map_app, <- app_assoc; reflexivity|]. split; [exact Ho|].
    rewrite Hq, Hreq. cbn [length]. lia.
Qed.

End HealthRounds.

(** X9. A health check on an address that is not in the pool returns false
    at once: no request is made and nothing changes. On a proxy of the
    pool it makes exactly one request, to the check URL through that
    proxy, returns whether the request got a good status, and sets the
    healthy flag of the proxy to that outcome; the failure and success
    counts of the proxy and the records of the other proxies are left as
    they were. *)
Theorem check_proxy_outcome `{W : Base.World}
    (status_error_text : Z -> string -> string -> string)
    (u : string) (io : Base.IO) (p : ProxyManager.ProxyPool) :
  exists ok io' p' ev,
    ProxyHealth.check_proxy status_error_text u (io, p) = (Base.Ok ok, (io', p'), ev) /\
    check_proxy_post status_error_text u io p ok io' p' ev.
Proof. apply check_proxy_run. Qed.

(** X10. On a pool with distinct addresses, [check_all_proxies] makes one
    request per proxy and, unless the progress callback raises, returns
    one outcome per proxy in the order of the pool; the proxies that are
    healthy after the round are exactly those whose outcome is true. *)
Theorem check_all_proxies_report `{W : Base.World}
    (status_error_text : Z -> string -> string -> string)
    (cb : option ProxyHealth.ProgressCallback) (io : Base.IO) (p : ProxyManager.ProxyPool) :
  NoDup (map fst (ProxyManager.proxies p)) ->
  exists r s' ev,
    ProxyHealth.check_all_proxies status_error_text cb (io, p) = (r, s', ev) /\
    (cb = None -> exists results, r = Base.Ok results) /\
    forall results, r = Base.Ok results ->
      map fst results = map fst (ProxyManager.proxies p) /\
      (forall u, u ∈ ProxyManager.healthy_proxies (snd s') <-> (u, true) ∈ results) /\
      Base.requests (fst s') =
        (Base.requests io + length (ProxyManager.proxies p))%nat.
Proof.
  intros Hnd. unfold ProxyHealth.check_all_proxies.
  eapply bind_any; [reflexivity|]. cbn [fst snd app].
  destruct (check_each_run status_error_text
              (Z.of_nat (length (ProxyManager.proxies p))) cb
              (map fst (ProxyManager.proxies p)) 0 [] io p)
    as (r & s' & ev & Hrun & Hkeys & Hnone & Hres).
  { exact Hnd. }
  { auto. }
  { intros k b Hin. inversion Hin. }
  exists r, s', ev. split; [exact Hrun|]. split; [exact Hnone|].
  intros results Hr. destruct (Hres results Hr) as (Hm & Ho & Hq).
  cbn [map app] in Hm. split; [exact Hm|]. split; [|rewrite Hq, length_map; reflexivity].
  intros u. rewrite healthy_iff by (rewrite Hkeys; exact Hnd). split.
  - intros (s & Hs & Hh).
    assert (u ∈ map fst results) as Hin.
    { rewrite Hm, <- Hkeys. apply dict_get_keys. eauto. }
    apply list_elem_of_fmap in Hin as ([k b] & -> & Hin). cbn [fst] in *.
    destruct (Ho k b Hin) as (s0 & Hs0 & Hh0). rewrite Hs in Hs0. injection Hs0 as <-.
    rewrite Hh in Hh0. subst b. exact Hin.
  - intros Hin. apply (Ho u true Hin).
Qed.

Lemma check_all_proxies_report_witness :
  exists results s' ev,
    @ProxyHealth.check_all_proxies online_world (fun _ _ _ => "bad status"%string) None
      (Base.io0, fresh_pool) = (Base.Ok results, s', ev) /\
    map fst results = ["a"; "b"; "c"]%string /\
    Base.requests (fst s') = 3%nat.
Proof.
  destruct (@check_all_proxies_report online_world (fun _ _ _ => "bad status"%string) None
              Base.io0 fresh_pool) as (r & s' & ev & Hrun & Hnone & Hres).
  - vm_compute. repeat constructor; intros H;
      repeat (inversion H as [|? ? ? H']; subst; clear H; rename H' into H).
  - destruct (Hnone eq_refl) as [results ->].
    destruct (Hres results eq_refl) as (Hm & _ & Hq).
    exists results, s', ev. split; [exact Hrun|]. split; [exact Hm | exact Hq].
Defined.

Section StaleFacts.
Import Base ProxyManager ProxyHealth.
Context `{W : World}.
Variable status_error_text : Z -> string -> string -> string.

(** The proxies of [items] found stale at time [t]. *)
Definition stale_among (t interval : Q) (items : list (string * ProxyStatus)) : list string :=
  map fst (filter (fun kv => is_stale t interval (snd kv) = true) items).

Lemma check_stale_each_run (t : Q) :
  forall (items : list (string * ProxyStatus)) (acc : list string) (io : IO) (p : ProxyPool),
    (forall kv, kv ∈ items -> fst kv ∈ map fst (proxies p)) ->
    exists io' p' ev,
      check_stale_each status_error_text items t acc (io, p) =
        (Ok (acc ++ stale_among t (health_check_interval p) items), (io', p'), ev) /\
      map fst (proxies p') = map fst (proxies p) /\
      health_check_interval p' = health_check_interval p /\
      (forall u, u ∉ stale_among t (health_check_interval p) items ->
         Py.dict_get u (proxies p') = Py.dict_get u (proxies p)) /\
      requests io' =
        (requests io + length (stale_among t (health_check_interval p) items))%nat.
Proof.
  induction items as [|[u s] rest IH]; intros acc io p Hitems.
  - cbn [check_stale_each]. exists io, p, []. unfold stale_among. cbn.
    rewrite app_nil_r. repeat split; lia.
  - cbn [check_stale_each]. unfold bind at 1, get at 1. cbn [fst snd].
    unfold stale_among. rewrite filter_cons. cbn [snd].
    destruct (is_stale t (health_check_interval p) s) eqn:Hst.
    + rewrite decide_True by reflexivity. cbn [map fst].
      destruct (check_proxy_run status_error_text u io p)
        as (ok & io1 & p1 & ev1 & Hchk & Hk1 & _ & Hi1 & Hother & Hu).
      assert (Hin : u ∈ map fst (proxies p)) by (apply (Hitems (u, s)); left).
      apply dict_get_keys in Hin as [s0 Hs0]. rewrite Hs0 in Hu.
      destruct Hu as (_ & Hreq & _).
      destruct (IH (acc ++ [u]) io1 p1) as (io2 & p2 & ev2 & Hrun & Hk2 & Hi2 & Ho2 & Hq2).
      { intros kv Hkv. rewrite Hk1. apply Hitems. right. exact Hkv. }
      exists io2, p2, (ev1 ++ ev2). split.
      * unfold bind. rewrite Hchk, Hrun, Hi1. unfold stale_among.
        rewrite <- app_assoc. reflexivity.
      * split; [congruence|]. split; [congruence|]. split.
        -- intros u' Hu'. apply not_elem_of_cons in Hu' as [Hne Hu'].
           rewrite Ho2 by (rewrite Hi1; exact Hu'). apply Hother. exact Hne.
        -- rewrite Hq2, Hreq, Hi1. unfold stale_among. cbn [length]. lia.
    + rewrite decide_False by discriminate.
      destruct (IH acc io p) as (io2 & p2 & ev2 & Hrun & Hk2 & Hi2 & Ho2 & Hq2).
      { intros kv Hkv. apply Hitems. right. exact Hkv. }
      exists io2, p2, ev2. fold (stale_among t (health_check_interval p) rest).
      split; [rewrite Hrun; reflexivity|]. auto.
Qed.

End StaleFacts.

(** X11. [check_stale_proxies] reads the clock once and returns, in the order
    of the pool, the proxies whose last check is older than the check
    interval at that time. It checks each of them, with one request, and
    neither contacts nor changes any other proxy. *)
Theorem check_stale_proxies_selects `{W : Base.World}
    (status_error_text : Z -> string -> string -> string)
    (io : Base.IO) (p : ProxyManager.ProxyPool) :
  let stale :=
    stale_among (Base.time_time (Base.clock_reads io))
      (ProxyManager.health_check_interval p) (ProxyManager.proxies p) in
  exists io' p' ev,
    ProxyHealth.check_stale_proxies status_error_text (io, p) =
      (Base.Ok stale, (io', p'), ev) /\
    (forall u, u ∉ stale ->
       Py.dict_get u (ProxyManager.proxies p') = Py.dict_get u (ProxyManager.proxies p)) /\
    Base.requests io' = (Base.requests io + length stale)%nat.
Proof.
  intros stale. unfold ProxyHealth.check_stale_proxies.
  unfold Base.bind at 1, Base.now at 1. cbn [fst snd].
  unfold Base.bind at 1, Base.get at 1. cbn [fst snd].
  destruct (check_stale_each_run status_error_text (Base.time_time (Base.clock_reads io))
              (ProxyManager.proxies p) [] (Base.bump_clock io) p)
    as (io' & p' & ev & Hrun & _ & _ & Hother & Hreq).
  { intros kv Hkv. apply list_elem_of_fmap. exists kv. auto. }
  rewrite Hrun. cbn [app]. exists io', p', ev. split; [reflexivity|].
  split; [exact Hother | exact Hreq].
Qed.

(** ** More on the engines *)

Section ProxyChoice.
Import Base.

(** What [_get_proxy] promises, in either engine: [px] is the proxy
    returned, [failed] and [failed'] the failed set before and after. *)
Definition proxy_choice (cfg : Project.ProxyConfig) (failed failed' : gset string)
    (px : option string) : Prop :=
  (px = None <-> Project.enabled cfg = false \/ Project.proxies cfg = []) /\
  (forall x, px = Some x ->
     x ∈ Project.proxies cfg /\ (x ∉ failed') /\
     (Project.rotate cfg = false ->
      head (filter (fun p => p ∉ failed') (Project.proxies cfg)) = Some x)) /\
  (failed' = failed \/
   (failed' = ∅ /\ Project.proxies cfg <> [] /\
    Forall (fun p => p ∈ failed) (Project.proxies cfg))).

Lemma filter_all_out (failed : gset string) (l : list string) :
  filter (fun p => p ∉ failed) l = [] -> Forall (fun p => p ∈ failed) l.
Proof.
  intros H. apply filter_nil_Forall in H. eapply Forall_impl; [exact H|].
  cbn. intros x Hx. destruct (decide (x ∈ failed)); [assumption | contradiction].
Qed.

Lemma filter_none_out (failed : gset string) (l : list string) :
  failed = ∅ -> filter (fun p => p ∉ failed) l = l.
Proof.
  intros ->. induction l as [|x l IH]; [reflexivity|].
  rewrite filter_cons, decide_True by set_solver. rewrite IH. reflexivity.
Qed.

Lemma first_available (l : list string) (x : string) :
  l !! 0%nat = Some x -> head l = Some x.
Proof. destruct l; cbn; auto. Qed.

Lemma proxy_choice_cases (cfg : Project.ProxyConfig) (failed : gset string) (idx : Z) :
  Project.enabled cfg = true -> Project.proxies cfg <> [] ->
  let available := filter (fun p => p ∉ failed) (Project.proxies cfg) in
  let failed' := match available with [] => ∅ | _ :: _ => failed end in
  let pool := match available with [] => Project.proxies cfg | _ :: _ => available end in
  proxy_choice cfg failed failed'
    (if Project.rotate cfg
     then pool !! Z.to_nat ((idx + 1) mod Z.of_nat (length pool))
     else pool !! 0%nat).
Proof.
  intros Hen Hne available failed' pool.
  assert (Hpool : pool <> []).
  { subst pool. destruct available; [exact Hne | discriminate]. }
  assert (Hsub : forall x, x ∈ pool -> x ∈ Project.proxies cfg /\ x ∉ failed').
  { intros x Hx. subst pool failed'. destruct available as [|a l] eqn:Ha.
    - split; [exact Hx | set_solver].
    - rewrite <- Ha in Hx. subst available. apply list_elem_of_filter in Hx as [H1 H2]. auto. }
  assert (Hfilter : filter (fun p => p ∉ failed') (Project.proxies cfg) = pool).
  { subst pool failed'. destruct available as [|a l] eqn:Ha.
    - apply filter_none_out. reflexivity.
    - rewrite <- Ha. reflexivity. }
  assert (Hres : exists x,
            (if Project.rotate cfg
             then pool !! Z.to_nat ((idx + 1) mod Z.of_nat (length pool))
             else pool !! 0%nat) = Some x /\ x ∈ pool /\
            (Project.rotate cfg = false -> pool !! 0%nat = Some x)).
  { destruct (Project.rotate cfg).
    - destruct (rotation_in_range idx pool Hpool) as (x & Hx & Hin).
      exists x. split; [exact Hx|]. split; [exact Hin | discriminate].
    - destruct pool as [|x l]; [congruence|]. exists x. split; [reflexivity|].
      split; [left | reflexivity]. }
  destruct Hres as (x & -> & Hin & Hfirst).
  split; [|split].
  - split; [discriminate|]. intros [H|H]; congruence.
  - intros y [= <-]. destruct (Hsub x Hin) as [H1 H2].
    split; [exact H1|]. split; [exact H2|].
    intros Hrot. rewrite Hfilter. apply first_available. auto.
  - subst failed'. destruct available as [|a l] eqn:Ha; [|left; reflexivity].
    right. split; [reflexivity|]. split; [exact Hne|].
    apply filter_all_out. exact Ha.
Qed.

End ProxyChoice.

(** X12. In both engines [_get_proxy] returns none exactly when proxies are
    disabled or none is configured. Otherwise it returns one of the
    configured proxies that is not marked failed when the call ends (the
    first such one when rotation is off); the failed marks are kept,
    unless every configured proxy was marked, in which case they are all
    cleared. It never fails, and changes nothing outside the engine. *)
Theorem get_proxy_choice `{W : Base.World} (io : Base.IO) :
  (forall e : StaticEngine.StaticEngine,
     exists px e',
       StaticEngine._get_proxy (io, e) = (Base.Ok px, (io, e'), []) /\
       proxy_choice (StaticEngine.proxy e) (StaticEngine._failed_proxies e)
         (StaticEngine._failed_proxies e') px) /\
  (forall e : PlaywrightEngine.PlaywrightEngine,
     exists px e',
       PlaywrightEngine._get_proxy (io, e) = (Base.Ok px, (io, e'), []) /\
       proxy_choice (PlaywrightEngine.proxy e) (PlaywrightEngine._failed_proxies e)
         (PlaywrightEngine._failed_proxies e') px).
Proof.
  split; intros e.
  - unfold StaticEngine._get_proxy, Base.bind, Base.get, Base.ret, Base.modify.
    cbn [fst snd].
    destruct (Project.enabled (StaticEngine.proxy e)) eqn:Hen; cbn [negb orb].
    2: { eexists _, _. split; [reflexivity|]. split; [|split; [discriminate | left; reflexivity]].
         split; auto. }
    destruct (bool_decide_reflect (Project.proxies (StaticEngine.proxy e) = [])) as [Hnil|Hne].
    { eexists _, _. split; [reflexivity|]. split; [|split; [discriminate | left; reflexivity]].
      split; auto. }
    pose proof (proxy_choice_cases (StaticEngine.proxy e) (StaticEngine._failed_proxies e)
                  (StaticEngine._proxy_index e) Hen Hne) as Hcases.
    cbn zeta in Hcases.
    destruct (filter _ (Project.proxies (StaticEngine.proxy e))) as [|a l];
      cbn [fst snd app]; destruct (Project.rotate (StaticEngine.proxy e));
      cbn [fst snd app]; eexists _, _; (split; [reflexivity|]); exact Hcases.
  - unfold PlaywrightEngine._get_proxy, Base.bind, Base.get, Base.ret, Base.modify.
    cbn [fst snd].
    destruct (Project.enabled (PlaywrightEngine.proxy e)) eqn:Hen; cbn [negb orb].
    2: { eexists _, _. split; [reflexivity|]. split; [|split; [discriminate | left; reflexivity]].
         split; auto. }
    destruct (bool_decide_reflect (Project.proxies (PlaywrightEngine.proxy e) = []))
      as [Hnil|Hne].
    { eexists _, _. split; [reflexivity|]. split; [|split; [discriminate | left; reflexivity]].
      split; auto. }
    pose proof (proxy_choice_cases (PlaywrightEngine.proxy e)
                  (PlaywrightEngine._failed_proxies e)
                  (PlaywrightEngine._proxy_index e) Hen Hne) as Hcases.
    cbn zeta in Hcases.
    destruct (filter _ (Project.proxies (PlaywrightEngine.proxy e))) as [|a l];
      cbn [fst snd app]; destruct (Project.rotate (PlaywrightEngine.proxy e));
      cbn [fst snd app]; eexists _, _; (split; [reflexivity|]); exact Hcases.
Qed.

Section FieldValues.
Import Base.

(** The last rule of [fields] named [k], if any. *)
Definition last_named (k : string) (fields : list Project.SelectorField)
    : option Project.SelectorField :=
  last (filter (fun f => Project.name f = k) fields).

Lemma fold_insert_lookup (g : Project.SelectorField -> option string)
    (fields : list Project.SelectorField) (acc : gmap string (option string)) (k : string) :
  fold_left (fun d f => <[Project.name f := g f]> d) fields acc !! k =
    match last_named k fields with
    | Some f => Some (g f)
    | None => acc !! k
    end.
Proof.
  unfold last_named. revert acc.
  induction fields as [|f fields IH]; intros acc; [reflexivity|].
  cbn [fold_left]. rewrite IH, filter_cons.
  destruct (decide (Project.name f = k)) as [Hk|Hk].
  - rewrite last_cons. destruct (last (filter _ fields)); [reflexivity|].
    rewrite <- Hk, lookup_insert_eq. reflexivity.
  - destruct (last (filter _ fields)); [reflexivity|].
    apply lookup_insert_ne. exact Hk.
Qed.

Lemma last_named_in (k : string) (fields : list Project.SelectorField)
    (f : Project.SelectorField) :
  last_named k fields = Some f -> f ∈ fields /\ Project.name f = k.
Proof.
  unfold last_named. intros Hl. apply last_Some_elem_of in Hl.
  apply list_elem_of_filter in Hl as [H1 H2]. auto.
Qed.

Context `{W : World}.

Lemma static_extract_first_xpath (page : string) (field : Project.SelectorField)
    (selectors : list string) :
  Project.selector_type field = "xpath"%string ->
  StaticEngine.extract_first page field selectors = None.
Proof.
  intros Hx. induction selectors as [|sel rest IH]; [reflexivity|].
  cbn [StaticEngine.extract_first]. rewrite Hx. exact IH.
Qed.

End FieldValues.

(** X13. When several rules have the same name, the entry of a successful
    result holds the value extracted by the last of them: a later rule
    overrides an earlier one. In the plain-HTTP engine the value is
    extracted from the page content the result carries. *)
Theorem last_rule_wins `{W : Base.World} (u : string)
    (fields : list Project.SelectorField) :
  (forall (io : Base.IO) (e : StaticEngine.StaticEngine),
     exists r s' ev,
       StaticEngine.scrape u fields (io, e) = (r, s', ev) /\
       forall res, r = Base.Ok res -> Base.success res = true ->
         exists page,
           Base.html res = Some page /\
           forall k f, last_named k fields = Some f ->
             Base.data res !! k = Some (StaticEngine._extract_field page f)) /\
  (forall (io : Base.IO) (e : PlaywrightEngine.PlaywrightEngine),
     exists r s' ev,
       PlaywrightEngine.scrape u fields (io, e) = (r, s', ev) /\
       forall res, r = Base.Ok res -> Base.success res = true ->
         exists content,
           forall k f, last_named k fields = Some f ->
             Base.data res !! k = Some (PlaywrightEngine._extract_field content f)).
Proof.
  split; intros io e.
  - destruct (st_scrape_run u fields io e) as (r & s' & ev & Hrun & Hpost).
    exists r, s', ev. split; [exact Hrun|]. intros res -> Hok. cbn [st_scrape_post] in Hpost.
    destruct Hpost as [(_ & parsed & Hres) | (_ & _ & _ & _ & Hs & _)].
    + rewrite Hres in Hok. discriminate.
    + destruct (Hs Hok) as (text & Hdata & Hhtml). exists text. split; [exact Hhtml|].
      intros k f Hlast. rewrite Hdata. unfold StaticEngine.extract_data.
      rewrite fold_insert_lookup, Hlast. reflexivity.
  - destruct (js_scrape_run u fields io e) as (r & s' & ev & Hrun & Hpost).
    exists r, s', ev. split; [exact Hrun|]. intros res -> Hok. cbn [js_scrape_post] in Hpost.
    destruct Hpost as (_ & _ & _ & _ & _ & Hs & _).
    destruct (Hs Hok) as (content & Hdata & _). exists content.
    intros k f Hlast. rewrite Hdata. unfold PlaywrightEngine.extract_data.
    rewrite fold_insert_lookup, Hlast. reflexivity.
Qed.

(** X14. The plain-HTTP engine skips every selector of a rule whose type is
    "xpath": such a rule extracts nothing from any page, fallbacks
    included, and in a successful result its entry is null (when no later
    rule of another type has the same name). *)
Theorem static_engine_skips_xpath `{W : Base.World} (u : string)
    (fields : list Project.SelectorField) (io : Base.IO) (e : StaticEngine.StaticEngine) :
  (forall page f,
     Project.selector_type f = "xpath"%string -> StaticEngine._extract_field page f = None) /\
  exists r s' ev,
    StaticEngine.scrape u fields (io, e) = (r, s', ev) /\
    forall res, r = Base.Ok res -> Base.success res = true ->
      forall k f, last_named k fields = Some f ->
        Project.selector_type f = "xpath"%string ->
        Base.data res !! k = Some None.
Proof.
  split; [intros page f Hx; apply static_extract_first_xpath; exact Hx|].
  destruct (st_scrape_run u fields io e) as (r & s' & ev & Hrun & Hpost).
  exists r, s', ev. split; [exact Hrun|]. intros res -> Hok k f Hlast Hx.
  cbn [st_scrape_post] in Hpost.
  destruct Hpost as [(_ & parsed & Hres) | (_ & _ & _ & _ & Hs & _)].
  - rewrite Hres in Hok. discriminate.
  - destruct (Hs Hok) as (text & Hdata & _). rewrite Hdata.
    unfold StaticEngine.extract_data. rewrite fold_insert_lookup, Hlast.
    f_equal. apply static_extract_first_xpath. exact Hx.
Qed.

Section Sanitize.
Import Base.

Lemma lower_app (a b : string) : Py.lower (a ++ b) = (Py.lower a ++ Py.lower b)%string.
Proof.
  induction a as [|c a IH]; [reflexivity|].
  change (Py.lower (String c (a ++ b)) = String (Py.lower_ascii c) (Py.lower a ++ Py.lower b)).
  cbn [Py.lower]. rewrite IH. reflexivity.
Qed.

Lemma lower_length (a : string) : String.length (Py.lower a) = String.length a.
Proof.
  induction a as [|c a IH]; [reflexivity|].
  cbn [String.length Py.lower]. rewrite IH. reflexivity.
Qed.

Lemma startswith_app (p s : string) : Py.startswith p (p ++ s) = true.
Proof.
  induction p as [|c p IH]; [reflexivity|].
  change (Py.startswith (String c p) (String c (p ++ s)) = true).
  cbn [Py.startswith]. rewrite Ascii.eqb_refl. exact IH.
Qed.

Lemma drop_chars_app (a b : string) : Py.drop_chars (String.length a) (a ++ b) = b.
Proof.
  induction a as [|c a IH]; [destruct b; reflexivity|].
  change (Py.drop_chars (S (String.length a)) (String c (a ++ b)) = b).
  cbn [Py.drop_chars]. exact IH.
Qed.

(** Of two prefixes neither of which starts with the other, a string has
    at most one. *)
Lemma startswith_exclusive (p q s : string) :
  Py.startswith q p = false -> Py.startswith p q = false ->
  Py.startswith p s = true -> Py.startswith q s = false.
Proof.
  revert q s. induction p as [|c p IH]; intros q s Hqp Hpq Hs.
  - destruct q; discriminate.
  - destruct q as [|d q]; [discriminate|].
    destruct s as [|x s]; [discriminate|]. cbn [Py.startswith] in *.
    destruct (Ascii.eqb_spec c x) as [->|]; [|discriminate].
    destruct (Ascii.eqb_spec d x) as [->|]; [|reflexivity].
    rewrite Ascii.eqb_refl in Hpq. apply IH; assumption.
Qed.

Lemma startswith_nonempty (c : Ascii.ascii) (p s : string) :
  Py.startswith (String c p) (Py.lower s) = true -> String.eqb s "" = false.
Proof. destruct s; cbn; [discriminate | reflexivity]. Qed.

End Sanitize.

(** X15. [_sanitize_value] on link prefixes, whatever their letter case: a
    value that starts with "javascript:" becomes the empty string; a
    leading "mailto:" is dropped and what follows is cleaned as if it had
    been extracted alone, and so is a leading "tel:". Only one "mailto:"
    and one "tel:" are dropped, in that order. *)
Theorem sanitize_value_prefixes `{W : Base.World} (prefix rest : string) :
  (Py.lower prefix = "javascript:"%string ->
     Base._sanitize_value (prefix ++ rest) = ""%string) /\
  (Py.lower prefix = "mailto:"%string ->
     rest <> ""%string -> Py.startswith "mailto:" (Py.lower rest) = false ->
     Base._sanitize_value (prefix ++ rest) = Base._sanitize_value rest) /\
  (Py.lower prefix = "tel:"%string ->
     rest <> ""%string -> Py.startswith "mailto:" (Py.lower rest) = false ->
     Py.startswith "tel:" (Py.lower rest) = false ->
     Base._sanitize_value (prefix ++ rest) = Base._sanitize_value rest).
Proof.
  assert (Hlen : forall p, Py.lower prefix = p ->
                   Py.drop_chars (String.length p) (prefix ++ rest) = rest).
  { intros p <-. rewrite lower_length. apply drop_chars_app. }
  assert (Hstart : forall p, Py.lower prefix = p ->
                     Py.startswith p (Py.lower (prefix ++ rest)) = true).
  { intros p <-. rewrite lower_app. apply startswith_app. }
  split; [|split].
  - intros Hp. pose proof (Hstart _ Hp) as Hs. unfold Base._sanitize_value.
    rewrite (startswith_nonempty _ _ _ Hs).
    rewrite (startswith_exclusive "javascript:" "mailto:" _ eq_refl eq_refl Hs).
    rewrite (startswith_exclusive "javascript:" "tel:" _ eq_refl eq_refl Hs).
    rewrite Hs. reflexivity.
  - intros Hp Hne Hm. pose proof (Hstart _ Hp) as Hs. pose proof (Hlen _ Hp) as Hd.
    cbn [String.length] in Hd. unfold Base._sanitize_value.
    rewrite (startswith_nonempty _ _ _ Hs), Hs, Hd.
    assert (String.eqb rest "" = false) as -> by (apply String.eqb_neq; exact Hne).
    rewrite Hm. reflexivity.
  - intros Hp Hne Hm Ht. pose proof (Hstart _ Hp) as Hs. pose proof (Hlen _ Hp) as Hd.
    cbn [String.length] in Hd. unfold Base._sanitize_value.
    rewrite (startswith_nonempty _ _ _ Hs).
    rewrite (startswith_exclusive "tel:" "mailto:" _ eq_refl eq_refl Hs).
    rewrite Hs, Hd.
    assert (String.eqb rest "" = false) as -> by (apply String.eqb_neq; exact Hne).
    rewrite Hm, Ht. reflexivity.
Qed.

(** The origin [scheme://netloc] under which robots rules are cached. *)
Definition origin_of (parsed : Base.ParsedUrl) : string :=
  (Base.scheme parsed ++ "://" ++ Base.netloc parsed)%string.

(** X16. The robots.txt of an origin is fetched at most once by the plain-HTTP
    engine: after a [check_robots] that returned and whose request, if it
    made one, was answered, a [check_robots] for any URL of the same
    origin makes no request and leaves the engine as it is, and for the
    same URL it gives the same verdict. (A request that fails is not
    remembered: the next call fetches again.) *)
Theorem check_robots_fetches_once `{W : Base.World} (u u2 : string)
    (parsed parsed2 : Base.ParsedUrl)
    (io io1 : Base.IO) (e e1 : StaticEngine.StaticEngine)
    (r : option Base.RobotsWarning) (ev1 : list Base.IOEvent) :
  StaticEngine.check_robots u (io, e) = (Base.Ok r, (io1, e1), ev1) ->
  (forall url reply, Base.EvRobotsGet url reply ∈ ev1 ->
     exists status reason text, reply = Base.HttpResponse status reason text) ->
  Base.urlparse u = Base.Ok parsed ->
  Base.urlparse u2 = Base.Ok parsed2 ->
  origin_of parsed2 = origin_of parsed ->
  exists r2,
    StaticEngine.check_robots u2 (io1, e1) = (Base.Ok r2, (io1, e1), []) /\
    (u2 = u -> r2 = r).
Proof.
  intros Hrun Hanswered Hp Hp2 Horigin. unfold origin_of in Horigin.
  unfold StaticEngine.check_robots, StaticEngine._get_client, Base.bind, Base.get,
    Base.ret, Base.of_res, Base.modify, Base.get_robots in Hrun |- *.
  cbn [fst snd] in Hrun |- *. rewrite Hp in Hrun. rewrite Hp2, Horigin.
  destruct (StaticEngine.respect_robots e) eqn:Hresp; cbn [negb] in Hrun.
  2: { injection Hrun as <- <- <- <-. rewrite Hresp. cbn [negb].
       exists None. split; reflexivity. }
  destruct (Base.urljoin _ "/robots.txt") as [robots_url|msg] eqn:Hjoin;
    [|discriminate].
  destruct (StaticEngine._robots_cache e !! _) as [rules|] eqn:Hcache;
    cbn [fst snd negb app] in Hrun.
  - rewrite Hcache in Hrun.
    assert (e1 = e /\ io1 = io) as [-> ->]
      by (destruct (Base.can_fetch rules u); cbn [negb] in Hrun;
          injection Hrun; auto).
    rewrite Hresp. cbn [negb]. rewrite Hcache. cbn [fst snd negb app]. rewrite Hcache.
    destruct (Base.can_fetch rules u2) eqn:Hc2; cbn [negb app];
      eexists; (split; [reflexivity|]); intros ->;
      rewrite Hc2 in Hrun; cbn [negb app] in Hrun; injection Hrun as <- _.
    + reflexivity.
    + rewrite Hp in Hp2. injection Hp2 as <-. reflexivity.
  - destruct (Base.http_get (Base.requests io) robots_url None)
      as [msg|msg|status reason text] eqn:Hget; cbn [fst snd negb app] in Hrun.
    + injection Hrun as _ _ _ <-.
      destruct (Hanswered robots_url (Base.HttpRequestError msg)) as (? & ? & ? & ?);
        [left | discriminate].
    + injection Hrun as _ _ _ <-.
      destruct (Hanswered robots_url (Base.HttpOtherError msg)) as (? & ? & ? & ?);
        [left | discriminate].
    + cbn [StaticEngine._robots_cache StaticEngine.set_robots_cache
           StaticEngine.set_client StaticEngine.with_state] in Hrun.
      rewrite lookup_insert_eq in Hrun.
      assert (Hst : e1 = StaticEngine.set_robots_cache
                         (<[(Base.scheme parsed ++ "://" ++ Base.netloc parsed)%string := text]>
                            (StaticEngine._robots_cache e))
                         (StaticEngine.set_client true e) /\
                    io1 = Base.bump_requests io)
        by (destruct (Base.can_fetch text u); cbn [negb app] in Hrun;
            injection Hrun; auto).
      destruct Hst as [-> ->].
      cbn [StaticEngine.respect_robots StaticEngine._robots_cache
           StaticEngine.set_robots_cache StaticEngine.set_client StaticEngine.with_state].
      rewrite Hresp. cbn [negb]. rewrite ?lookup_insert_eq. cbn [fst snd negb app].
      cbn [StaticEngine._robots_cache StaticEngine.set_robots_cache
           StaticEngine.set_client StaticEngine.with_state].
      rewrite ?lookup_insert_eq.
      destruct (Base.can_fetch text u2) eqn:Hc2; cbn [negb app fst snd];
        eexists; (split; [reflexivity|]); intros ->;
        rewrite Hc2 in Hrun; cbn [negb app fst snd] in Hrun; injection Hrun as <- _.
      * reflexivity.
      * rewrite Hp in Hp2. injection Hp2 as <-. reflexivity.
Qed.

(** The engine after its first look at the robots.txt of example.com. *)
Definition informed_engine : StaticEngine.StaticEngine :=
  StaticEngine.set_robots_cache {[ "https://example.com"%string := "Disallow: /"%string ]}
    (StaticEngine.set_client true polite_engine).

Lemma check_robots_fetches_once_witness :
  exists w,
    @StaticEngine.check_robots forbidding_world "https://example.com/private"
      (Base.io0, polite_engine) =
      (Base.Ok (Some w), (Base.bump_requests Base.io0, informed_engine),
       [Base.EvRobotsGet "https://example.com/robots.txt"
          (Base.HttpResponse 200 "OK" "Disallow: /")]) /\
    @StaticEngine.check_robots forbidding_world "https://example.com/private"
      (Base.bump_requests Base.io0, informed_engine) =
      (Base.Ok (Some w), (Base.bump_requests Base.io0, informed_engine), []).
Proof.
  eexists. split; [reflexivity|].
  edestruct (@check_robots_fetches_once forbidding_world
               "https://example.com/private" "https://example.com/private"
               {| Base.scheme := "https"; Base.netloc := "example.com";
                  Base.path := "https://example.com/private" |}
               {| Base.scheme := "https"; Base.netloc := "example.com";
                  Base.path := "https://example.com/private" |}
               Base.io0 (Base.bump_requests Base.io0) polite_engine informed_engine)
    as (r2 & Hagain & Hsame).
  - reflexivity.
  - intros url reply Hin. apply list_elem_of_singleton in Hin. injection Hin as _ ->.
    eexists _, _, _. reflexivity.
  - reflexivity.
  - reflexivity.
  - reflexivity.
  - rewrite (Hsame eq_refl) in Hagain. exact Hagain.
Defined.

(** ** What an engine remembers from one scrape to the next *)

Section Memory.
Import Base.
Context `{W : World}.

(** The number of failed attempts in a trace seen as attempts and
    sleeps. *)
Fixpoint count_failed (l : list (bool + Q)) : nat :=
  match l with
  | [] => 0
  | inl false :: l' => S (count_failed l')
  | _ :: l' => count_failed l'
  end.

Definition failed_attempts (ev : list IOEvent) : nat := count_failed (retry_trace ev).

Lemma count_failed_app (l1 l2 : list (bool + Q)) :
  count_failed (l1 ++ l2) = (count_failed l1 + count_failed l2)%nat.
Proof.
  induction l1 as [|[[]|q] l1 IH]; cbn [app count_failed]; lia.
Qed.

Lemma count_failed_shape (first a : nat) (ok : bool) :
  count_failed (retry_shape first a ok) = if ok then Nat.pred a else a.
Proof.
  destruct a as [|k]; [destruct ok; reflexivity|].
  unfold retry_shape. rewrite count_failed_app.
  assert (forall f, count_failed
                      (flat_map (fun i => [inl false; inr (inject_Z (2 ^ Z.of_nat i))])
                         (seq f k)) = k) as ->.
  { induction k as [|k IH]; intros f; [reflexivity|].
    cbn [seq flat_map app count_failed]. rewrite IH. reflexivity. }
  destruct ok; cbn [count_failed Nat.pred]; lia.
Qed.

Lemma failed_attempts_app (ev1 ev2 : list IOEvent) :
  failed_attempts (ev1 ++ ev2) = (failed_attempts ev1 + failed_attempts ev2)%nat.
Proof. unfold failed_attempts. rewrite retry_trace_app. apply count_failed_app. Qed.

Lemma failed_attempts_outside (ev : list IOEvent) :
  Forall outside_retry ev -> failed_attempts ev = 0%nat.
Proof.
  intros H. unfold failed_attempts.
  destruct (outside_retry_neutral ev [] None None H) as (Hn & _).
  rewrite app_nil_r in Hn. rewrite Hn. reflexivity.
Qed.

(** What a scrape leaves in the memory of an engine: [seen], [errors] are
    the set of seen hashes and the consecutive-error counter before the
    call, [seen'], [errors'] after it, [dedup] the [detect_duplicates]
    setting. *)
Definition memory_post (dedup : bool) (seen seen' : gset string) (errors errors' : nat)
    (res : ScrapeResult) (ev : list IOEvent) : Prop :=
  if success res then
    if dedup && bool_decide (content_hash (data res) ∈ seen) then
      error res = Some "Duplicate detected (skipped)"%string /\
      seen' = seen /\ errors' = (errors + failed_attempts ev)%nat
    else
      error res = None /\
      seen' = (if dedup then {[content_hash (data res)]} ∪ seen else seen) /\
      errors' = 0%nat
  else
    seen' = seen /\ errors' = (errors + failed_attempts ev)%nat.

Lemma memory_post_failure (dedup : bool) (seen seen' : gset string)
    (errors errors' : nat) (res : ScrapeResult) (e : IOEvent) (ev0 ev : list IOEvent) :
  retry_view e = Some (inl false) ->
  failed_attempts ev0 = 0%nat ->
  memory_post dedup seen seen' (S errors) errors' res ev ->
  memory_post dedup seen seen' errors errors' res (e :: ev0 ++ ev).
Proof.
  intros He Hq. unfold memory_post.
  assert (failed_attempts (e :: ev0 ++ ev) = S (failed_attempts ev)) as ->.
  { change (e :: ev0 ++ ev) with ([e] ++ ev0 ++ ev).
    rewrite !failed_attempts_app, Hq.
    unfold failed_attempts at 1. cbn [retry_trace]. rewrite He. reflexivity. }
  destruct (success res); [destruct (dedup && _)|];
    intros H; repeat split; try tauto; lia.
Qed.

Lemma memory_post_prefix (dedup : bool) (seen seen' : gset string)
    (errors errors' : nat) (res : ScrapeResult) (ev0 ev : list IOEvent) :
  Forall outside_retry ev0 ->
  memory_post dedup seen seen' errors errors' res ev ->
  memory_post dedup seen seen' errors errors' res (ev0 ++ ev).
Proof.
  intros Hq. unfold memory_post.
  rewrite failed_attempts_app, (failed_attempts_outside ev0 Hq). auto.
Qed.

End Memory.

Section StaticMemory.
Import Base StaticEngine.
Context `{W : World}.

(** The part of the state that only attempts change. *)
Definition st_memory (e : StaticEngine) := (_seen_hashes e, _consecutive_errors e).

Lemma st_get_proxy_memory (io : IO) (e : StaticEngine) :
  exists px e', _get_proxy (io, e) = (Ok px, (io, e'), []) /\
                st_config e' = st_config e /\ st_memory e' = st_memory e.
Proof.
  unfold _get_proxy, bind, get, ret, modify. cbn [fst snd].
  destruct (negb (Project.enabled (proxy e)) || bool_decide (Project.proxies (proxy e) = []));
    [eexists _, _; repeat split; reflexivity|].
  destruct (filter _ _) as [|a l]; cbn [fst snd app];
    destruct (Project.rotate (proxy e)); cbn [fst snd app];
    eexists _, _; repeat split; reflexivity.
Qed.

Lemma st_on_failure_memory (attempt : nat) (fp : option string) (io : IO) (e : StaticEngine) :
  exists e' ev, on_failure attempt fp (io, e) = (Ok tt, (io, e'), ev) /\
                failed_attempts ev = 0%nat /\
                st_config e' = st_config e /\
                _seen_hashes e' = _seen_hashes e /\
                _consecutive_errors e' = S (_consecutive_errors e).
Proof.
  unfold on_failure, bind, get, ret, modify, when, sleep, emit. cbn [fst snd].
  destruct fp; cbn [fst snd app retry_count set_failed_proxies set_consecutive_errors with_state];
    destruct (Z.of_nat attempt <? retry_count e); eexists _, _; repeat split; reflexivity.
Qed.

Lemma st_on_page_memory (u : string) (fields : list Project.SelectorField) (st : Q)
    (status : Z) (text : string) (io : IO) (e : StaticEngine) :
  exists res io' e',
    on_page u fields st status text (io, e) = (Ok res, (io', e'), []) /\
    success res = true /\
    memory_post (detect_duplicates e) (_seen_hashes e) (_seen_hashes e')
      (_consecutive_errors e) (_consecutive_errors e') res [].
Proof.
  unfold on_page, bind, get, ret, modify, when, elapsed_since, now, _compute_hash,
    memory_post. cbn [fst snd].
  destruct (detect_duplicates e) eqn:Hd; cbn [andb].
  - destruct (bool_decide _) eqn:Hb; cbn [fst snd app];
      eexists _, _, _; (split; [reflexivity|]); cbn [success data error];
      rewrite ?Hb; (split; [reflexivity|]); cbn; repeat split; lia.
  - cbn [fst snd app]. eexists _, _, _. split; [reflexivity|]. cbn. repeat split.
Qed.

Lemma st_retry_loop_memory (u : string) (fields : list Project.SelectorField) (st : Q) :
  forall (attempts : list nat) (le pg : option string) (io : IO) (e : StaticEngine),
    exists res s' ev,
      retry_loop u fields st attempts le pg (io, e) = (Ok res, s', ev) /\
      memory_post (detect_duplicates e) (_seen_hashes e) (_seen_hashes (snd s'))
        (_consecutive_errors e) (_consecutive_errors (snd s')) res ev.
Proof.
  induction attempts as [|attempt rest IH]; intros le pg io e.
  - cbn [retry_loop]. unfold bind, elapsed_since, now, ret. cbn [fst snd app].
    eexists _, _, _. split; [reflexivity|]. unfold memory_post. cbn. split; [reflexivity | lia].
  - cbn [retry_loop].
    destruct (st_get_proxy_memory io e) as (proxy & e1 & Hpx & Hc1 & Hm1).
    apply bind_ex with (1 := Hpx). cbv zeta.
    generalize (Py.nonempty proxy). clear proxy Hpx. intros px.
    eapply bind_ex; [reflexivity|]. cbn [fst snd app].
    remember (http_get (requests io) u px) as reply eqn:Hworld. clear Hworld.
    assert (Hd1 : detect_duplicates e1 = detect_duplicates e) by (injection Hc1; auto).
    assert (Hs1 : _seen_hashes e1 = _seen_hashes e) by (injection Hm1; auto).
    assert (He1 : _consecutive_errors e1 = _consecutive_errors e) by (injection Hm1; auto).
    assert (Hfail : forall fp msg pg',
              http_error reply = Some msg ->
              exists res s' ev2,
                (on_failure attempt fp >> retry_loop u fields st rest (Some msg) pg')%M
                   (bump_requests io, e1) = (Ok res, s', ev2) /\
                memory_post (detect_duplicates e) (_seen_hashes e) (_seen_hashes (snd s'))
                  (_consecutive_errors e) (_consecutive_errors (snd s')) res
                  (EvHttpGet u px reply :: ev2)).
    { intros fp msg pg' Herr.
      destruct (st_on_failure_memory attempt fp (bump_requests io) e1)
        as (e2 & evf & Hof & Hq & Hc2 & Hs2 & He2).
      apply bind_ex with (1 := Hof).
      destruct (IH (Some msg) pg' (bump_requests io) e2) as (res & s' & ev & Hloop & Hpost).
      exists res, s', ev. split; [exact Hloop|].
      apply memory_post_failure; [cbn [retry_view attempt_of]; rewrite Herr; reflexivity
                                 | exact Hq |].
      assert (detect_duplicates e2 = detect_duplicates e) as Hd2
        by (injection Hc2; intros; congruence).
      rewrite Hd2, Hs2, He2, Hs1, He1 in Hpost. exact Hpost. }
    destruct reply as [msg|msg|status reason text].
    + apply (Hfail px). reflexivity.
    + apply (Hfail None). reflexivity.
    + destruct (raise_for_status status) eqn:Hst.
      * apply (Hfail px (("HTTP " ++ Py.str_of_int status ++ ": " ++ reason)%string)).
        cbn [http_error]. rewrite Hst. reflexivity.
      * destruct (bs_parse text) as [msg|] eqn:Hparse.
        -- apply (Hfail None (("Unexpected error: " ++ msg)%string)).
           cbn [http_error]. rewrite Hst, Hparse. reflexivity.
        -- destruct (st_on_page_memory u fields st status text (bump_requests io) e1)
             as (res & io' & e' & Hop & Hsucc & Hpost).
           exists res, (io', e'), []. split; [exact Hop|]. cbn [snd].
           rewrite Hd1, Hs1, He1 in Hpost.
           unfold memory_post in Hpost |- *. rewrite Hsucc in Hpost |- *.
           assert (failed_attempts [EvHttpGet u px (HttpResponse status reason text)] = 0%nat)
             as Hzero.
           { unfold failed_attempts. cbn [retry_trace retry_view attempt_of http_error].
             rewrite Hst, Hparse. reflexivity. }
           rewrite Hzero. exact Hpost.
Qed.

End StaticMemory.

Section StaticScrapeMemory.
Import Base StaticEngine.
Context `{W : World}.

Lemma st_check_robots_memory (u : string) (io : IO) (e : StaticEngine) :
  exists r s' ev,
    check_robots u (io, e) = (r, s', ev) /\
    st_config (snd s') = st_config e /\ st_memory (snd s') = st_memory e /\
    Forall outside_retry ev.
Proof.
  assert (Hdone : forall (r : Res (option RobotsWarning)) (s' : IO * StaticEngine)
                         (ev : list IOEvent),
            st_config (snd s') = st_config e -> st_memory (snd s') = st_memory e ->
            Forall outside_retry ev ->
            exists r0 s0 ev0, (r, s', ev) = (r0, s0, ev0) /\
              st_config (snd s0) = st_config e /\ st_memory (snd s0) = st_memory e /\
              Forall outside_retry ev0).
  { intros r s' ev H1 H2 H3. exists r, s', ev. auto. }
  unfold check_robots, _get_client, bind, get, ret, of_res, modify, get_robots.
  cbn [fst snd].
  destruct (respect_robots e); cbn [negb];
    [| apply Hdone; [reflexivity | reflexivity | constructor]].
  destruct (urlparse u) as [parsed|msg];
    [| apply Hdone; [reflexivity | reflexivity | constructor]].
  destruct (urljoin _ _) as [robots_url|msg];
    [| apply Hdone; [reflexivity | reflexivity | constructor]].
  destruct (_robots_cache e !! _) as [rules|] eqn:Hcache; cbn [fst snd negb app].
  - rewrite Hcache. destruct (can_fetch rules u); cbn [negb app];
      (apply Hdone; [reflexivity | reflexivity | constructor]).
  - destruct (http_get (requests io) robots_url None) as [msg|msg|status reason text];
      cbn [fst snd negb app];
      try (apply Hdone; [reflexivity | reflexivity | repeat constructor]).
    cbn [_robots_cache set_robots_cache set_client with_state].
    rewrite lookup_insert_eq. destruct (can_fetch text u); cbn [negb app];
      (apply Hdone; [reflexivity | reflexivity | repeat constructor]).
Qed.

Lemma st_scrape_memory (u : string) (fields : list Project.SelectorField)
    (io : IO) (e : StaticEngine) :
  exists r s' ev,
    scrape u fields (io, e) = (r, s', ev) /\
    forall res, r = Ok res ->
      memory_post (detect_duplicates e) (_seen_hashes e) (_seen_hashes (snd s'))
        (_consecutive_errors e) (_consecutive_errors (snd s')) res ev.
Proof.
  unfold scrape.
  eapply bind_any; [reflexivity|].
  eapply bind_any; [reflexivity|]. cbn [fst snd app].
  destruct (st_check_robots_memory u (bump_clock io) (set_client true e))
    as (r & [io1 e1] & ev1 & Hrob & Hc1 & Hm1 & Hq1).
  cbn [snd] in Hc1, Hm1.
  assert (Hd1 : detect_duplicates e1 = detect_duplicates e) by (injection Hc1; auto).
  assert (Hs1 : _seen_hashes e1 = _seen_hashes e) by (injection Hm1; auto).
  assert (He1 : _consecutive_errors e1 = _consecutive_errors e) by (injection Hm1; auto).
  destruct r as [[w|]|msg].
  - apply bind_any with (1 := Hrob). cbn beta iota.
    eapply bind_any; [reflexivity|]. cbn [fst snd app].
    eexists _, _, _. split; [reflexivity|]. intros res [= <-].
    unfold memory_post. cbn [success failed_result snd]. rewrite !app_nil_r.
    rewrite (failed_attempts_outside ev1 Hq1). split; [exact Hs1 | lia].
  - apply bind_any with (1 := Hrob). cbn beta iota.
    destruct (st_wait_rate_limit_run io1 e1) as (rw & io2 & ev2 & Hw & Hq2 & _).
    destruct rw as [[]|msg]; [| apply bind_raised with (1 := Hw); discriminate].
    apply bind_any with (1 := Hw).
    eapply bind_any; [reflexivity|]. cbn [fst snd app].
    destruct (st_retry_loop_memory u fields (time_time (clock_reads io))
                (Py.range (retry_count e1 + 1)) None None io2 e1)
      as (res & s' & ev & Hloop & Hpost).
    exists (Ok res), s', ev. split; [exact Hloop|]. intros res' [= <-].
    rewrite Hd1, Hs1, He1 in Hpost. rewrite app_assoc.
    apply memory_post_prefix; [apply Forall_app; auto | exact Hpost].
  - apply bind_raised with (1 := Hrob). discriminate.
Qed.

End StaticScrapeMemory.

Section JsMemory.
Import Base PlaywrightEngine.
Context `{W : World}.

Definition js_memory (e : PlaywrightEngine) := (_seen_hashes e, _consecutive_errors e).

Lemma js_on_failure_memory (attempt : nat) (io : IO) (e : PlaywrightEngine) :
  exists e' ev, on_failure attempt (io, e) = (Ok tt, (io, e'), ev) /\
                failed_attempts ev = 0%nat /\
                js_config e' = js_config e /\
                _seen_hashes e' = _seen_hashes e /\
                _consecutive_errors e' = S (_consecutive_errors e).
Proof.
  unfold on_failure, bind, get, ret, modify, when, sleep, emit.
  cbn [fst snd app retry_count set_consecutive_errors with_state].
  destruct (Z.of_nat attempt <? retry_count e); eexists _, _; repeat split; reflexivity.
Qed.

Lemma js_on_page_memory (u : string) (fields : list Project.SelectorField) (st : Q)
    (status : option Z) (content : string) (io : IO) (e : PlaywrightEngine) :
  exists res io' e',
    on_page u fields st status content (io, e) = (Ok res, (io', e'), []) /\
    success res = true /\
    memory_post (detect_duplicates e) (_seen_hashes e) (_seen_hashes e')
      (_consecutive_errors e) (_consecutive_errors e') res [].
Proof.
  unfold on_page, bind, get, ret, modify, when, elapsed_since, now, _compute_hash,
    memory_post. cbn [fst snd].
  destruct (detect_duplicates e) eqn:Hd; cbn [andb].
  - destruct (bool_decide _) eqn:Hb; cbn [fst snd app];
      eexists _, _, _; (split; [reflexivity|]); cbn [success data error];
      rewrite ?Hb; (split; [reflexivity|]); cbn; repeat split; lia.
  - cbn [fst snd app]. eexists _, _, _. split; [reflexivity|]. cbn. repeat split.
Qed.

Lemma js_retry_loop_memory (u : string) (fields : list Project.SelectorField) (st : Q) :
  forall (attempts : list nat) (le pg : option string) (io : IO) (e : PlaywrightEngine),
    exists res s' ev,
      retry_loop u fields st attempts le pg (io, e) = (Ok res, s', ev) /\
      memory_post (detect_duplicates e) (_seen_hashes e) (_seen_hashes (snd s'))
        (_consecutive_errors e) (_consecutive_errors (snd s')) res ev.
Proof.
  induction attempts as [|attempt rest IH]; intros le pg io e.
  - cbn [retry_loop]. unfold bind, elapsed_since, now, get, ret. cbn [fst snd app].
    eexists _, _, _. split; [reflexivity|]. unfold memory_post. cbn. split; [reflexivity | lia].
  - cbn [retry_loop].
    eapply bind_ex; [reflexivity|]. cbn [fst snd app].
    destruct (js_visit_run u io e) as (reply & io1 & Hvisit).
    apply bind_ex with (1 := Hvisit). cbn [app].
    assert (Hfail : forall msg pg',
              browser_error reply = Some msg ->
              exists res s' ev2,
                (on_failure attempt >> retry_loop u fields st rest (Some msg) pg')%M
                   (io1, e) = (Ok res, s', ev2) /\
                memory_post (detect_duplicates e) (_seen_hashes e) (_seen_hashes (snd s'))
                  (_consecutive_errors e) (_consecutive_errors (snd s')) res
                  (EvVisit u reply :: ev2)).
    { intros msg pg' Herr.
      destruct (js_on_failure_memory attempt io1 e) as (e2 & evf & Hof & Hq & Hc2 & Hs2 & He2).
      apply bind_ex with (1 := Hof).
      destruct (IH (Some msg) pg' io1 e2) as (res & s' & ev & Hloop & Hpost).
      exists res, s', ev. split; [exact Hloop|].
      apply memory_post_failure; [cbn [retry_view attempt_of]; rewrite Herr; reflexivity
                                 | exact Hq |].
      assert (detect_duplicates e2 = detect_duplicates e) as Hd2
        by (injection Hc2; intros; congruence).
      rewrite Hd2, Hs2, He2 in Hpost. exact Hpost. }
    destruct reply as [msg|status content [msg|]].
    + apply Hfail. reflexivity.
    + apply Hfail. reflexivity.
    + destruct (js_on_page_memory u fields st status content io1 e)
        as (res & io' & e' & Hop & Hsucc & Hpost).
      exists res, (io', e'), []. split; [exact Hop|]. cbn [snd].
      unfold memory_post in Hpost |- *. rewrite Hsucc in Hpost |- *. exact Hpost.
Qed.

Lemma js_get_proxy_memory (io : IO) (e : PlaywrightEngine) :
  exists px e', _get_proxy (io, e) = (Ok px, (io, e'), []) /\
                js_config e' = js_config e /\ js_memory e' = js_memory e.
Proof.
  unfold _get_proxy, bind, get, ret, modify. cbn [fst snd].
  destruct (negb (Project.enabled (proxy e)) || bool_decide (Project.proxies (proxy e) = []));
    [eexists _, _; repeat split; reflexivity|].
  destruct (filter _ _) as [|a l]; cbn [fst snd app];
    destruct (Project.rotate (proxy e)); cbn [fst snd app];
    eexists _, _; repeat split; reflexivity.
Qed.

Lemma js_init_browser_memory (io : IO) (e : PlaywrightEngine) :
  exists r s' ev,
    _init_browser (io, e) = (r, s', ev) /\
    js_config (snd s') = js_config e /\ js_memory (snd s') = js_memory e /\
    Forall outside_retry ev.
Proof.
  unfold _init_browser. unfold bind at 1, get at 1. cbn [fst snd].
  destruct (_playwright e);
    [eexists _, _, _; split; [reflexivity|]; repeat split; constructor|].
  unfold bind at 1, start_playwright at 1. cbn [fst snd].
  destruct (playwright_start (requests io));
    [eexists _, _, _; split; [reflexivity|]; repeat split; repeat constructor|].
  unfold bind at 1, modify at 1. cbn [fst snd].
  destruct (js_get_proxy_memory (bump_requests io) (set_playwright true e))
    as (px & e1 & Hpx & Hc1 & Hm1).
  unfold bind at 1. rewrite Hpx.
  unfold bind, launch_browser, modify. cbn [fst snd].
  destruct (browser_launch _ (Py.nonempty px)); cbn [app];
    eexists _, _, _; (split; [reflexivity|]); cbn [snd];
    (split; [exact Hc1 | split; [exact Hm1 | repeat constructor]]).
Qed.

Lemma js_scrape_memory (u : string) (fields : list Project.SelectorField)
    (io : IO) (e : PlaywrightEngine) :
  exists r s' ev,
    scrape u fields (io, e) = (r, s', ev) /\
    forall res, r = Ok res ->
      memory_post (detect_duplicates e) (_seen_hashes e) (_seen_hashes (snd s'))
        (_consecutive_errors e) (_consecutive_errors (snd s')) res ev.
Proof.
  unfold scrape.
  destruct (js_init_browser_memory io e) as (r & [io1 e1] & ev1 & Hinit & Hc1 & Hm1 & Hq1).
  cbn [snd] in Hc1, Hm1.
  assert (Hd1 : detect_duplicates e1 = detect_duplicates e) by (injection Hc1; auto).
  assert (Hs1 : _seen_hashes e1 = _seen_hashes e) by (injection Hm1; auto).
  assert (He1 : _consecutive_errors e1 = _consecutive_errors e) by (injection Hm1; auto).
  destruct r as [[]|msg];
    [| apply bind_raised with (1 := Hinit); discriminate].
  apply bind_any with (1 := Hinit).
  eapply bind_any; [reflexivity|]. cbn [fst snd app].
  destruct (js_wait_rate_limit_run (bump_clock io1) e1) as (rw & io2 & ev2 & Hw & Hq2 & _).
  destruct rw as [[]|msg]; [| apply bind_raised with (1 := Hw); discriminate].
  apply bind_any with (1 := Hw).
  eapply bind_any; [reflexivity|]. cbn [fst snd app].
  destruct (js_retry_loop_memory u fields (time_time (clock_reads io1))
              (Py.range (retry_count e1 + 1)) None None io2 e1)
    as (res & s' & ev & Hloop & Hpost).
  exists (Ok res), s', ev. split; [exact Hloop|]. intros res' [= <-].
  rewrite Hd1, Hs1, He1 in Hpost. rewrite app_assoc.
  apply memory_post_prefix; [apply Forall_app; auto | exact Hpost].
Qed.

End JsMemory.

Section MemoryReadings.
Import Base.
Context `{W : World}.

(** How duplicate detection shows in a result and in the set of seen
    hashes. *)
Definition duplicate_verdict (dedup : bool) (seen seen' : gset string)
    (res : ScrapeResult) : Prop :=
  (success res = true ->
     (error res = Some "Duplicate detected (skipped)"%string <->
        dedup = true /\ content_hash (data res) ∈ seen) /\
     (error res = None <-> ~ (dedup = true /\ content_hash (data res) ∈ seen)) /\
     (dedup = true -> content_hash (data res) ∈ seen')) /\
  seen ⊆ seen' /\
  (dedup = false \/ success res = false -> seen' = seen).

Lemma memory_post_duplicates (dedup : bool) (seen seen' : gset string)
    (errors errors' : nat) (res : ScrapeResult) (ev : list IOEvent) :
  memory_post dedup seen seen' errors errors' res ev ->
  duplicate_verdict dedup seen seen' res.
Proof.
  unfold memory_post, duplicate_verdict.
  destruct (success res).
  - destruct dedup; cbn [andb].
    + destruct (bool_decide_reflect (content_hash (data res) ∈ seen)) as [Hin|Hout].
      * intros (He & -> & _). rewrite He. split; [|split; [reflexivity|]].
        -- intros _. split; [|split; [|auto]].
           ++ split; [auto | reflexivity].
           ++ split; [discriminate | intros Hn; exfalso; apply Hn; auto].
        -- intros [H|H]; [discriminate | reflexivity].
      * intros (He & -> & _). rewrite He. split; [|split].
        -- intros _. split; [|split].
           ++ split; [discriminate | intros [_ Hin]; contradiction].
           ++ split; [intros _ [_ Hin]; contradiction | reflexivity].
           ++ intros _. set_solver.
        -- set_solver.
        -- intros [H|H]; discriminate.
    + intros (He & -> & _). rewrite He. split; [|split; [reflexivity | reflexivity]].
      intros _. split; [|split].
      * split; [discriminate | intros [H _]; discriminate].
      * split; [intros _ [H _]; discriminate | reflexivity].
      * discriminate.
  - intros [-> _]. split; [discriminate|]. split; [reflexivity | reflexivity].
Qed.

End MemoryReadings.

(** X17. Duplicate detection, in both engines. A successful result carries
    the error "Duplicate detected (skipped)" exactly when
    [detect_duplicates] is on and the hash of its data was in the set of
    seen hashes before the call; otherwise it carries no error. With
    detection on, the hash of a successful result is in the set after
    the call; the set never loses a hash, and it is not changed by a
    failed scrape or with detection off. *)
Theorem duplicate_detection `{W : Base.World} (u : string)
    (fields : list Project.SelectorField) :
  (forall (io : Base.IO) (e : StaticEngine.StaticEngine),
     exists r s' ev,
       StaticEngine.scrape u fields (io, e) = (r, s', ev) /\
       forall res, r = Base.Ok res ->
         duplicate_verdict (StaticEngine.detect_duplicates e)
           (StaticEngine._seen_hashes e) (StaticEngine._seen_hashes (snd s')) res) /\
  (forall (io : Base.IO) (e : PlaywrightEngine.PlaywrightEngine),
     exists r s' ev,
       PlaywrightEngine.scrape u fields (io, e) = (r, s', ev) /\
       forall res, r = Base.Ok res ->
         duplicate_verdict (PlaywrightEngine.detect_duplicates e)
           (PlaywrightEngine._seen_hashes e) (PlaywrightEngine._seen_hashes (snd s')) res).
Proof.
  split; intros io e.
  - destruct (st_scrape_memory u fields io e) as (r & s' & ev & Hrun & Hpost).
    exists r, s', ev. split; [exact Hrun|]. intros res Hr.
    eapply memory_post_duplicates. apply Hpost. exact Hr.
  - destruct (js_scrape_memory u fields io e) as (r & s' & ev & Hrun & Hpost).
    exists r, s', ev. split; [exact Hrun|]. intros res Hr.
    eapply memory_post_duplicates. apply Hpost. exact Hr.
Qed.

Section ErrorCounter.
Import Base.
Context `{W : World}.

(** The sleep of a [_wait_rate_limit] that backs off with [n]
    consecutive errors, [n] being below the overflow limit. *)
Definition backoff_sleep (rl : Project.RateLimitConfig) (n : nat) : list IOEvent :=
  let delay := Qmin (Project.max_delay rl * inject_Z (2 ^ Z.of_nat n)) 60 in
  if positive delay then [EvSleep RateLimitDelay delay] else [].

(** What a [_wait_rate_limit] that backs off with [n] consecutive errors
    comes to, started at [s]. *)
Definition backoff_wait {S} (rl : Project.RateLimitConfig) (n : nat) (s : IO * S)
    : Res unit * (IO * S) * list IOEvent :=
  if (float_exponent_limit <=? n)%nat then (Raise overflow_error, s, [])
  else (Ok tt, s, backoff_sleep rl n).

Lemma backoff_wait_run {S} (rl : Project.RateLimitConfig) (n : nat) (s : IO * S) :
  Project.adaptive rl = true -> (0 < n)%nat ->
  bind (if Project.adaptive rl && (0 <? n)%nat
        then of_res (backoff_delay rl n)
        else random_uniform (Project.min_delay rl) (Project.max_delay rl))
       (fun delay => when (positive delay) (sleep RateLimitDelay delay)) s =
  backoff_wait rl n s.
Proof.
  intros Ha Hn. rewrite Ha.
  assert ((0 <? n)%nat = true) as -> by (apply Nat.ltb_lt; exact Hn).
  cbn [andb]. unfold backoff_wait, backoff_delay, backoff_sleep, bind, of_res.
  destruct (float_exponent_limit <=? n)%nat; [reflexivity|].
  rewrite when_sleep_run. reflexivity.
Qed.

Lemma st_backoff_wait (io : IO) (e : StaticEngine.StaticEngine) :
  Project.adaptive (StaticEngine.rate_limit e) = true ->
  (0 < StaticEngine._consecutive_errors e)%nat ->
  StaticEngine._wait_rate_limit (io, e) =
    backoff_wait (StaticEngine.rate_limit e) (StaticEngine._consecutive_errors e) (io, e).
Proof.
  intros Ha Hn. unfold StaticEngine._wait_rate_limit. rewrite bind_get.
  apply backoff_wait_run; assumption.
Qed.

Lemma js_backoff_wait (io : IO) (e : PlaywrightEngine.PlaywrightEngine) :
  Project.adaptive (PlaywrightEngine.rate_limit e) = true ->
  (0 < PlaywrightEngine._consecutive_errors e)%nat ->
  PlaywrightEngine._wait_rate_limit (io, e) =
    backoff_wait (PlaywrightEngine.rate_limit e) (PlaywrightEngine._consecutive_errors e)
      (io, e).
Proof.
  intros Ha Hn. unfold PlaywrightEngine._wait_rate_limit. rewrite bind_get.
  apply backoff_wait_run; assumption.
Qed.

Lemma backoff_wait_cases {S} (rl : Project.RateLimitConfig) (n : nat) (s : IO * S)
    (out : Res unit * (IO * S) * list IOEvent) :
  out = backoff_wait rl n s ->
  ((n < float_exponent_limit)%nat -> out = (Ok tt, s, backoff_sleep rl n)) /\
  ((float_exponent_limit <= n)%nat -> out = (Raise overflow_error, s, [])).
Proof.
  intros ->. unfold backoff_wait.
  destruct (Nat.leb_spec float_exponent_limit n); split; intros; try reflexivity; lia.
Qed.

End ErrorCounter.

(** X18. The consecutive-error counter, in both engines. A successful scrape
    that is not flagged as a duplicate resets it to 0. A scrape that
    fails all its attempts adds their number, [retry_count + 1], to it
    (a robots refusal by the plain-HTTP engine makes no attempt and
    leaves it as it was). With adaptive rate limiting the next
    [_wait_rate_limit] then backs off for
    [min(max_delay * 2^counter, 60)] seconds while the counter is below
    1024; once the counter has reached 1024 it raises [OverflowError]
    instead, without sleeping. *)
Theorem consecutive_errors_after_scrape `{W : Base.World} (u : string)
    (fields : list Project.SelectorField) :
  (forall (io : Base.IO) (e : StaticEngine.StaticEngine),
     exists r s' ev,
       StaticEngine.scrape u fields (io, e) = (r, s', ev) /\
       forall res, r = Base.Ok res ->
         (Base.success res = true -> Base.error res = None ->
            StaticEngine._consecutive_errors (snd s') = 0%nat) /\
         (Base.success res = false ->
            (Forall outside_retry ev /\
             StaticEngine._consecutive_errors (snd s') = StaticEngine._consecutive_errors e) \/
            (StaticEngine._consecutive_errors (snd s') =
               (StaticEngine._consecutive_errors e +
                Z.to_nat (StaticEngine.retry_count e + 1))%nat /\
             (Project.adaptive (StaticEngine.rate_limit e) = true ->
              0 <= StaticEngine.retry_count e ->
              ((StaticEngine._consecutive_errors (snd s') < Base.float_exponent_limit)%nat ->
               StaticEngine._wait_rate_limit s' =
                 (Base.Ok tt, s',
                  backoff_sleep (StaticEngine.rate_limit e)
                    (StaticEngine._consecutive_errors e +
                     Z.to_nat (StaticEngine.retry_count e + 1)))) /\
              ((Base.float_exponent_limit <= StaticEngine._consecutive_errors (snd s'))%nat ->
               StaticEngine._wait_rate_limit s' =
                 (Base.Raise Base.overflow_error, s', [])))))) /\
  (forall (io : Base.IO) (e : PlaywrightEngine.PlaywrightEngine),
     exists r s' ev,
       PlaywrightEngine.scrape u fields (io, e) = (r, s', ev) /\
       forall res, r = Base.Ok res ->
         (Base.success res = true -> Base.error res = None ->
            PlaywrightEngine._consecutive_errors (snd s') = 0%nat) /\
         (Base.success res = false ->
            PlaywrightEngine._consecutive_errors (snd s') =
              (PlaywrightEngine._consecutive_errors e +
               Z.to_nat (PlaywrightEngine.retry_count e + 1))%nat /\
            (Project.adaptive (PlaywrightEngine.rate_limit e) = true ->
             0 <= PlaywrightEngine.retry_count e ->
             ((PlaywrightEngine._consecutive_errors (snd s') < Base.float_exponent_limit)%nat ->
              PlaywrightEngine._wait_rate_limit s' =
                (Base.Ok tt, s',
                 backoff_sleep (PlaywrightEngine.rate_limit e)
                   (PlaywrightEngine._consecutive_errors e +
                    Z.to_nat (PlaywrightEngine.retry_count e + 1)))) /\
             ((Base.float_exponent_limit <= PlaywrightEngine._consecutive_errors (snd s'))%nat ->
              PlaywrightEngine._wait_rate_limit s' =
                (Base.Raise Base.overflow_error, s', []))))).
Proof.
  split; intros io e.
  - destruct (st_scrape_memory u fields io e) as (r & s' & ev & Hrun & Hmem).
    destruct (st_scrape_run u fields io e) as (r0 & s0 & ev0 & Hrun0 & Hpost).
    rewrite Hrun in Hrun0. injection Hrun0 as <- <- <-.
    exists r, s', ev. split; [exact Hrun|]. intros res ->.
    specialize (Hmem res eq_refl). unfold memory_post in Hmem.
    cbn [st_scrape_post] in Hpost. split.
    + intros Hok Herr. rewrite Hok in Hmem.
      destruct (StaticEngine.detect_duplicates e && _);
        [destruct Hmem as (He & _); congruence | tauto].
    + intros Hfl. rewrite Hfl in Hmem. destruct Hmem as [_ Herrs].
      destruct Hpost as [(Hout & _) | (Hcfg & _ & (a & _ & Hshape & _ & Hlen) & _)].
      * left. split; [exact Hout|].
        rewrite Herrs, (failed_attempts_outside ev Hout). lia.
      * right. rewrite (Hlen Hfl) in Hshape.
        assert (Hn : failed_attempts ev = Z.to_nat (StaticEngine.retry_count e + 1)).
        { unfold failed_attempts. rewrite Hshape, Hfl, count_failed_shape. reflexivity. }
        rewrite Hn in Herrs. split; [exact Herrs|]. intros Hadapt Hrc.
        destruct s' as [io' e']. cbn [snd] in *.
        assert (StaticEngine.rate_limit e' = StaticEngine.rate_limit e) as Hrl
          by (injection Hcfg; auto).
        rewrite <- Herrs, <- Hrl. apply backoff_wait_cases.
        apply st_backoff_wait; [rewrite Hrl; exact Hadapt | lia].
  - destruct (js_scrape_memory u fields io e) as (r & s' & ev & Hrun & Hmem).
    destruct (js_scrape_run u fields io e) as (r0 & s0 & ev0 & Hrun0 & Hpost).
    rewrite Hrun in Hrun0. injection Hrun0 as <- <- <-.
    exists r, s', ev. split; [exact Hrun|]. intros res ->.
    specialize (Hmem res eq_refl). unfold memory_post in Hmem.
    cbn [js_scrape_post] in Hpost. split.
    + intros Hok Herr. rewrite Hok in Hmem.
      destruct (PlaywrightEngine.detect_duplicates e && _);
        [destruct Hmem as (He & _); congruence | tauto].
    + intros Hfl. rewrite Hfl in Hmem. destruct Hmem as [_ Herrs].
      destruct Hpost as (Hcfg & _ & _ & (a & _ & Hshape & _ & Hlen) & _).
      rewrite (Hlen Hfl) in Hshape.
      assert (Hn : failed_attempts ev = Z.to_nat (PlaywrightEngine.retry_count e + 1)).
      { unfold failed_attempts. rewrite Hshape, Hfl, count_failed_shape. reflexivity. }
      rewrite Hn in Herrs. split; [exact Herrs|]. intros Hadapt Hrc.
      destruct s' as [io' e']. cbn [snd] in *.
      assert (PlaywrightEngine.rate_limit e' = PlaywrightEngine.rate_limit e) as Hrl
        by (injection Hcfg; auto).
      rewrite <- Herrs, <- Hrl. apply backoff_wait_cases.
      apply js_backoff_wait; [rewrite Hrl; exact Hadapt | lia].
Qed.

(** ** More on the orchestrator *)

Section QueueFacts.
Import Base Scraper.

Lemma enqueue_new_spec (links : list string) :
  forall (queue : list string) (seen : gset string) (added : nat),
    exists new,
      enqueue_new links queue seen added =
        (queue ++ new, list_to_set new ∪ seen, (added + length new)%nat) /\
      NoDup new /\ (forall x, x ∈ new -> x ∉ seen).
Proof.
  induction links as [|link rest IH]; intros queue seen added; cbn [enqueue_new].
  - exists []. cbn [length list_to_set]. rewrite app_nil_r, Nat.add_0_r.
    rewrite (left_id_L ∅ (∪)). split; [reflexivity|]. split; [constructor|].
    intros x Hx. inversion Hx.
  - destruct (bool_decide_reflect (link ∈ seen)) as [Hin|Hout]; [apply IH|].
    destruct (IH (queue ++ [link]) ({[link]} ∪ seen) (S added)) as (new & Heq & Hnd & Hfresh).
    exists (link :: new). rewrite Heq. split.
    + f_equal; [f_equal|].
      * rewrite <- app_assoc. reflexivity.
      * cbn [list_to_set]. rewrite (assoc_L (∪)).
        rewrite (comm_L (∪) (list_to_set new) {[link]}). reflexivity.
      * cbn [length]. lia.
    + split.
      * constructor; [|exact Hnd]. intros Hl. apply (Hfresh link Hl). set_solver.
      * intros x Hx. apply elem_of_cons in Hx as [->|Hx]; [exact Hout|].
        specialize (Hfresh x Hx). set_solver.
Qed.

End QueueFacts.

(** Prove a property of every event of a trace made of known parts. *)
Ltac forall_trace :=
  repeat first
    [ assumption
    | apply Forall_app; split
    | constructor; [exact I|]
    | constructor ].

Section BodyFacts.
Import Base Scraper.
Context `{W : World} `{U : User}.

(** Whether links are followed: [crawl_enabled and link_selectors]. *)
Definition crawling (p : Project.ScraperProject) : bool :=
  Project.lf_enabled (Project.link_follow p) &&
  negb (bool_decide (Project.link_selectors (Project.link_follow p) = [])).

(** The attributes of the orchestrator that engine calls leave alone. *)
Definition controls (o : ScraperOrchestrator) :=
  (project o, _running o, _paused o, _stop_requested o).

(** An event other than the [completed] signal. *)
Definition not_completed (e : Event) : Prop :=
  match e with
  | EvSignal (SigCompleted _) => False
  | _ => True
  end.

Lemma engine_not_completed (ev : list IOEvent) : Forall not_completed (map EvEngine ev).
Proof. apply Forall_fmap, Forall_true. intros e. exact I. Qed.

Lemma zoom_controls {S A} (proj : ScraperOrchestrator -> option S)
    (inj : S -> ScraperOrchestrator -> ScraperOrchestrator) (m : M S A)
    (Q : A -> Prop) (s : IO * ScraperOrchestrator) :
  (forall x o, controls (inj x o) = controls o) ->
  (forall x, exists r s' ev, m (fst s, x) = (r, s', ev) /\ forall a, r = Ok a -> Q a) ->
  exists r s' ev0,
    zoom proj inj m s = (r, s', map EvEngine ev0) /\
    controls (snd s') = controls (snd s) /\
    forall a, r = Ok a -> Q a.
Proof.
  intros Hinj Hm. unfold zoom. destruct (proj (snd s)) as [x|].
  - destruct (Hm x) as (r & [io x'] & ev & Hrun & HQ). rewrite Hrun.
    eexists _, _, _. split; [reflexivity|]. split; [apply Hinj | exact HQ].
  - exists (Raise "'NoneType' object has no attribute"), s, []. split; [reflexivity|].
    split; [reflexivity | discriminate].
Qed.

Lemma engine_check_robots_controls (engine : EngineRef) (u : string)
    (s : IO * ScraperOrchestrator) :
  exists r s' ev0,
    engine_check_robots engine u s = (r, s', map EvEngine ev0) /\
    controls (snd s') = controls (snd s).
Proof.
  destruct engine; cbn [engine_check_robots].
  - destruct (zoom_controls _static_engine (fun e => set_static_engine (Some e))
                (StaticEngine.check_robots u) (fun _ => True) s)
      as (r & s' & ev & H1 & H2 & _); [reflexivity | | eauto].
    intros x. destruct (StaticEngine.check_robots u (s.1, x)) as [[r s'] ev].
    eexists _, _, _. split; [reflexivity | auto].
  - destruct (zoom_controls _js_engine (fun e => set_js_engine (Some e))
                (PlaywrightEngine.check_robots u) (fun _ => True) s)
      as (r & s' & ev & H1 & H2 & _); [reflexivity | | eauto].
    intros x. destruct (PlaywrightEngine.check_robots u (s.1, x)) as [[r s'] ev].
    eexists _, _, _. split; [reflexivity | auto].
Qed.

(** [engine.scrape(url, fields)] answers for the URL it was given. *)
Lemma engine_scrape_controls (engine : EngineRef) (u : string)
    (fields : list Project.SelectorField) (s : IO * ScraperOrchestrator) :
  exists r s' ev0,
    engine_scrape engine u fields s = (r, s', map EvEngine ev0) /\
    controls (snd s') = controls (snd s) /\
    forall res, r = Ok res -> url res = u.
Proof.
  destruct engine; cbn [engine_scrape].
  - apply zoom_controls; [reflexivity|]. intros x.
    destruct (st_scrape_run u fields (fst s) x) as (r & s' & ev & Hrun & Hpost).
    exists r, s', ev. split; [exact Hrun|]. intros res ->. cbn [st_scrape_post] in Hpost.
    destruct Hpost as [(_ & parsed & ->) | (_ & Hurl & _)]; [reflexivity | exact Hurl].
  - apply zoom_controls; [reflexivity|]. intros x.
    destruct (js_scrape_run u fields (fst s) x) as (r & s' & ev & Hrun & Hpost).
    exists r, s', ev. split; [exact Hrun|]. intros res ->. cbn [js_scrape_post] in Hpost.
    destruct Hpost as (_ & _ & Hurl & _). exact Hurl.
Qed.

Lemma extract_links_total (page base_url sel : string) (same_domain : bool)
    (s : IO * ScraperOrchestrator) :
  exists links ev, _extract_links page base_url sel same_domain s = (Ok links, s, ev) /\
                   Forall not_completed ev.
Proof.
  unfold _extract_links.
  destruct (match bs_parse_html page with Some _ => _ | None => _ end) as [links [msg|]];
    unfold bind, log, signal, emit, ret; cbn [app];
    eexists _, _; (split; [reflexivity|]); repeat constructor.
Qed.

Lemma extract_all_links_total (page base_url : string) (same_domain : bool)
    (selectors : list string) :
  forall (acc : list string) (s : IO * ScraperOrchestrator),
    exists links ev,
      extract_all_links page base_url selectors same_domain acc s = (Ok links, s, ev) /\
      Forall not_completed ev.
Proof.
  induction selectors as [|sel rest IH]; intros acc s; cbn [extract_all_links].
  - exists acc, []. split; [reflexivity | constructor].
  - destruct (extract_links_total page base_url sel same_domain s) as (links & ev1 & H1 & F1).
    destruct (IH (acc ++ links) s) as (all & ev2 & H2 & F2).
    exists all, (ev1 ++ ev2). split; [unfold bind; rewrite H1, H2; reflexivity|].
    apply Forall_app. auto.
Qed.

(** The links a page adds to the queue are new and distinct. *)
Lemma discover_links_queue (p : Project.ScraperProject) (u : string) (result : ScrapeResult)
    (ls : LoopState) (s : IO * ScraperOrchestrator) :
  exists ls' ev new,
    discover_links p u result ls s = (Ok ls', s, ev) /\
    pages_scraped ls' = pages_scraped ls /\ results ls' = results ls /\
    url_queue ls' = url_queue ls ++ new /\
    seen_urls ls' = list_to_set new ∪ seen_urls ls /\
    NoDup new /\ (forall x, x ∈ new -> x ∉ seen_urls ls) /\
    (crawling p = false -> new = []) /\
    Forall not_completed ev.
Proof.
  assert (Hsame : forall (m : Comp Event ScraperOrchestrator LoopState) (ev : list Event),
            m s = (Ok ls, s, ev) -> Forall not_completed ev ->
            exists ls' ev' new,
              m s = (Ok ls', s, ev') /\
              pages_scraped ls' = pages_scraped ls /\ results ls' = results ls /\
              url_queue ls' = url_queue ls ++ new /\
              seen_urls ls' = list_to_set new ∪ seen_urls ls /\
              NoDup new /\ (forall x, x ∈ new -> x ∉ seen_urls ls) /\
              (crawling p = false -> new = []) /\
              Forall not_completed ev').
  { intros m ev Hm Hev. exists ls, ev, []. cbn [list_to_set].
    rewrite app_nil_r, (left_id_L ∅ (∪)).
    split; [exact Hm|]. repeat split; try constructor; [|exact Hev].
    intros x Hx. inversion Hx. }
  unfold discover_links. cbn zeta. fold (crawling p).
  destruct (crawling p) eqn:Hcrawl; [|eapply Hsame; [reflexivity | constructor]].
  destruct (html result) as [page|];
    [|eapply Hsame; [reflexivity | repeat constructor]].
  destruct (String.eqb page ""); [eapply Hsame; [reflexivity | repeat constructor]|].
  destruct (extract_all_links_total page u
              (Project.same_domain_only (Project.link_follow p))
              (Project.link_selectors (Project.link_follow p)) [] s)
    as (links & ev1 & H1 & F1).
  unfold bind at 1. rewrite H1.
  destruct (enqueue_new_spec (dedup links) (url_queue ls) (seen_urls ls) 0)
    as (new & Henq & Hnd & Hfresh).
  rewrite Henq.
  destruct (dedup links); unfold bind, log, signal, emit, ret; cbn [app];
    eexists _, _, new; (split; [reflexivity|]);
    cbn [pages_scraped results url_queue seen_urls];
    (split; [reflexivity|]); (split; [reflexivity|]); (split; [reflexivity|]);
    (split; [reflexivity|]); (split; [exact Hnd|]); (split; [exact Hfresh|]);
    (split; [discriminate|]); apply Forall_app; (split; [exact F1 | repeat constructor]).
Qed.

Lemma report_progress_total (p : Project.ScraperProject) (u : string) (result : ScrapeResult)
    (ls : LoopState) (s : IO * ScraperOrchestrator) :
  exists ev, report_progress p u result ls s = (Ok tt, s, ev) /\ Forall not_completed ev.
Proof.
  unfold report_progress. cbn zeta.
  repeat match goal with
         | |- context [if ?c then _ else _] => destruct c
         end;
    unfold bind, log, signal, emit, ret; cbn [app]; eexists;
    (split; [reflexivity | repeat constructor]).
Qed.

Lemma after_append_queue (p : Project.ScraperProject) (u : string) (result : ScrapeResult)
    (ls : LoopState) (s : IO * ScraperOrchestrator) :
  exists ls' ev new,
    after_append p u result ls s = (Ok ls', s, ev) /\
    pages_scraped ls' = pages_scraped ls /\ results ls' = results ls /\
    url_queue ls' = url_queue ls ++ new /\
    seen_urls ls' = list_to_set new ∪ seen_urls ls /\
    NoDup new /\ (forall x, x ∈ new -> x ∉ seen_urls ls) /\
    (crawling p = false -> new = []) /\
    Forall not_completed ev.
Proof.
  unfold after_append.
  destruct (discover_links_queue p u result ls s)
    as (ls1 & ev1 & new & H1 & Ha & Hb & Hc & Hd & He & Hf & Hg & F1).
  destruct (report_progress_total p u result ls1 s) as (ev2 & H2 & F2).
  exists ls1, (ev1 ++ ev2 ++ []), new. split.
  - unfold bind, ret. rewrite H1, H2. reflexivity.
  - rewrite app_nil_r. repeat split; auto. apply Forall_app. auto.
Qed.

(** Whether the loop pauses on this result. *)
Definition pauses_on (result : ScrapeResult) : bool :=
  negb (success result) && _should_pause_on_error result.

Lemma pause_spec (result : ScrapeResult) (n : Z) (s : IO * ScraperOrchestrator) :
  exists stopped s' ev,
    (if negb (success result) && _should_pause_on_error result then
       (modify (set_paused true) >>
        signal (SigPaused (error result) result) >>
        modify (apply_action (on_paused n result)) >>
        let* o := get in
        ret (_stop_requested o))%M
     else ret false) s = (Ok stopped, s', ev) /\
    Forall not_completed ev /\
    _running (snd s') = _running (snd s) /\
    (stopped = true ->
       pauses_on result = true /\
       (on_paused n result = CallStop \/ _stop_requested (snd s) = true)) /\
    (stopped = false ->
       _stop_requested (snd s') = _stop_requested (snd s) /\
       (pauses_on result = true -> on_paused n result <> CallStop)).
Proof.
  unfold pauses_on.
  destruct (negb (success result) && _should_pause_on_error result).
  - unfold bind, modify, signal, emit, get, ret. cbn [fst snd app].
    eexists _, _, _. split; [reflexivity|]. split; [repeat constructor|]. cbn [snd].
    destruct (on_paused n result); cbn [apply_action resume skip_current stop set_paused
      set_stop_requested _running _stop_requested];
      (split; [reflexivity|]); split; intros Hst; try discriminate; auto;
      split; auto; intros _; discriminate.
  - eexists _, _, _. split; [reflexivity|]. split; [constructor|]. split; [reflexivity|].
    split; [discriminate|]. intros _. split; [reflexivity | discriminate].
Qed.

(** What one pass through the loop body does to the loop variables. *)
Definition body_post (p : Project.ScraperProject) (u : string) (queue : list string)
    (ls : LoopState) (s : IO * ScraperOrchestrator) (r : Res BodyExit)
    (s' : IO * ScraperOrchestrator) : Prop :=
  _running (snd s') = _running (snd s) /\
  match r with
  | Raise _ => True
  | Ok (Break ls') =>
      results ls' = results ls /\
      (stop_pressed (pages_scraped ls) = true \/ _stop_requested (snd s) = true \/
       exists result, on_paused (pages_scraped ls + 1) result = CallStop)
  | Ok (NextIteration ls') =>
      pages_scraped ls' = pages_scraped ls + 1 /\
      _stop_requested (snd s') = false /\
      exists result new,
        results ls' = results ls ++ [result] /\ url result = u /\
        url_queue ls' = queue ++ new /\
        seen_urls ls' = list_to_set new ∪ seen_urls ls /\
        NoDup new /\ (forall x, x ∈ new -> x ∉ seen_urls ls) /\
        (crawling p = false -> new = []) /\
        (pauses_on result = true -> on_paused (pages_scraped ls + 1) result <> CallStop)
  end.

Lemma loop_body_spec (engine : EngineRef) (p : Project.ScraperProject) (u : string)
    (queue : list string) (ls : LoopState) (s : IO * ScraperOrchestrator) :
  exists r s' ev,
    loop_body engine p u queue ls s = (r, s', ev) /\ body_post p u queue ls s r s' /\
    Forall not_completed ev.
Proof.
  unfold loop_body.
  eapply bind_any; [apply when_modify_run|].
  eapply bind_any; [reflexivity|]. cbn [fst snd].
  set (o0 := if stop_pressed (pages_scraped ls) then stop (snd s) else snd s).
  assert (Hrun0 : _running o0 = _running (snd s))
    by (subst o0; destruct (stop_pressed _); reflexivity).
  destruct (_stop_requested o0) eqn:Hstop0.
  { eexists _, _, _. split; [reflexivity|]. split; [|repeat constructor].
    split; [exact Hrun0|]. split; [reflexivity|]. subst o0.
    destruct (stop_pressed (pages_scraped ls)); [left; reflexivity | right; left; exact Hstop0]. }
  eapply bind_any; [reflexivity|]. cbn beta.
  match goal with
  | |- exists _ _ _, bind _ _ ?s0 = _ /\ _ =>
      destruct (engine_check_robots_controls engine u s0) as (rw & s1 & ev1 & Hrob & Hc1)
  end.
  cbn [snd] in Hc1.
  assert (Hr1 : _running (snd s1) = _running (snd s)) by (injection Hc1; intros; congruence).
  assert (Hs1 : _stop_requested (snd s1) = false) by (injection Hc1; intros; congruence).
  pose proof (engine_not_completed ev1) as F1.
  destruct rw as [warning|msg];
    [| apply bind_raised with (1 := Hrob); split; [split; [exact Hr1 | exact I]|];
       cbn [app]; forall_trace].
  apply bind_any with (1 := Hrob).
  assert (Hw : exists evw,
            match warning with
            | Some w => (signal (SigRobotsWarning w) >> log Warning (MsgRobotsWarning u))%M
            | None => ret tt
            end s1 = (Ok tt, s1, evw) /\ Forall not_completed evw).
  { destruct warning; eexists; (split; [reflexivity | repeat constructor]). }
  destruct Hw as (evw & Hw & Fw).
  apply bind_any with (1 := Hw).
  destruct (engine_scrape_controls engine u (Project.fields p) s1)
    as (rs & s2 & ev2 & Hscr & Hc2 & Hurl).
  assert (Hr2 : _running (snd s2) = _running (snd s)) by (injection Hc2; intros; congruence).
  assert (Hs2 : _stop_requested (snd s2) = false) by (injection Hc2; intros; congruence).
  pose proof (engine_not_completed ev2) as F2.
  destruct rs as [result|msg];
    [| apply bind_raised with (1 := Hscr); split; [split; [exact Hr2 | exact I]|];
       cbn [app]; forall_trace].
  apply bind_any with (1 := Hscr).
  destruct (pause_spec result (pages_scraped ls + 1) s2)
    as (stopped & s3 & evp & Hpause & Fp & Hr3 & Hstopped & Hgoes).
  apply bind_any with (1 := Hpause).
  destruct stopped.
  { eexists _, _, _. split; [reflexivity|]. split.
    - split; [congruence|]. split; [reflexivity|]. right. right.
      destruct (Hstopped eq_refl) as [_ [Hcall|Hflag]]; [eauto | congruence].
    - cbn [app]. forall_trace. }
  cbn beta.
  destruct (Hgoes eq_refl) as [Hs3 Hnostop].
  match goal with
  | |- exists _ _ _, bind (after_append p u result ?l) _ ?s0 = _ /\ _ =>
      destruct (after_append_queue p u result l s0)
        as (ls3 & ev3 & new & Haft & Hp3 & Hres3 & Hq3 & Hseen3 & Hnd & Hfresh & Hcrawl & F3)
  end.
  cbn [pages_scraped results url_queue seen_urls] in Hp3, Hres3, Hq3, Hseen3, Hfresh.
  apply bind_any with (1 := Haft).
  eexists _, _, _. split; [reflexivity|]. split.
  - split; [congruence|].
    split; [exact Hp3|]. split; [congruence|].
    exists result, new. split; [exact Hres3|]. split; [apply Hurl; reflexivity|].
    repeat split; assumption.
  - cbn [app]. forall_trace.
Qed.

End BodyFacts.

Section LoopFacts.
Import Base Scraper.
Context `{W : World} `{U : User}.

(** A caller who never calls [stop()]. *)
Definition never_stops : Prop :=
  (forall n, stop_pressed n = false) /\ (forall n result, on_paused n result <> CallStop).

(** What the loop has done when it is left with the variables [ls'],
    having been entered with [ls] and the stop flag [flag]: [fresh] are
    the results it has appended, [discovered] the links it has added to
    the queue, and [rest] what is left of the queue and the links once the
    URLs of the results are taken from their front. *)
Definition loop_post (p : Project.ScraperProject) (ls ls' : LoopState) (flag : bool) : Prop :=
  exists fresh discovered rest,
    results ls' = results ls ++ fresh /\
    url_queue ls ++ discovered = map url fresh ++ rest /\
    NoDup discovered /\ (forall x, x ∈ discovered -> x ∉ seen_urls ls) /\
    (crawling p = false -> discovered = []) /\
    Forall (fun result => pauses_on result = true ->
                          exists n, on_paused n result <> CallStop) fresh /\
    (never_stops -> flag = false ->
       rest = url_queue ls' /\
       pages_scraped ls' = pages_scraped ls + Z.of_nat (length fresh) /\
       (url_queue ls' = [] \/ max_pages_of p <= pages_scraped ls')).

Lemma loop_post_done (p : Project.ScraperProject) (ls : LoopState) (flag : bool) :
  url_queue ls = [] \/ max_pages_of p <= pages_scraped ls ->
  loop_post p ls ls flag.
Proof.
  intros Hdone. exists [], [], (url_queue ls). cbn [map app length].
  rewrite !app_nil_r. split; [reflexivity|]. split; [reflexivity|].
  split; [constructor|]. split; [intros x Hx; inversion Hx|].
  split; [reflexivity|]. split; [constructor|].
  intros _ _. split; [reflexivity|]. split; [lia | exact Hdone].
Qed.

Lemma run_loop_spec (engine : EngineRef) (p : Project.ScraperProject) :
  forall (fuel : nat) (ls : LoopState) (s : IO * ScraperOrchestrator),
    exists r s' ev,
      run_loop fuel engine p ls s = (r, s', ev) /\
      _running (snd s') = _running (snd s) /\
      Forall not_completed ev /\
      forall ls', r = Ok (Some ls') -> loop_post p ls ls' (_stop_requested (snd s)).
Proof.
  induction fuel as [|fuel IH]; intros ls s.
  - cbn [run_loop]. destruct (url_queue ls) as [|u queue] eqn:Hq.
    + exists (Ok (Some ls)), s, []. split; [reflexivity|]. split; [reflexivity|].
      split; [constructor|]. intros ls' [= <-]. apply loop_post_done. auto.
    + destruct (Z.ltb_spec (pages_scraped ls) (max_pages_of p)) as [Hlt|Hge]; cbn [negb].
      * exists (Ok None), s, []. split; [reflexivity|]. split; [reflexivity|].
        split; [constructor | discriminate].
      * exists (Ok (Some ls)), s, []. split; [reflexivity|]. split; [reflexivity|].
        split; [constructor|]. intros ls' [= <-]. apply loop_post_done. auto.
  - cbn [run_loop]. destruct (url_queue ls) as [|u queue] eqn:Hq.
    { exists (Ok (Some ls)), s, []. split; [reflexivity|]. split; [reflexivity|].
      split; [constructor|]. intros ls' [= <-]. apply loop_post_done. auto. }
    destruct (Z.ltb_spec (pages_scraped ls) (max_pages_of p)) as [Hlt|Hge]; cbn [negb].
    2: { exists (Ok (Some ls)), s, []. split; [reflexivity|]. split; [reflexivity|].
         split; [constructor|]. intros ls' [= <-]. apply loop_post_done. auto. }
    destruct (loop_body_spec engine p u queue ls s) as (r & s1 & ev1 & Hbody & Hpost & F1).
    destruct Hpost as [Hrun1 Hpost].
    destruct r as [[ls1|ls1]|msg].
    + destruct Hpost as (Hp1 & Hflag1 & result & new & Hres1 & Hurl & Hq1 & Hseen1 & Hnd1 &
                         Hfresh1 & Hcrawl1 & Hpause1).
      destruct (IH ls1 s1) as (r2 & s2 & ev2 & Hloop & Hrun2 & F2 & Hpost2).
      exists r2, s2, (ev1 ++ ev2). split; [unfold bind; rewrite Hbody, Hloop; reflexivity|].
      split; [congruence|]. split; [apply Forall_app; auto|].
      intros ls' Hr2. destruct (Hpost2 ls' Hr2)
        as (fresh & discovered & rest & Hres & Hqueue & Hnd & Hdisj & Hcrawl & Hp & Hquiet).
      exists (result :: fresh), (new ++ discovered), rest.
      split; [rewrite Hres, Hres1, <- app_assoc; reflexivity|].
      split.
      { cbn [map app]. rewrite Hurl, Hq. rewrite <- Hqueue, Hq1.
        cbn [app]. rewrite <- !app_assoc. reflexivity. }
      split.
      { apply NoDup_app. split; [exact Hnd1|]. split; [|exact Hnd].
        intros x Hx Hx'. apply (Hdisj x Hx'). rewrite Hseen1.
        apply elem_of_union_l, elem_of_list_to_set. exact Hx. }
      split.
      { intros x Hx. apply elem_of_app in Hx as [Hx|Hx]; [apply Hfresh1; exact Hx|].
        intros Hin. apply (Hdisj x Hx). rewrite Hseen1. apply elem_of_union_r. exact Hin. }
      split.
      { intros Hc. rewrite (Hcrawl1 Hc), (Hcrawl Hc). reflexivity. }
      split.
      { constructor; [|exact Hp]. intros Hpz. eexists. apply Hpause1. exact Hpz. }
      intros Hns Hflag. destruct (Hquiet Hns Hflag1) as (Hrest & Hpages & Hend).
      split; [exact Hrest|]. split; [|exact Hend].
      rewrite Hpages, Hp1. cbn [length]. lia.
    + destruct Hpost as (Hres1 & Hwhy).
      exists (Ok (Some ls1)), s1, (ev1 ++ []).
      split; [unfold bind, ret; rewrite Hbody; reflexivity|].
      split; [exact Hrun1|]. split; [rewrite app_nil_r; exact F1|].
      intros ls' [= <-]. exists [], [], (url_queue ls). cbn [map app length].
      rewrite !app_nil_r. split; [exact Hres1|]. split; [reflexivity|].
      split; [constructor|]. split; [intros x Hx; inversion Hx|].
      split; [reflexivity|]. split; [constructor|].
      intros [Hpress Hcalls] Hflag. exfalso.
      destruct Hwhy as [Hw|[Hw|(result & Hw)]];
        [rewrite Hpress in Hw; discriminate | congruence | exact (Hcalls _ _ Hw)].
    + exists (Raise msg), s1, ev1. split; [unfold bind; rewrite Hbody; reflexivity|].
      split; [exact Hrun1|]. split; [exact F1 | discriminate].
Qed.

(** The loop variables [run] starts from. *)
Definition start_state (p : Project.ScraperProject) : LoopState :=
  {| url_queue := Project.urls (Project.target p);
     seen_urls := list_to_set (Project.urls (Project.target p));
     pages_scraped := 0; results := [] |}.

(** The two events a run ends with when it returns [rs]. *)
Definition closing_events (rs : list ScrapeResult) : list Event :=
  [EvSignal (SigCompleted rs);
   EvSignal (SigLog Info (MsgCompleted (length (filter (fun r => success r = true) rs))
                                       (length rs)))].

(** What [run] does, by the way it ends. *)
Definition run_post (s : IO * ScraperOrchestrator) (r : Res (option (list ScrapeResult)))
    (s' : IO * ScraperOrchestrator) (ev : list Event) : Prop :=
  let p := project (snd s) in
  if bool_decide (Project.urls (Project.target p) = []) then
    r = Ok (Some []) /\ s' = s /\ ev = [EvSignal (SigError "No URLs to scrape")]
  else if bool_decide (Project.fields p = []) then
    r = Ok (Some []) /\ s' = s /\ ev = [EvSignal (SigError "No fields defined")]
  else
    match r with
    | Raise _ => _running (snd s') = true /\ Forall not_completed ev
    | Ok None => True
    | Ok (Some rs) =>
        _running (snd s') = false /\
        (exists ev0, ev = ev0 ++ closing_events rs /\ Forall not_completed ev0) /\
        exists ls', results ls' = rs /\ loop_post p (start_state p) ls' false
    end.

Lemma get_engine_controls (s : IO * ScraperOrchestrator) :
  exists engine o', _get_engine s = (Ok engine, (fst s, o'), []) /\
                    controls o' = controls (snd s).
Proof.
  destruct s as [io o]. unfold _get_engine, bind, get, when, modify, ret. cbn [fst snd].
  destruct (String.eqb _ "js");
    match goal with |- context [bool_decide ?P] => destruct (bool_decide P) end;
    cbn [fst snd app]; eexists _, _; split; reflexivity.
Qed.

Lemma run_spec (s : IO * ScraperOrchestrator) :
  exists r s' ev, run s = (r, s', ev) /\ run_post s r s' ev.
Proof.
  unfold run, run_post. eapply bind_any; [reflexivity|]. cbn [fst snd app]. cbn zeta.
  destruct (bool_decide (Project.urls (Project.target (project (snd s))) = [])).
  { eexists _, _, _. split; [reflexivity|]. destruct s. repeat split. }
  destruct (bool_decide (Project.fields (project (snd s)) = [])).
  { eexists _, _, _. split; [reflexivity|]. destruct s. repeat split. }
  eapply bind_any; [reflexivity|].
  eapply bind_any; [reflexivity|].
  eapply bind_any; [reflexivity|]. cbn [fst snd app].
  match goal with
  | |- exists _ _ _, bind ?m _ ?s0 = _ /\ _ =>
      assert (Hlogs : exists ev0, m s0 = (Ok tt, s0, ev0) /\ Forall not_completed ev0)
  end.
  { destruct (Project.lf_enabled _); cbn [andb];
      try match goal with |- context [bool_decide ?P] => destruct (bool_decide P) end;
      cbn [negb]; eexists; (split; [reflexivity | repeat constructor]). }
  destruct Hlogs as (ev0 & Hlogs & F0).
  apply bind_any with (1 := Hlogs).
  match goal with
  | |- exists _ _ _, bind _get_engine _ ?s0 = _ /\ _ =>
      destruct (get_engine_controls s0) as (engine & o1 & Heng & Hctl)
  end.
  apply bind_any with (1 := Heng). cbn [fst snd] in *.
  assert (Hrun1 : _running o1 = true) by (injection Hctl; auto).
  assert (Hstop1 : _stop_requested o1 = false) by (injection Hctl; auto).
  assert (Hproj1 : project o1 = project (snd s)) by (injection Hctl; auto).
  match goal with
  | |- exists _ _ _, bind (run_loop ?f engine ?p ?l) _ ?s0 = _ /\ _ =>
      destruct (run_loop_spec engine p f l s0) as (rl & s2 & ev2 & Hloop & Hrun2 & F2 & Hpost2)
  end.
  cbn [snd] in Hrun2, Hpost2. rewrite Hstop1 in Hpost2.
  destruct rl as [[ls|]|msg].
  - apply bind_any with (1 := Hloop). cbn beta iota.
    eexists _, _, _. split; [reflexivity|]. cbn [snd _running set_running].
    split; [reflexivity|]. split.
    + unfold closing_events. cbn [app]. rewrite ?app_nil_r.
      match goal with
      | |- exists _, ?e :: _ = _ /\ _ => exists (e :: ev0 ++ ev2)
      end.
      split; [cbn [app]; rewrite <- app_assoc; reflexivity | forall_trace].
    + exists ls. split; [reflexivity|]. apply Hpost2. reflexivity.
  - apply bind_any with (1 := Hloop). cbn beta iota.
    eexists _, _, _. split; [reflexivity | exact I].
  - apply bind_raised with (1 := Hloop). split; [congruence|].
    cbn [app]. forall_trace.
Qed.

End LoopFacts.

(** X19. How [run] ends. With no URL, or with URLs but no field, it emits one
    [error] signal, returns the empty list and changes nothing: it makes
    no request and emits no [completed] signal. Otherwise, when it
    returns, [is_running] is false and its last two events are the
    [completed] signal, carrying the list it returns, and the summary log
    line, with no other [completed] signal before them; when instead an
    exception escapes from an engine, no [completed] signal is emitted
    and [is_running] stays true. *)
Theorem run_completion `{W : Base.World} `{U : Scraper.User}
    (s : Base.IO * Scraper.ScraperOrchestrator) :
  exists r s' ev,
    Scraper.run s = (r, s', ev) /\
    (Project.urls (Project.target (Scraper.project (snd s))) = [] ->
       r = Base.Ok (Some []) /\ s' = s /\
       ev = [Base.EvSignal (Base.SigError "No URLs to scrape")]) /\
    (Project.urls (Project.target (Scraper.project (snd s))) <> [] ->
     Project.fields (Scraper.project (snd s)) = [] ->
       r = Base.Ok (Some []) /\ s' = s /\
       ev = [Base.EvSignal (Base.SigError "No fields defined")]) /\
    (Project.urls (Project.target (Scraper.project (snd s))) <> [] ->
     Project.fields (Scraper.project (snd s)) <> [] ->
       (forall rs, r = Base.Ok (Some rs) ->
          Scraper.is_running (snd s') = false /\
          exists ev0, ev = ev0 ++ closing_events rs /\ Forall not_completed ev0) /\
       (forall msg, r = Base.Raise msg ->
          Scraper.is_running (snd s') = true /\ Forall not_completed ev)).
Proof.
  destruct (run_spec s) as (r & s' & ev & Hrun & Hpost).
  exists r, s', ev. split; [exact Hrun|]. unfold run_post in Hpost. cbn zeta in Hpost.
  destruct (bool_decide_reflect
              (Project.urls (Project.target (Scraper.project (snd s))) = [])) as [Hu|Hu].
  { split; [intros _; exact Hpost|]. split; intros Hne; contradiction. }
  split; [intros; contradiction|].
  destruct (bool_decide_reflect (Project.fields (Scraper.project (snd s)) = [])) as [Hf|Hf].
  { split; [intros _ _; exact Hpost|]. intros _ Hne. contradiction. }
  split; [intros; contradiction|]. intros _ _. split.
  - intros rs ->. destruct Hpost as (Hr & Hev & _). split; [exact Hr | exact Hev].
  - intros msg ->. exact Hpost.
Qed.

(** One page whose address cannot be parsed, scraped with robots.txt
    respected. *)
Definition bad_url_project : Project.ScraperProject :=
  {| Project.target :=
       {| Project.urls := ["http://[bad"]%string;
          Project.site_type := Project.STATIC; Project.headers := [] |};
     Project.fields := [title_field];
     Project.link_follow :=
       {| Project.lf_enabled := false; Project.link_selectors := [];
          Project.max_depth := 1; Project.same_domain_only := true |};
     Project.proxy := Project.default_proxy;
     Project.rate_limit := Project.default_rate_limit;
     Project.respect_robots_txt := true;
     Project.detect_duplicates := true;
     Project.retry_count := 0;
     Project.timeout := 30%Q |}.

Lemma run_completion_witness :
  exists s' ev,
    @Scraper.run online_world patient_user (Base.io0, Scraper.init bad_url_project) =
      (Base.Raise "Invalid IPv6 URL", s', ev) /\
    Scraper.is_running (snd s') = true /\ Forall not_completed ev.
Proof.
  destruct (@run_completion online_world patient_user
              (Base.io0, Scraper.init bad_url_project))
    as (r & s' & ev & Hrun & _ & _ & Hgoes).
  destruct (Hgoes ltac:(discriminate) ltac:(discriminate)) as [_ Hraise].
  assert (Hr : r = Base.Raise "Invalid IPv6 URL").
  { vm_compute in Hrun. injection Hrun as <- _ _. reflexivity. }
  rewrite Hr in Hrun. exists s', ev. split; [exact Hrun|]. apply (Hraise _ Hr).
Defined.

(** X20. Without link following, the results of a run are those of the
    configured URLs, in their order, one per URL and duplicates included,
    up to the point where the run was stopped: the URLs of the results
    are a prefix of the configured list, and the whole list when the
    caller never stops the run. *)
Theorem run_results_in_order `{W : Base.World} `{U : Scraper.User}
    (s : Base.IO * Scraper.ScraperOrchestrator) :
  Project.lf_enabled (Project.link_follow (Scraper.project (snd s))) = false ->
  exists r s' ev,
    Scraper.run s = (r, s', ev) /\
    forall rs, r = Base.Ok (Some rs) ->
      (exists rest,
         Project.urls (Project.target (Scraper.project (snd s))) =
           map Base.url rs ++ rest) /\
      (never_stops -> Project.fields (Scraper.project (snd s)) <> [] ->
         map Base.url rs = Project.urls (Project.target (Scraper.project (snd s)))).
Proof.
  intros Hcrawl.
  destruct (run_spec s) as (r & s' & ev & Hrun & Hpost).
  exists r, s', ev. split; [exact Hrun|]. intros rs ->.
  unfold run_post in Hpost. cbn zeta in Hpost.
  destruct (bool_decide_reflect
              (Project.urls (Project.target (Scraper.project (snd s))) = [])) as [Hu|Hu].
  { destruct Hpost as ([= ->] & _). rewrite Hu. split; [exists []; reflexivity | reflexivity]. }
  destruct (bool_decide_reflect (Project.fields (Scraper.project (snd s)) = [])) as [Hf|Hf].
  { destruct Hpost as ([= ->] & _). split; [eexists; reflexivity | intros; contradiction]. }
  destruct Hpost as (_ & _ & ls' & Hres & fresh & discovered & rest & Hfresh & Hqueue &
                     _ & _ & Hnone & _ & Hquiet).
  cbn [Scraper.results Scraper.url_queue Scraper.pages_scraped start_state app] in *.
  assert (discovered = []) as ->
    by (apply Hnone; unfold crawling; rewrite Hcrawl; reflexivity).
  rewrite app_nil_r in Hqueue. rewrite Hfresh in Hres. subst rs.
  split; [exists rest; exact Hqueue|].
  intros Hns _. destruct (Hquiet Hns eq_refl) as (-> & Hpages & Hend).
  assert (Hmax : Scraper.max_pages_of (Scraper.project (snd s)) =
                 Z.of_nat (length (Project.urls (Project.target (Scraper.project (snd s))))))
    by (unfold Scraper.max_pages_of; rewrite Hcrawl; reflexivity).
  assert (Scraper.url_queue ls' = []) as Hempty.
  { destruct Hend as [He|He]; [exact He|].
    rewrite Hmax, Hpages, Hqueue, length_app, length_map in He.
    destruct (Scraper.url_queue ls'); [reflexivity | cbn [length] in He; lia]. }
  rewrite Hqueue, Hempty, app_nil_r. reflexivity.
Qed.

Lemma run_results_in_order_witness :
  exists rs s' ev,
    @Scraper.run missing_page_world patient_user (Base.io0, Scraper.init two_page_project) =
      (Base.Ok (Some rs), s', ev) /\
    map Base.url rs = ["https://example.com/missing"; "https://example.com/next"]%string.
Proof.
  destruct (@run_results_in_order missing_page_world patient_user
              (Base.io0, Scraper.init two_page_project) eq_refl)
    as (r & s' & ev & Hrun & Hres).
  assert (Hr : exists rs, r = Base.Ok (Some rs)).
  { vm_compute in Hrun. injection Hrun as <- _ _. eexists. reflexivity. }
  destruct Hr as [rs ->]. exists rs, s', ev. split; [exact Hrun|].
  destruct (Hres rs eq_refl) as [_ Hall]. apply Hall; [|discriminate].
  split; [reflexivity | discriminate].
Defined.

(** X21. A run never scrapes the same URL twice when its start URLs are
    distinct, with or without link following: the results it returns
    have distinct URLs. *)
Theorem run_visits_once `{W : Base.World} `{U : Scraper.User}
    (s : Base.IO * Scraper.ScraperOrchestrator) :
  NoDup (Project.urls (Project.target (Scraper.project (snd s)))) ->
  exists r s' ev,
    Scraper.run s = (r, s', ev) /\
    forall rs, r = Base.Ok (Some rs) -> NoDup (map Base.url rs).
Proof.
  intros Hnd.
  destruct (run_spec s) as (r & s' & ev & Hrun & Hpost).
  exists r, s', ev. split; [exact Hrun|]. intros rs ->.
  unfold run_post in Hpost. cbn zeta in Hpost.
  destruct (bool_decide (Project.urls (Project.target (Scraper.project (snd s))) = [])).
  { destruct Hpost as ([= ->] & _). constructor. }
  destruct (bool_decide (Project.fields (Scraper.project (snd s)) = [])).
  { destruct Hpost as ([= ->] & _). constructor. }
  destruct Hpost as (_ & _ & ls' & Hres & fresh & discovered & rest & Hfresh & Hqueue &
                     Hnd' & Hdisj & _).
  cbn [Scraper.results Scraper.url_queue Scraper.seen_urls start_state app] in *.
  rewrite Hfresh in Hres. subst rs.
  assert (Hall : NoDup (Project.urls (Project.target (Scraper.project (snd s))) ++ discovered)).
  { apply NoDup_app. split; [exact Hnd|]. split; [|exact Hnd'].
    intros x Hx Hx'. apply (Hdisj x Hx'). apply elem_of_list_to_set. exact Hx. }
  rewrite Hqueue in Hall. apply NoDup_app in Hall as [Hvisited _]. exact Hvisited.
Qed.

Lemma run_visits_once_witness :
  exists rs s' ev,
    @Scraper.run missing_page_world patient_user (Base.io0, Scraper.init two_page_project) =
      (Base.Ok (Some rs), s', ev) /\
    length rs = 2%nat /\ NoDup (map Base.url rs).
Proof.
  destruct (@run_visits_once missing_page_world patient_user
              (Base.io0, Scraper.init two_page_project))
    as (r & s' & ev & Hrun & Hres).
  - vm_compute. repeat constructor; intros H;
      repeat (inversion H as [|? ? ? H']; subst; clear H; rename H' into H).
  - assert (Hr : exists rs, r = Base.Ok (Some rs) /\ length rs = 2%nat).
    { vm_compute in Hrun. injection Hrun as <- _ _. eexists. split; reflexivity. }
    destruct Hr as (rs & -> & Hlen). exists rs, s', ev.
    split; [exact Hrun|]. split; [exact Hlen | apply Hres; reflexivity].
Defined.

(** X22. When the caller answers every pause with [stop()], no result on
    which the loop pauses is ever returned: the result of the page that
    caused a pause is dropped. *)
Theorem stop_discards_paused_result `{W : Base.World} `{U : Scraper.User}
    (s : Base.IO * Scraper.ScraperOrchestrator) :
  (forall n result, Scraper.on_paused n result = Scraper.CallStop) ->
  exists r s' ev,
    Scraper.run s = (r, s', ev) /\
    forall rs, r = Base.Ok (Some rs) ->
      Forall (fun result => pauses_on result = false) rs.
Proof.
  intros Hstop.
  destruct (run_spec s) as (r & s' & ev & Hrun & Hpost).
  exists r, s', ev. split; [exact Hrun|]. intros rs ->.
  unfold run_post in Hpost. cbn zeta in Hpost.
  destruct (bool_decide (Project.urls (Project.target (Scraper.project (snd s))) = [])).
  { destruct Hpost as ([= ->] & _). constructor. }
  destruct (bool_decide (Project.fields (Scraper.project (snd s)) = [])).
  { destruct Hpost as ([= ->] & _). constructor. }
  destruct Hpost as (_ & _ & ls' & Hres & fresh & discovered & rest & Hfresh & _ &
                     _ & _ & _ & Hpause & _).
  cbn [Scraper.results start_state app] in *. rewrite Hfresh in Hres. subst rs.
  eapply Forall_impl; [exact Hpause|]. cbn beta. intros result Hp.
  destruct (pauses_on result) eqn:Hpz; [|reflexivity].
  destruct (Hp eq_refl) as [n Hn]. exfalso. apply Hn. apply Hstop.
Qed.

(** The caller answers every pause with [stop()]. *)
Definition stopping_user : Scraper.User :=
  {| Scraper.on_paused := fun _ _ => Scraper.CallStop;
     Scraper.stop_pressed := fun _ => false |}.

Lemma stop_discards_paused_result_witness :
  exists s' ev,
    @Scraper.run missing_page_world stopping_user (Base.io0, Scraper.init two_page_project) =
      (Base.Ok (Some []), s', ev) /\
    Forall (fun result => pauses_on result = false) ([] : list Base.ScrapeResult).
Proof.
  destruct (@stop_discards_paused_result missing_page_world stopping_user
              (Base.io0, Scraper.init two_page_project))
    as (r & s' & ev & Hrun & Hres); [reflexivity|].
  assert (Hr : r = Base.Ok (Some [])).
  { vm_compute in Hrun. injection Hrun as <- _ _. reflexivity. }
  exists s', ev. rewrite Hr in Hrun. split; [exact Hrun | apply Hres; exact Hr].
Defined.

(** ** A browser that failed to come up *)

Section StuckBrowser.
Import Base PlaywrightEngine.
Context `{W : World}.

(** The events of a scrape that never reaches the browser: the
    rate-limit sleep, page blocks that fail on entry, and backoff
    sleeps. *)
Definition off_browser (e : IOEvent) : Prop :=
  match e with
  | EvSleep _ _ => True
  | EvVisit _ reply => reply = BrowserFailed enter_none_error
  | _ => False
  end.

(** What a scrape that never reaches the browser leaves of the engine:
    only the error counter moves. *)
Definition stuck_frame (e e' : PlaywrightEngine) : Prop :=
  _playwright e' = _playwright e /\ _semaphore e' = _semaphore e /\
  retry_count e' = retry_count e /\ rate_limit e' = rate_limit e.

Lemma js_retry_loop_stuck (u : string) (fields : list Project.SelectorField) (st : Q) :
  forall (attempts : list nat) (le pg : option string) (io : IO) (e : PlaywrightEngine),
    _semaphore e = false ->
    exists res io' e' ev,
      retry_loop u fields st attempts le pg (io, e) = (Ok res, (io', e'), ev) /\
      requests io' = requests io /\
      stuck_frame e e' /\
      _consecutive_errors e' = (_consecutive_errors e + length attempts)%nat /\
      url res = u /\ success res = false /\
      error res = match attempts with [] => le | _ :: _ => Some enter_none_error end /\
      Forall off_browser ev.
Proof.
  induction attempts as [|attempt rest IH]; intros le pg io e Hsem.
  - cbn [retry_loop]. unfold bind, elapsed_since, now, get, ret. cbn [fst snd app length].
    eexists _, _, _, _. split; [reflexivity|]. unfold stuck_frame.
    rewrite Nat.add_0_r. repeat split; auto.
  - cbn [retry_loop]. unfold bind at 1, get at 1. cbn [fst snd]. rewrite Hsem.
    unfold bind at 1, visit at 1. cbn [fst snd].
    destruct (js_on_failure_run attempt io e) as (e2 & Hof & _).
    assert (He2 : e2 = set_consecutive_errors (S (_consecutive_errors e)) e).
    { revert Hof. unfold on_failure, bind, get, ret, modify, when, sleep, emit.
      cbn [fst snd retry_count set_consecutive_errors with_state].
      destruct (Z.of_nat attempt <? retry_count e); intros Hof; inversion Hof; reflexivity. }
    assert (Hsem2 : _semaphore e2 = false) by (subst e2; exact Hsem).
    destruct (IH (Some enter_none_error) pg io e2 Hsem2)
      as (res & io' & e' & ev & Hloop & Hreq & Hframe & Herrs & Hurl & Hfail & Herr & Hev).
    unfold bind at 1. rewrite Hof. cbv beta iota. rewrite Hloop.
    eexists _, _, _, _. split; [reflexivity|].
    split; [exact Hreq|]. split.
    { subst e2. exact Hframe. }
    split.
    { rewrite Herrs. subst e2. cbn [_consecutive_errors set_consecutive_errors with_state length].
      lia. }
    split; [exact Hurl|]. split; [exact Hfail|]. split.
    + rewrite Herr. destruct rest; reflexivity.
    + rewrite app_nil_l. cbn [app]. constructor; [reflexivity|].
      apply Forall_app. split; [|exact Hev].
      destruct (Z.of_nat attempt <? retry_count e); repeat constructor.
Qed.

Lemma js_scrape_launch_fails (u : string) (fields : list Project.SelectorField)
    (io : IO) (e : PlaywrightEngine) :
  _playwright e = false ->
  playwright_start (requests io) = None ->
  (forall px, browser_launch (S (requests io)) px <> None) ->
  exists msg s' ev,
    scrape u fields (io, e) = (Raise msg, s', ev) /\
    _playwright (snd s') = true /\ _semaphore (snd s') = _semaphore e /\
    retry_count (snd s') = retry_count e /\ rate_limit (snd s') = rate_limit e /\
    _consecutive_errors (snd s') = _consecutive_errors e.
Proof.
  intros Hpw Hstart Hlaunch.
  unfold scrape.
  unfold bind at 1. unfold _init_browser.
  unfold bind at 1, get at 1. cbn [fst snd]. rewrite Hpw.
  unfold bind at 1, start_playwright at 1. cbn [fst snd]. rewrite Hstart.
  unfold bind at 1, modify at 1. cbn [fst snd].
  destruct (js_get_proxy_memory (bump_requests io) (set_playwright true e))
    as (px0 & e0 & Hpx0 & _ & Hm0).
  destruct (js_get_proxy_run (bump_requests io)
              (set_playwright true e))
    as (px & e1 & Hpx & Hc1 & Hpw1 & Hsem1 & _).
  rewrite Hpx in Hpx0. injection Hpx0 as <- <-.
  unfold bind at 1. rewrite Hpx.
  unfold bind at 1, launch_browser at 1. cbn [fst snd requests bump_requests].
  destruct (browser_launch (S (requests io)) (Py.nonempty px)) as [msg|] eqn:Hl;
    [|exfalso; exact (Hlaunch _ Hl)].
  eexists _, _, _. split; [reflexivity|]. cbn [snd].
  split; [rewrite Hpw1; reflexivity|]. split; [rewrite Hsem1; reflexivity|].
  split; [injection Hc1; auto|]. split; [injection Hc1; auto|].
  injection Hm0; auto.
Qed.

(** A scrape on an engine whose browser never came up: it fails every
    attempt on entering the page block, unless the wait before them
    overflows. *)
Lemma js_scrape_stuck (u : string) (fields : list Project.SelectorField)
    (io : IO) (e : PlaywrightEngine) :
  _playwright e = true ->
  _semaphore e = false ->
  exists r io' e' ev,
    scrape u fields (io, e) = (r, (io', e'), ev) /\
    requests io' = requests io /\
    stuck_frame e e' /\
    Forall off_browser ev /\
    match r with
    | Ok res =>
        backoff_overflows (rate_limit e) (_consecutive_errors e) = false /\
        url res = u /\ success res = false /\
        (0 <= retry_count e -> error res = Some enter_none_error) /\
        _consecutive_errors e' =
          (_consecutive_errors e + Z.to_nat (retry_count e + 1))%nat
    | Raise msg =>
        msg = overflow_error /\
        backoff_overflows (rate_limit e) (_consecutive_errors e) = true
    end.
Proof.
  intros Hpw Hsem.
  unfold scrape.
  unfold bind at 1. unfold _init_browser.
  unfold bind at 1, get at 1. cbn [fst snd]. rewrite Hpw.
  unfold ret at 1.
  unfold bind at 1, now at 1. cbn [fst snd].
  destruct (js_wait_rate_limit_run (bump_clock io) e)
    as (rw & io2 & ev2 & Hw & Hq2 & Hreq2 & Hcase).
  assert (Hev2 : Forall off_browser ev2).
  { pose proof (wait_outcome_of (rate_limit e) (_consecutive_errors e) (bump_clock io, e))
      as Hout.
    unfold _wait_rate_limit in Hw. rewrite bind_get in Hw. cbn [snd] in Hw.
    rewrite Hw in Hout. unfold wait_outcome in Hout.
    destruct (backoff_overflows _ _).
    - injection Hout as _ _ ->. constructor.
    - destruct Hout as (delay & io3 & Heq & _). injection Heq as _ _ ->.
      destruct (positive delay); repeat constructor. }
  unfold bind at 1. rewrite Hw.
  destruct rw as [[]|msg].
  - unfold bind at 1, get at 1. cbn [fst snd].
    destruct (js_retry_loop_stuck u fields (time_time (clock_reads io))
                (Py.range (retry_count e + 1)) None None io2 e Hsem)
      as (res & io' & e' & ev & Hloop & Hreq & Hframe & Herrs & Hurl & Hfail & Herr & Hev).
    rewrite Hloop. eexists _, _, _, _. split; [reflexivity|].
    split; [cbn [requests bump_clock] in Hreq2; congruence|].
    split; [exact Hframe|].
    split; [cbn [app]; apply Forall_app; split; [exact Hev2 | exact Hev]|].
    split; [exact Hcase|]. split; [exact Hurl|]. split; [exact Hfail|]. split.
    + intros Hrc. rewrite Herr. unfold Py.range.
      destruct (Z.to_nat (retry_count e + 1)) eqn:Hn; [lia | reflexivity].
    + rewrite Herrs. unfold Py.range. rewrite length_seq. reflexivity.
  - destruct Hcase as (-> & Hover & -> & ->).
    eexists _, _, _, _. split; [reflexivity|].
    split; [reflexivity|]. split; [repeat split|]. split; [constructor|].
    split; [reflexivity | exact Hover].
Qed.

(** A caller making one [scrape] after the other on the same engine. *)
Fixpoint scrape_each (jobs : list (string * list Project.SelectorField))
    : M PlaywrightEngine (list ScrapeResult) :=
  match jobs with
  | [] => ret []
  | (u, fields) :: rest =>
      (let* result := scrape u fields in
       let* others := scrape_each rest in
       ret (result :: others))%M
  end.

(** How such a caller fares on an engine whose browser never came up,
    [errors] being the error counter when it starts: every scrape fails
    on entering the page block, until one raises on the overflow of its
    backoff. *)
Definition stuck_outcome (rl : Project.RateLimitConfig) (retries : Z) (errors : nat)
    (jobs : list (string * list Project.SelectorField))
    (r : Res (list ScrapeResult)) : Prop :=
  match r with
  | Ok rs =>
      map url rs = map fst jobs /\
      Forall (fun res => success res = false /\ error res = Some enter_none_error) rs
  | Raise msg =>
      msg = overflow_error /\ Project.adaptive rl = true /\
      (float_exponent_limit <= errors + length jobs * Z.to_nat (retries + 1))%nat
  end /\
  (Project.adaptive rl = false \/
   (errors + length jobs * Z.to_nat (retries + 1) <= float_exponent_limit)%nat ->
   exists rs, r = Ok rs).

Lemma js_scrape_each_stuck (jobs : list (string * list Project.SelectorField)) :
  forall (io : IO) (e : PlaywrightEngine),
    _playwright e = true ->
    _semaphore e = false ->
    0 <= retry_count e ->
    exists r io' e' ev,
      scrape_each jobs (io, e) = (r, (io', e'), ev) /\
      requests io' = requests io /\
      Forall off_browser ev /\
      stuck_outcome (rate_limit e) (retry_count e) (_consecutive_errors e) jobs r.
Proof.
  induction jobs as [|[u fields] rest IH]; intros io e Hpw Hsem Hrc; cbn [scrape_each].
  - eexists _, _, _, _. split; [reflexivity|]. split; [reflexivity|].
    split; [constructor|]. split; [split; constructor | eauto].
  - destruct (js_scrape_stuck u fields io e Hpw Hsem)
      as (r1 & io1 & e1 & ev1 & Hrun & Hreq & (Hpw1 & Hsem1 & Hrc1 & Hrl1) & Hev1 & Hcase).
    destruct r1 as [res|msg].
    + destruct Hcase as (Hover & Hurl & Hfail & Herr & Herrs).
      destruct (IH io1 e1) as (r2 & io2 & e2 & ev2 & Hrest & Hreq2 & Hev2 & Hout & Hall);
        [congruence | congruence | lia |].
      rewrite Hrl1, Hrc1, Herrs in Hout, Hall.
      unfold bind at 1. rewrite Hrun. unfold bind at 1. rewrite Hrest.
      destruct r2 as [rs|msg].
      * eexists _, _, _, _. split; [reflexivity|]. split; [congruence|].
        split; [rewrite app_nil_r; apply Forall_app; auto|].
        destruct Hout as [Hurls Hfailed]. split; [|eauto].
        split; [cbn [map fst]; congruence|].
        constructor; [split; [exact Hfail | exact (Herr Hrc)] | exact Hfailed].
      * eexists _, _, _, _. split; [reflexivity|]. split; [congruence|].
        split; [apply Forall_app; auto|].
        destruct Hout as (-> & Hadapt & Hlimit). split.
        -- split; [reflexivity|]. split; [exact Hadapt|]. cbn [length]. lia.
        -- intros Hfine. destruct (Hall ltac:(cbn [length] in Hfine; destruct Hfine; [left; assumption | right; lia]))
             as (rs & Hrs). discriminate.
    + destruct Hcase as (-> & Hover).
      unfold backoff_overflows in Hover. apply andb_prop in Hover as [Hadapt Hlimit].
      apply Nat.leb_le in Hlimit.
      unfold bind at 1. rewrite Hrun.
      eexists _, _, _, _. split; [reflexivity|]. split; [exact Hreq|].
      split; [exact Hev1|]. split.
      * split; [reflexivity|]. split; [exact Hadapt|]. lia.
      * intros [Hoff|Hfine]; [congruence|]. exfalso. cbn [length] in Hfine.
        assert (1 <= Z.to_nat (retry_count e + 1))%nat by lia. nia.
Qed.

End StuckBrowser.

(** X23. The browser engine tries to bring the browser up only once. When
    Playwright starts but the launch of the browser fails, that [scrape]
    raises, and no later [scrape] on the engine reaches the browser or
    makes any request: each returns a failed result whose error is that
    of entering the missing page block. Each of them adds
    [retry_count + 1] to the error counter, so with adaptive rate
    limiting the series ends with the [OverflowError] of the backoff
    once the counter has passed 1024. *)
Theorem browser_launch_is_not_retried `{W : Base.World} (u : string)
    (fields : list Project.SelectorField) (io : Base.IO)
    (e : PlaywrightEngine.PlaywrightEngine) :
  PlaywrightEngine._playwright e = false ->
  PlaywrightEngine._semaphore e = false ->
  0 <= PlaywrightEngine.retry_count e ->
  Base.playwright_start (Base.requests io) = None ->
  (forall px, Base.browser_launch (S (Base.requests io)) px <> None) ->
  exists msg s1 ev1,
    PlaywrightEngine.scrape u fields (io, e) = (Base.Raise msg, s1, ev1) /\
    forall jobs,
    exists r s2 ev2,
      scrape_each jobs s1 = (r, s2, ev2) /\
      Base.requests (fst s2) = Base.requests (fst s1) /\
      Forall off_browser ev2 /\
      stuck_outcome (PlaywrightEngine.rate_limit e) (PlaywrightEngine.retry_count e)
        (PlaywrightEngine._consecutive_errors e) jobs r.
Proof.
  intros Hpw Hsem Hrc Hstart Hlaunch.
  destruct (js_scrape_launch_fails u fields io e Hpw Hstart Hlaunch)
    as (msg & [io1 e1] & ev1 & Hrun & Hpw1 & Hsem1 & Hrc1 & Hrl1 & Herrs1).
  exists msg, (io1, e1), ev1. split; [exact Hrun|]. intros jobs. cbn [snd] in *.
  destruct (js_scrape_each_stuck jobs io1 e1 Hpw1) as (r & io2 & e2 & ev2 & H);
    [congruence | lia |].
  rewrite Hrl1, Hrc1, Herrs1 in H.
  exists r, (io2, e2), ev2. exact H.
Qed.

(** Playwright starts, but there is no browser to launch. *)
Definition no_browser_world : Base.World :=
  {| Base.urlparse := @Base.urlparse online_world;
     Base.urljoin := @Base.urljoin online_world;
     Base.http_get := @Base.http_get online_world;
     Base.raise_for_status := @Base.raise_for_status online_world;
     Base.can_fetch := @Base.can_fetch online_world;
     Base.bs_parse := @Base.bs_parse online_world;
     Base.bs_parse_html := @Base.bs_parse_html online_world;
     Base.select_one_value := @Base.select_one_value online_world;
     Base.select_hrefs := @Base.select_hrefs online_world;
     Base.playwright_start := fun _ => None;
     Base.browser_launch := fun _ _ => Some "Executable doesn't exist"%string;
     Base.enter_none_error := @Base.enter_none_error online_world;
     Base.page_visit := @Base.page_visit online_world;
     Base.query_selector_value := @Base.query_selector_value online_world;
     Base.strip := @Base.strip online_world;
     Base.collapse_whitespace := @Base.collapse_whitespace online_world;
     Base.remove_zero_width := @Base.remove_zero_width online_world;
     Base.content_hash := @Base.content_hash online_world;
     Base.time_time := @Base.time_time online_world;
     Base.random_random := @Base.random_random online_world;
     Base.random_random_range := @Base.random_random_range online_world |}.

(** With [retry_count = 1] and the counter at 0, the first 512 later
    scrapes all return their failed result. *)
Lemma browser_launch_is_not_retried_witness :
  exists msg s1 ev1,
    @PlaywrightEngine.scrape no_browser_world "https://example.com/" [title_field]
      (Base.io0, js_engine 1 false) = (Base.Raise msg, s1, ev1) /\
    forall jobs,
      (length jobs <= 512)%nat ->
      exists rs s2 ev2,
        @scrape_each no_browser_world jobs s1 = (Base.Ok rs, s2, ev2) /\
        map Base.url rs = map fst jobs /\
        Forall (fun res => Base.success res = false /\
                           Base.error res = Some (@Base.enter_none_error no_browser_world)) rs /\
        Base.requests (fst s2) = Base.requests (fst s1) /\
        Forall (@off_browser no_browser_world) ev2.
Proof.
  destruct (@browser_launch_is_not_retried no_browser_world "https://example.com/"
              [title_field] Base.io0 (js_engine 1 false))
    as (msg & s1 & ev1 & Hrun & Hlater);
    try reflexivity; [cbn; lia | discriminate |].
  exists msg, s1, ev1. split; [exact Hrun|]. intros jobs Hlen.
  destruct (Hlater jobs) as (r & s2 & ev2 & Hrest & Hreq & Hev & Hout & Hall).
  destruct Hall as (rs & ->).
  { right. change (0 + length jobs * 2 <= 1024)%nat. lia. }
  destruct Hout as [Hurls Hfailed]. exists rs, s2, ev2. auto.
Defined.

(** ** The single-URL test *)

Section TestFacts.
Import Base Scraper ScraperTest.
Context `{W : World} `{U : User}.

Lemma relabel_run {E E' S A} (f : E -> E') (m : Comp E S A) s r s' ev :
  m s = (r, s', ev) -> relabel f m s = (r, s', map f ev).
Proof. intros H. unfold relabel. rewrite H. reflexivity. Qed.

(** The last line a test logs, for the result it returns. *)
Definition verdict_line (result : ScrapeResult) : TestEvent :=
  if success result
  then EvTestLog Info (MsgTestSuccessful (size (data result)))
  else EvTestLog Error (MsgTestFailed (error result)).

(** What a test of [u] leaves behind. *)
Definition test_post (s : IO * ScraperOrchestrator) (u : string) (r : Res ScrapeResult)
    (s' : IO * ScraperOrchestrator) (ev : list TestEvent) : Prop :=
  controls (snd s') = controls (snd s) /\
  (exists rest,
     ev = EvTestLog Info (MsgTestingUrl u)
          :: EvTestLog Info (MsgEngine (_get_engine_type (snd s))) :: rest) /\
  forall result, r = Ok result -> url result = u /\ last ev = Some (verdict_line result).

Lemma test_from_url (o : ScraperOrchestrator) (u : string) (io : IO) :
  exists r s' ev,
    (test_log Info (MsgTestingUrl u) >>
     test_log Info (MsgEngine (_get_engine_type o)) >>
     let* engine := relabel EvRun _get_engine in
     let* warning := relabel EvRun (engine_check_robots engine u) in
     match warning with
     | Some w =>
         relabel EvRun (signal (SigRobotsWarning w)) >>
         test_log Warning (MsgWarningText (message w))
     | None => ret tt
     end >>
     let* result := relabel EvRun (engine_scrape engine u (Project.fields (project o))) in
     (if success result
      then test_log Info (MsgTestSuccessful (size (data result)))
      else test_log Error (MsgTestFailed (error result))) >>
     ret result)%M (io, o) = (r, s', ev) /\
    test_post (io, o) u r s' ev.
Proof.
  unfold test_post. cbn [snd].
  apply bind_any with (a := tt) (s1 := (io, o))
                      (ev1 := [EvTestLog Info (MsgTestingUrl u)]); [reflexivity|].
  apply bind_any with (a := tt) (s1 := (io, o))
                      (ev1 := [EvTestLog Info (MsgEngine (_get_engine_type o))]);
    [reflexivity|].
  destruct (get_engine_controls (io, o)) as (engine & o1 & Heng & Hc1). cbn [fst snd] in *.
  apply bind_any with (1 := relabel_run EvRun _ _ _ _ _ Heng).
  destruct (engine_check_robots_controls engine u (io, o1)) as (rw & s2 & ev2 & Hrob & Hc2).
  cbn [snd] in Hc2.
  destruct rw as [warning|msg].
  2:{ apply bind_raised with (1 := relabel_run EvRun _ _ _ _ _ Hrob).
      split; [congruence|]. split; [eexists; reflexivity | discriminate]. }
  apply bind_any with (1 := relabel_run EvRun _ _ _ _ _ Hrob).
  assert (Hw : exists evw,
            match warning with
            | Some w =>
                (relabel EvRun (signal (SigRobotsWarning w)) >>
                 test_log Warning (MsgWarningText (message w)))%M
            | None => ret tt
            end s2 = (Ok tt, s2, evw)).
  { destruct warning; eexists; reflexivity. }
  destruct Hw as (evw & Hw).
  apply bind_any with (1 := Hw).
  destruct (engine_scrape_controls engine u (Project.fields (project o)) s2)
    as (rs & s3 & ev3 & Hscr & Hc3 & Hurl).
  destruct rs as [result|msg].
  2:{ apply bind_raised with (1 := relabel_run EvRun _ _ _ _ _ Hscr).
      split; [congruence|]. split; [eexists; reflexivity | discriminate]. }
  apply bind_any with (1 := relabel_run EvRun _ _ _ _ _ Hscr).
  exists (Ok result), s3, [verdict_line result]. split.
  - unfold verdict_line. destruct (success result); reflexivity.
  - split; [congruence|]. split; [eexists; reflexivity|].
    intros result' [= <-]. split; [apply Hurl; reflexivity|].
    cbn [app]. rewrite !app_comm_cons, !app_assoc. apply last_snoc.
Qed.

End TestFacts.

(** The URL a test is for: the argument unless it is missing or
    empty, and then the first URL of the project. *)
Definition tested_url (url : option string) (urls : list string) : option string :=
  match url with
  | Some u => if String.eqb u "" then head urls else Some u
  | None => head urls
  end.

(** X24. [test_single_url] tests the URL it is given or, when it is given
    none (or the empty string), the first URL of the project; with
    neither it returns the [No URL provided] result at once, having
    logged nothing and created no engine. Otherwise it first logs the
    URL and the engine type, leaves the project and the run flags as
    they were, and what it returns is a result for the tested URL
    whose verdict is the last line it logs. *)
Theorem test_single_url_target `{W : Base.World} (url : option string)
    (io : Base.IO) (o : Scraper.ScraperOrchestrator) :
  exists r s' ev,
    ScraperTest.test_single_url url (io, o) = (r, s', ev) /\
    match tested_url url (Project.urls (Project.target (Scraper.project o))) with
    | Some u => test_post (io, o) u r s' ev
    | None => r = Base.Ok ScraperTest.no_url_result /\ s' = (io, o) /\ ev = []
    end.
Proof.
  unfold ScraperTest.test_single_url, tested_url.
  unfold Base.bind at 1, Base.get at 1. cbn [fst snd].
  destruct url as [u|]; [destruct (String.eqb u "")|];
    try (destruct (Project.urls (Project.target (Scraper.project o))) as [|first rest];
         cbn [head];
         [eexists _, _, _; split; [reflexivity|]; auto|]);
    match goal with
    | |- context [ScraperTest.MsgTestingUrl ?v] =>
        destruct (test_from_url o v io) as (r & s' & ev & Hrun & Hpost);
        rewrite Hrun; eexists _, _, _; (split; [reflexivity|]); exact Hpost
    end.
Qed.

(** ** Older link-follow sections *)

Section DictFacts.

Lemma dict_get_set {V} (k k' : string) (v : V) (d : list (string * V)) :
  Py.dict_get k' (Py.dict_set k v d) =
    if String.eqb k' k then Some v else Py.dict_get k' d.
Proof.
  induction d as [|[k0 v0] d IH]; cbn; [destruct (String.eqb k' k); reflexivity|].
  destruct (String.eqb_spec k k0) as [->|Hk]; cbn.
  - destruct (String.eqb k' k0); reflexivity.
  - destruct (String.eqb_spec k' k0) as [->|Hk'].
    + destruct (String.eqb_spec k0 k) as [->|_]; [congruence | reflexivity].
    + exact IH.
Qed.

Lemma dict_get_del {V} (k : string) (d : list (string * V)) :
  Py.dict_get k (LinkFollowCompat.dict_del k d) = None.
Proof.
  unfold LinkFollowCompat.dict_del. induction d as [|[k0 v0] d IH]; [reflexivity|].
  rewrite filter_cons. cbn [fst].
  destruct (decide (k0 ≠ k)) as [Hk|Hk]; [|exact IH].
  cbn. destruct (String.eqb_spec k k0) as [->|_]; [congruence | exact IH].
Qed.

End DictFacts.

(** X25. [LinkFollowConfig.__init__] touches only the two selector keys. With
    an explicit [link_selectors], or without the legacy [link_selector],
    the arguments are handed on as they are. A legacy [link_selector]
    given alone is always removed; a truthy one comes back as the
    one-element [link_selectors] list, a falsy one ([None] or the empty
    string) leaves [link_selectors] unset, to take its default. *)
Theorem legacy_link_selector (data : list (string * LinkFollowCompat.Value)) :
  (forall k, k <> "link_selector" -> k <> "link_selectors" ->
     Py.dict_get k (LinkFollowCompat.__init__ data) = Py.dict_get k data) /\
  match Py.dict_get "link_selectors" data, Py.dict_get "link_selector" data with
  | Some _, _ => LinkFollowCompat.__init__ data = data
  | None, None => LinkFollowCompat.__init__ data = data
  | None, Some old_selector =>
      Py.dict_get "link_selector" (LinkFollowCompat.__init__ data) = None /\
      Py.dict_get "link_selectors" (LinkFollowCompat.__init__ data) =
        if LinkFollowCompat.truthy old_selector
        then Some (LinkFollowCompat.VList [old_selector]) else None
  end.
Proof.
  unfold LinkFollowCompat.__init__, Py.dict_mem.
  destruct (Py.dict_get "link_selectors" data) as [new|] eqn:Hnew;
    destruct (Py.dict_get "link_selector" data) as [old|] eqn:Hold;
    cbn [andb negb]; try (split; [reflexivity | reflexivity]).
  split.
  - intros k Hk1 Hk2. destruct (LinkFollowCompat.truthy old).
    + rewrite dict_get_set. destruct (String.eqb_spec k "link_selectors"); [contradiction|].
      apply dict_get_filter_ne. exact Hk1.
    + apply dict_get_filter_ne. exact Hk1.
  - destruct (LinkFollowCompat.truthy old).
    + rewrite !dict_get_set. cbn [String.eqb Ascii.eqb Bool.eqb]. split; [|reflexivity].
      change (String.eqb "link_selector" "link_selectors") with false. cbv iota.
      apply dict_get_del.
    + split; [apply dict_get_del|].
      unfold LinkFollowCompat.dict_del. rewrite dict_get_filter_ne by discriminate.
      exact Hnew.
Qed.

(** ** Which failures pause a run *)

(** X26. A page of the plain-HTTP engine that fails on an HTTP status makes
    the run pause exactly by the status text in its error: a status
    from 400 to 499 always pauses, whatever the reason phrase; a status
    from 500 to 599 pauses only if the reason phrase itself contains
    [HTTP 4]. *)
Theorem pause_on_http_status `{W : Base.World} (status : Z) (reason text : string)
    (result : Base.ScrapeResult) :
  Base.raise_for_status status = true ->
  Base.error result = http_error (Base.HttpResponse status reason text) ->
  (400 <= status <= 499 -> Scraper._should_pause_on_error result = true) /\
  (500 <= status <= 599 ->
   Scraper._should_pause_on_error result = Py.contains "HTTP 4" reason).
Proof.
  intros Hraise Herr. unfold Scraper._should_pause_on_error. rewrite Herr.
  cbn [http_error]. rewrite Hraise. split; intros Hs.
  - assert (exists n, (n < 100)%nat /\ status = 400 + Z.of_nat n) as (n & Hn & ->)
      by (exists (Z.to_nat (status - 400)); lia).
    do 100 (destruct n as [|n]; [vm_compute; reflexivity|]). lia.
  - assert (exists n, (n < 100)%nat /\ status = 500 + Z.of_nat n) as (n & Hn & ->)
      by (exists (Z.to_nat (status - 500)); lia).
    do 100 (destruct n as [|n]; [vm_compute; reflexivity|]). lia.
Qed.

Lemma pause_on_http_status_witness :
  (400 <= 404 <= 499 ->
   Scraper._should_pause_on_error
     (Base.failed_result "https://example.com/missing" (Some "HTTP 404: Not Found"%string)
        0 None) = true) /\
  (500 <= 404 <= 599 ->
   Scraper._should_pause_on_error
     (Base.failed_result "https://example.com/missing" (Some "HTTP 404: Not Found"%string)
        0 None) = Py.contains "HTTP 4" "Not Found").
Proof.
  apply (@pause_on_http_status missing_page_world 404 "Not Found" ""); reflexivity.
Defined.

(** ** The links taken from a page *)

Section LinkFacts.
Import Base Scraper.
Context `{W : World} `{U : User}.

(** A link worth following from a page at [base_url]. *)
Definition followable (base_url : string) (same_domain : bool) (link : string) : Prop :=
  Py.startswith "http://" link || Py.startswith "https://" link = true /\
  Py.contains "#" link = false /\
  Forall (fun sfx => Py.endswith sfx link = false) non_page_suffixes /\
  (same_domain = true ->
   exists b l, urlparse base_url = Ok b /\ urlparse link = Ok l /\ netloc l = netloc b).

Lemma collect_links_followable (base_url : string) (b : ParsedUrl) (same_domain : bool) :
  urlparse base_url = Ok b ->
  forall (hrefs : list (option string)) (links : list string),
    Forall (followable base_url same_domain) links ->
    Forall (followable base_url same_domain)
           (fst (collect_links base_url (netloc b) same_domain hrefs links)) /\
    exists more, fst (collect_links base_url (netloc b) same_domain hrefs links) = links ++ more /\
                 Forall (fun l => exists href, Some href ∈ hrefs /\ href <> ""%string /\
                                               urljoin base_url href = Ok l) more.
Proof.
  intros Hb. induction hrefs as [|[href|] rest IH]; intros links Hl; cbn [collect_links].
  - split; [exact Hl|]. exists []. rewrite app_nil_r. split; [reflexivity | constructor].
  - assert (Hskip : Forall (followable base_url same_domain)
                      (fst (collect_links base_url (netloc b) same_domain rest links)) /\
            exists more,
              fst (collect_links base_url (netloc b) same_domain rest links) = links ++ more /\
              Forall (fun l => exists h, Some h ∈ Some href :: rest /\ h <> ""%string /\
                                         urljoin base_url h = Ok l) more).
    { destruct (IH links Hl) as (H1 & more & H2 & H3). split; [exact H1|].
      exists more. split; [exact H2|]. eapply Forall_impl; [exact H3|].
      intros l (h & Hh & Hne & Hj). exists h. split; [right; exact Hh | auto]. }
    assert (Hstop : Forall (followable base_url same_domain) links /\
            exists more,
              links = links ++ more /\
              Forall (fun l => exists h, Some h ∈ Some href :: rest /\ h <> ""%string /\
                                         urljoin base_url h = Ok l) more).
    { split; [exact Hl|]. exists []. rewrite app_nil_r. split; [reflexivity | constructor]. }
    destruct (String.eqb_spec href "") as [_|Hne]; [exact Hskip|].
    destruct (urljoin base_url href) as [full_url|msg] eqn:Hjoin; [|exact Hstop].
    destruct (Py.startswith "http://" full_url || Py.startswith "https://" full_url) eqn:Hhttp;
      cbn [negb]; [|exact Hskip].
    assert (Hdom : forall other,
              (if same_domain then
                 match urlparse full_url with
                 | Raise msg => Raise msg
                 | Ok parsed => Ok (negb (String.eqb (netloc parsed) (netloc b)))
                 end
               else Ok false) = Ok other ->
              other = false ->
              same_domain = true ->
              exists b' l, urlparse base_url = Ok b' /\ urlparse full_url = Ok l /\
                           netloc l = netloc b').
    { intros other Ho -> ->. destruct (urlparse full_url) as [parsed|] eqn:Hp; [|discriminate].
      injection Ho as Ho. apply negb_false_iff in Ho. apply String.eqb_eq in Ho.
      exists b, parsed. auto. }
    destruct (if same_domain then _ else _) as [[|]|msg] eqn:Hother;
      [exact Hskip | | exact Hstop].
    destruct (Py.contains "#" full_url || existsb _ non_page_suffixes) eqn:Hpage;
      [exact Hskip|].
    apply orb_false_iff in Hpage as [Hhash Hsfx].
    assert (Hok : followable base_url same_domain full_url).
    { split; [exact Hhttp|]. split; [exact Hhash|]. split.
      - apply Forall_forall. intros sfx Hin.
        destruct (Py.endswith sfx full_url) eqn:He; [|reflexivity].
        assert (existsb (fun sfx => Py.endswith sfx full_url) non_page_suffixes = true)
          by (apply existsb_exists; exists sfx; split; [apply list_elem_of_In; exact Hin | exact He]).
        congruence.
      - apply (Hdom false eq_refl eq_refl). }
    destruct (IH (links ++ [full_url])) as (H1 & more & H2 & H3).
    { apply Forall_app. split; [exact Hl | constructor; [exact Hok | constructor]]. }
    split; [exact H1|]. exists (full_url :: more). split.
    + rewrite H2, <- app_assoc. reflexivity.
    + constructor.
      * exists href. split; [left | auto].
      * eapply Forall_impl; [exact H3|].
        intros l (h & Hh & Hne' & Hj). exists h. split; [right; exact Hh | auto].
  - destruct (IH links Hl) as (H1 & more & H2 & H3). split; [exact H1|].
    exists more. split; [exact H2|]. eapply Forall_impl; [exact H3|].
    intros l (h & Hh & Hne & Hj). exists h. split; [right; exact Hh | auto].
Qed.

End LinkFacts.

(** X27. [_extract_links] never raises and changes nothing: whatever goes
    wrong is logged as one warning and the links gathered until then
    are returned. Every link returned is an [http://] or [https://]
    URL without [#] and without one of the non-page endings, it is the
    join of the page URL with a non-empty [href] the selector matched,
    and with [same_domain] its host is the host of the page. *)
Theorem extract_links_filtered `{W : Base.World} (page base_url sel : string)
    (same_domain : bool) (s : Base.IO * Scraper.ScraperOrchestrator) :
  exists links ev,
    Scraper._extract_links page base_url sel same_domain s = (Base.Ok links, s, ev) /\
    (ev = [] \/
     exists msg, ev = [Base.EvSignal (Base.SigLog Base.Warning (Base.MsgExtractError msg))]) /\
    Forall (followable base_url same_domain) links /\
    Forall (fun l => exists hrefs href,
                       Base.select_hrefs page sel = Base.Ok hrefs /\
                       Some href ∈ hrefs /\ href <> ""%string /\
                       Base.urljoin base_url href = Base.Ok l) links.
Proof.
  unfold Scraper._extract_links.
  assert (Hnone : forall msg,
            exists links ev,
              (let '(links, exn) := ([], Some msg) in
               Base.bind match exn with
                         | Some msg => Base.log Base.Warning (Base.MsgExtractError msg)
                         | None => Base.ret tt
                         end (fun _ => Base.ret links)) s = (Base.Ok links, s, ev) /\
              (ev = [] \/
               exists msg, ev = [Base.EvSignal (Base.SigLog Base.Warning (Base.MsgExtractError msg))]) /\
              Forall (followable base_url same_domain) links /\
              Forall (fun l => exists hrefs href,
                                 Base.select_hrefs page sel = Base.Ok hrefs /\
                                 Some href ∈ hrefs /\ href <> ""%string /\
                                 Base.urljoin base_url href = Base.Ok l) links).
  { intros msg. eexists _, _. split; [reflexivity|].
    split; [right; eexists; reflexivity|]. split; constructor. }
  destruct (Base.bs_parse_html page) as [msg|]; [apply Hnone|].
  destruct (Base.urlparse base_url) as [b|msg] eqn:Hb; [|apply Hnone].
  destruct (Base.select_hrefs page sel) as [hrefs|msg] eqn:Hsel; [|apply Hnone].
  destruct (collect_links_followable base_url b same_domain Hb hrefs [] (Forall_nil_2 _))
    as (Hok & more & Hmore & Hfrom).
  destruct (Scraper.collect_links base_url (Base.netloc b) same_domain hrefs [])
    as [links exn]. cbn [fst] in *. subst links. cbn [app].
  exists more. destruct exn as [msg|].
  - eexists. split; [reflexivity|]. split; [right; eexists; reflexivity|].
    split; [exact Hok|]. eapply Forall_impl; [exact Hfrom|].
    intros l (h & H1 & H2 & H3). exists hrefs, h. auto.
  - eexists. split; [reflexivity|]. split; [left; reflexivity|].
    split; [exact Hok|]. eapply Forall_impl; [exact Hfrom|].
    intros l (h & H1 & H2 & H3). exists hrefs, h. auto.
Qed.
